(** * job_matcher: a shallow embedding of the scraping / scoring pipeline

    The development follows the Python sources module by module:
    - [PyStr]: the string methods the program calls ([strip], [lower],
      [isdigit], [split], [in], [int]);
    - [Py]: dictionaries of heterogeneous values, exceptions, and the
      built-in [sorted] with a key and [reverse=True];
    - [ScoreParsing]: the parsing of the LLM response;
    - [Effects]: the outside world (LLM API, web site, clock, random
      number generator, sleeping) as oracles plus an explicit state;
    - [MatchingEngine]: matching_engine.py, and [Retries], which counts
      the nested calls of its retry;
    - [JobScraper]: job_scraper.py;
    - [Main]: the ranked state kept by [JobProcessor] in main.py;
    - [Spec]: the predicates the theorems are stated with, and
      [Samples]: concrete worlds and postings.
    The theorems follow the modules.

    Python [str] values are modelled by [string]; a character is a code
    point below 256 (Latin-1), which is what the 8 bits of [ascii] are
    read as by the character predicates below.  Python integers are [Z],
    floats that only carry durations are rationals ([Q]), so the rounding
    of float arithmetic is not modelled. *)

From Stdlib Require Import ZArith QArith Qround Qminmax Qpower Lia Lra Psatz.
From Stdlib Require Import String Ascii List Sorted Permutation.
From stdpp Require Import gmap strings list pretty sorting.
From Equations Require Import Equations.

Local Open Scope Z_scope.
Local Open Scope string_scope.

(* ===================================================================== *)
(** * Strings *)
(* ===================================================================== *)

Module PyStr.

(** Code point of a character. *)
Definition ord (c : ascii) : N := N_of_ascii c.

Definition between (lo hi : N) (c : ascii) : bool :=
  ((lo <=? ord c) && (ord c <=? hi))%N.

(** [c.isdecimal()]: the ASCII digits are the only decimal digits
    below U+0100. *)
Definition isdecimal (c : ascii) : bool := between 48 57 c.

(** [c.isdigit()]: the decimal digits and the superscripts U+00B2,
    U+00B3 and U+00B9. *)
Definition isdigit (c : ascii) : bool :=
  isdecimal c || (ord c =? 178)%N || (ord c =? 179)%N || (ord c =? 185)%N.

(** [c.isspace()]: TAB..CR, FS..US, SPACE, NEL and NBSP. *)
Definition isspace (c : ascii) : bool :=
  between 9 13 c || between 28 32 c || (ord c =? 133)%N || (ord c =? 160)%N.

(** [c.lower()]: A-Z, and U+00C0..U+00DE without the multiplication
    sign U+00D7, move up by 32. *)
Definition lower_char (c : ascii) : ascii :=
  if between 65 90 c || (between 192 222 c && negb (ord c =? 215)%N)
  then ascii_of_N (ord c + 32)
  else c.

Fixpoint lower (s : string) : string :=
  match s with
  | EmptyString => EmptyString
  | String c s' => String (lower_char c) (lower s')
  end.

Fixpoint lstrip (s : string) : string :=
  match s with
  | EmptyString => EmptyString
  | String c s' => if isspace c then lstrip s' else s
  end.

Fixpoint rstrip (s : string) : string :=
  match s with
  | EmptyString => EmptyString
  | String c s' =>
      match rstrip s' with
      | EmptyString => if isspace c then EmptyString else String c EmptyString
      | r => String c r
      end
  end.

(** [s.strip()] *)
Definition strip (s : string) : string := rstrip (lstrip s).

(** [''.join(filter(pred, s))] *)
Fixpoint filter_chars (pred : ascii -> bool) (s : string) : string :=
  match s with
  | EmptyString => EmptyString
  | String c s' =>
      if pred c then String c (filter_chars pred s') else filter_chars pred s'
  end.

(** [c in s] for a one-character [c] *)
Fixpoint has_char (c : ascii) (s : string) : bool :=
  match s with
  | EmptyString => false
  | String d s' => Ascii.eqb d c || has_char c s'
  end.

(** [needle in hay] *)
Fixpoint contains (needle hay : string) : bool :=
  String.prefix needle hay ||
  match hay with
  | EmptyString => false
  | String _ hay' => contains needle hay'
  end.

(** [s.split(sep, 1)] for a one-character separator: one piece when
    the separator is absent, else the text before its first occurrence
    and the text after it. *)
Fixpoint split1 (sep : ascii) (s : string) : list string :=
  match s with
  | EmptyString => [EmptyString]
  | String c s' =>
      if Ascii.eqb c sep then [EmptyString; s']
      else match split1 sep s' with
           | l :: rest => String c l :: rest
           | [] => [s]
           end
  end.

(** [s.split(sep)] for a one-character separator. *)
Fixpoint split (sep : ascii) (s : string) : list string :=
  match s with
  | EmptyString => [EmptyString]
  | String c s' =>
      if Ascii.eqb c sep then EmptyString :: split sep s'
      else match split sep s' with
           | l :: rest => String c l :: rest
           | [] => [s]
           end
  end.

(** [s[:n]] *)
Fixpoint take (n : nat) (s : string) : string :=
  match n, s with
  | S n', String c s' => String c (take n' s')
  | _, _ => EmptyString
  end.

Definition digit_value (c : ascii) : Z := Z.of_N (ord c) - 48.

Fixpoint int_digits (acc : Z) (s : string) : option Z :=
  match s with
  | EmptyString => Some acc
  | String c s' =>
      if isdecimal c then int_digits (10 * acc + digit_value c) s' else None
  end.

(** [int(s)] on a string made of [isdigit] characters, the only strings
    the program passes to it: the value in base ten, [None] (Python's
    ValueError) for the empty string and when a superscript digit
    occurs.  The interpreter's configurable limit on the number of
    digits is not part of the model. *)
Definition int (s : string) : option Z :=
  match s with
  | EmptyString => None
  | _ => int_digits 0 s
  end.

Definition newline : ascii := ascii_of_nat 10.
Definition nl : string := String newline EmptyString.
Definition quote : string := String (ascii_of_nat 34) EmptyString.
Definition apostrophe : string := String (ascii_of_nat 39) EmptyString.

End PyStr.

(* ===================================================================== *)
(** * Values, dictionaries, exceptions, sorting *)
(* ===================================================================== *)

Module Py.

(** The objects stored in a posting: text, integers and [None]. *)
Inductive value : Type :=
| VStr (s : string)
| VInt (z : Z)
| VNone.

(** A posting is a [dict] from field names to values. *)
Abbreviation Job := (gmap string value).

(** [str(v)], as f-strings apply it. *)
Definition str (v : value) : string :=
  match v with
  | VStr s => s
  | VInt z => pretty z
  | VNone => "None"
  end.

Definition type_name (v : value) : string :=
  match v with
  | VStr _ => "str"
  | VInt _ => "int"
  | VNone => "NoneType"
  end.

(** The exceptions the program meets; all of them are subclasses of
    [Exception].  [RequestException] is requests' transport error,
    [RateLimitError] the LLM client's rate-limit signal. *)
Inductive exn : Type :=
| KeyError (key : string)
| TypeError (msg : string)
| IndexError (msg : string)
| ValueError (msg : string)
| RateLimitError (msg : string)
| RequestException (msg : string)
| Exception (msg : string).

(** [str(e)]; a [KeyError] prints the [repr] of its key. *)
Definition str_exn (e : exn) : string :=
  match e with
  | KeyError k => PyStr.apostrophe +:+ k +:+ PyStr.apostrophe
  | TypeError m | IndexError m | ValueError m
  | RateLimitError m | RequestException m | Exception m => m
  end.

Inductive Result (A : Type) : Type :=
| Ok (a : A)
| Raise (e : exn).
Arguments Ok {A} a.
Arguments Raise {A} e.

Definition bindR {A B} (r : Result A) (k : A -> Result B) : Result B :=
  match r with
  | Ok a => k a
  | Raise e => Raise e
  end.

(** [job[key]] *)
Definition getitem (job : Job) (key : string) : Result value :=
  match job !! key with
  | Some v => Ok v
  | None => Raise (KeyError key)
  end.

(** [job.get(key, dflt)] *)
Definition get (job : Job) (key : string) (dflt : value) : value :=
  default dflt (job !! key).

(** [a < b]: defined between two integers and between two strings
    (code point order). *)
Definition less_than (a b : value) : Result bool :=
  match a, b with
  | VInt x, VInt y => Ok (x <? y)%Z
  | VStr s, VStr t => Ok (String.ltb s t)
  | _, _ =>
      Raise (TypeError ("'<' not supported between instances of '"
                        +:+ type_name a +:+ "' and '" +:+ type_name b +:+ "'"))
  end.

Section Sorted.
Context {A : Type} (key : A -> value).

(** Put [x], which stood before every element of [l] in the input,
    into the descending list [l]: it passes the elements with a
    strictly greater key and stops in front of the first element
    whose key is not greater. *)
Fixpoint insert_desc (x : A) (l : list A) : Result (list A) :=
  match l with
  | [] => Ok [x]
  | y :: l' =>
      bindR (less_than (key x) (key y)) (fun below =>
        if below
        then bindR (insert_desc x l') (fun r => Ok (y :: r))
        else Ok (x :: l))
  end.

(** [sorted(l, key=key, reverse=True)].  Python documents the sort
    as stable, also under [reverse=True]; a stable descending sort
    has one possible result, which this insertion sort computes.  A
    comparison that Python does not define raises [TypeError]; which
    pair of operands the message names depends on the order of the
    comparisons and is not observed by the program. *)
Fixpoint sorted_reverse (l : list A) : Result (list A) :=
  match l with
  | [] => Ok []
  | x :: l' => bindR (sorted_reverse l') (insert_desc x)
  end.
End Sorted.

End Py.

(* ===================================================================== *)
(** * Response parsing (matching_engine.py, inner try block) *)
(* ===================================================================== *)

Module ScoreParsing.
Import Py.

(** Lines 86-113 of [analyze_job_match]: the score and the reasoning
    read from [response_text], or the exception the block raises. *)
Definition parse_response (response_text : string) : Result (Z * string) :=
  if negb (PyStr.has_char "|" response_text) then
    Raise (ValueError "Response does not contain expected '|' separator")
  else
    match PyStr.split1 "|" response_text with
    | [score_part; reasoning] =>
        let digits := PyStr.filter_chars PyStr.isdigit score_part in
        match digits with
        | EmptyString => Raise (ValueError "No digits found in score part")
        | _ =>
            match PyStr.int digits with
            | None =>
                Raise (ValueError ("invalid literal for int() with base 10: '"
                                   +:+ digits +:+ "'"))
            | Some match_score =>
                if ((match_score <? 0) || (match_score >? 100))%Z then
                  Raise (ValueError ("Score " +:+ pretty match_score
                                     +:+ " is outside valid range 0-100"))
                else
                  let match_reasoning := PyStr.strip reasoning in
                  match match_reasoning with
                  | EmptyString => Raise (ValueError "Empty reasoning")
                  | _ => Ok (match_score, match_reasoning)
                  end
            end
        end
    | _ => Raise (ValueError "not enough values to unpack (expected 2, got 1)")
    end.

End ScoreParsing.

(* ===================================================================== *)
(** * The outside world *)
(* ===================================================================== *)

Module Effects.
Import Py.

(** An HTML element as BeautifulSoup shows it: tag name, the values
    of its [class] attribute, its other attributes, and its children
    (elements and text). *)
#[warnings="-register-all"]
Inductive node : Type :=
| Elem (name : string) (classes : list string)
       (attrs : list (string * string)) (children : list node)
| Text (s : string).

(** What a search request is built from (the query string of the URL). *)
Record search_request : Type := {
  keywords : string;
  req_location : string;
  req_distance : Z;
  sortBy : string;
  start : Z;
  f_TPR : option string
}.

(** The collaborators of the program.  Each oracle takes the number of
    earlier calls of its kind, so a run may see a different answer at
    every call.
    - [messages_create n prompt]: [client.messages.create] with this
      prompt, the texts of the content blocks of the response or the
      exception raised;
    - [random n]: [random.random()], a number of [0, 1);
    - [getenv]: the process environment;
    - [new_client key]: the constructor [anthropic.Anthropic(api_key=key)],
      which may raise;
    - [search_get n req]: [requests.get] of the search URL,
      [raise_for_status] and the parse of the body by BeautifulSoup;
    - [detail_get n url]: the same for a posting's page;
    - [now n]: [datetime.now()], in seconds; [strftime] and
      [fromisoformat] are datetime's. *)
Record Env : Type := {
  messages_create : nat -> string -> Result (list string);
  random : nat -> Q;
  getenv : string -> option string;
  new_client : string -> Result unit;
  search_get : nat -> search_request -> Result (list node);
  detail_get : nat -> string -> Result (list node);
  now : nat -> Z;
  strftime : Z -> string;
  fromisoformat : string -> option Z
}.

(** The state a run threads: how often each oracle was asked, and the
    durations passed to [time.sleep], oldest first. *)
Record World : Type := {
  api_calls : nat;
  random_draws : nat;
  http_gets : nat;
  clock_reads : nat;
  slept : list Q
}.

Definition world0 : World :=
  {| api_calls := 0; random_draws := 0; http_gets := 0; clock_reads := 0;
     slept := [] |}.

Definition M (A : Type) : Type := World -> Result A * World.

Definition ret {A} (a : A) : M A := fun w => (Ok a, w).

Definition raise {A} (e : exn) : M A := fun w => (Raise e, w).

Definition bind {A B} (m : M A) (k : A -> M B) : M B :=
  fun w =>
    match m w with
    | (Ok a, w') => k a w'
    | (Raise e, w') => (Raise e, w')
    end.

(** [try: body except Exception as e: handler(e)] *)
Definition try_except {A} (body : M A) (handler : exn -> M A) : M A :=
  fun w =>
    match body w with
    | (Ok a, w') => (Ok a, w')
    | (Raise e, w') => handler e w'
    end.

Definition lift {A} (r : Result A) : M A := fun w => (r, w).

Declare Scope py_scope.
Delimit Scope py_scope with py.
Notation "x <- m ;; k" := (bind m (fun x => k))
  (at level 100, m at next level, right associativity) : py_scope.
Notation "m ;; k" := (bind m (fun _ => k))
  (at level 100, right associativity) : py_scope.

Section Primitives.
Context (env : Env).

(** [time.sleep(d)] *)
Definition sleep (d : Q) : M unit :=
  fun w =>
    (Ok tt, {| api_calls := api_calls w; random_draws := random_draws w;
               http_gets := http_gets w; clock_reads := clock_reads w;
               slept := slept w ++ [d] |}).

(** [random.random()] *)
Definition random_random : M Q :=
  fun w =>
    (Ok (random env (random_draws w)),
     {| api_calls := api_calls w; random_draws := S (random_draws w);
        http_gets := http_gets w; clock_reads := clock_reads w;
        slept := slept w |}).

(** [random.uniform(a, b)] is [a + (b - a) * random()]. *)
Definition uniform (a b : Q) : M Q :=
  bind random_random (fun u => ret (a + (b - a) * u)%Q).

(** [random.randint(a, b)]: the integer of [a..b] the next draw
    selects. *)
Definition randint (a b : Z) : M Z :=
  bind random_random (fun u => ret (a + Qfloor (u * inject_Z (b - a + 1)))%Z).

(** [client.messages.create(...)] with the given prompt. *)
Definition client_messages_create (prompt : string) : M (list string) :=
  fun w =>
    (messages_create env (api_calls w) prompt,
     {| api_calls := S (api_calls w); random_draws := random_draws w;
        http_gets := http_gets w; clock_reads := clock_reads w;
        slept := slept w |}).

Definition count_http (w : World) : World :=
  {| api_calls := api_calls w; random_draws := random_draws w;
     http_gets := S (http_gets w); clock_reads := clock_reads w;
     slept := slept w |}.

Definition get_search_page (req : search_request) : M (list node) :=
  fun w => (search_get env (http_gets w) req, count_http w).

Definition get_detail_page (url : string) : M (list node) :=
  fun w => (detail_get env (http_gets w) url, count_http w).

(** [datetime.now()] *)
Definition datetime_now : M Z :=
  fun w =>
    (Ok (now env (clock_reads w)),
     {| api_calls := api_calls w; random_draws := random_draws w;
        http_gets := http_gets w; clock_reads := S (clock_reads w);
        slept := slept w |}).
End Primitives.

End Effects.

(* ===================================================================== *)
(** * matching_engine.py *)
(* ===================================================================== *)

Module MatchingEngine.
Import Py Effects ScoreParsing.
Local Open Scope py_scope.

Definition max_retries : Z := 5.

(** [{**job, "match_score": score, "match_reasoning": reasoning}], and
    equally [job.copy()] followed by [update] with these two entries. *)
Definition with_match (job : Job) (score : Z) (reasoning : string) : Job :=
  <["match_reasoning" := VStr reasoning]> (<["match_score" := VInt score]> job).

(** The delay of [wait_with_backoff] before the jitter.  For a
    [retry_count] below zero Python's [2 ** retry_count] is the float
    [1 / 2 ** -retry_count]. *)
Definition backoff_delay (retry_count : Z) : Q :=
  let base_delay := 20%Q in
  let max_delay := 120%Q in
  Qmin (base_delay * 2 ^ retry_count) max_delay.

(** [len(v)] *)
Definition len (v : value) : Result Z :=
  match v with
  | VStr s => Ok (Z.of_nat (String.length s))
  | _ => Raise (TypeError ("object of type '" +:+ type_name v +:+ "' has no len()"))
  end.

(** [v[:200]] *)
Definition slice200 (v : value) : Result string :=
  match v with
  | VStr s => Ok (PyStr.take 200 s)
  | _ => Raise (TypeError ("'" +:+ type_name v +:+ "' object is not subscriptable"))
  end.

Definition indent : string := "        ".

(** The f-string of lines 43-57. *)
Definition prompt_text (title company description : value) (resume_text : string)
  : string :=
  "Rate this job match between 0-100 based on how well the candidate's resume matches the job requirements."
  +:+ PyStr.nl +:+ PyStr.nl
  +:+ indent +:+ "JOB:" +:+ PyStr.nl
  +:+ indent +:+ "Title: " +:+ str title +:+ PyStr.nl
  +:+ indent +:+ "Company: " +:+ str company +:+ PyStr.nl
  +:+ indent +:+ "Description: " +:+ str description +:+ PyStr.nl
  +:+ PyStr.nl
  +:+ indent +:+ "RESUME:" +:+ PyStr.nl
  +:+ indent +:+ resume_text +:+ PyStr.nl
  +:+ PyStr.nl
  +:+ indent +:+ "Respond ONLY in this exact format:" +:+ PyStr.nl
  +:+ indent +:+ "[Score]|[2-3 key reasons for the score]" +:+ PyStr.nl
  +:+ PyStr.nl
  +:+ indent +:+ "Example: " +:+ PyStr.quote
  +:+ "85|Strong product management background, healthcare industry experience, leadership skills"
  +:+ PyStr.quote +:+ PyStr.nl
  +:+ indent.

Section WithEnv.
Context (env : Env).

Definition wait_with_backoff (retry_count : Z) : M unit :=
  let delay := backoff_delay retry_count in
  jitter <- uniform env (1 # 2) (3 # 2) ;;
  let final_delay := (delay * jitter)%Q in
  sleep final_delay.

(** Lines 33-57: everything before the API call.  The two log lines
    only matter through the exceptions their arguments can raise. *)
Definition prepare_prompt (resume_text : string) (job : Job) : M string :=
  _ <- lift (getitem job "title") ;;
  _ <- lift (getitem job "company") ;;
  d <- uniform env 5 10 ;;
  sleep d ;;
  description <- lift (getitem job "description") ;;
  n <- lift (len description) ;;
  _ <- (if (n >? 200)%Z
        then lift (bindR (slice200 description) (fun s => Ok (s +:+ "...")))
        else lift (Ok (str description))) ;;
  title <- lift (getitem job "title") ;;
  company <- lift (getitem job "company") ;;
  description <- lift (getitem job "description") ;;
  ret (prompt_text title company description resume_text).

(** [response.content[0].text.strip()] *)
Definition response_text_of (content : list string) : Result string :=
  match content with
  | first :: _ => Ok (PyStr.strip first)
  | [] => Raise (IndexError "list index out of range")
  end.

(** Lines 82-118: read the response; a rejected response gives the
    parse-error posting. *)
Definition read_response (job : Job) (content : list string) : M Job :=
  response_text <- lift (response_text_of content) ;;
  try_except
    (parsed <- lift (parse_response response_text) ;;
     ret (with_match job (fst parsed) (snd parsed)))
    (fun parse_error => ret (with_match job 0 "Error parsing analysis results")).

(** [analyze_job_match(resume_text, job, client, retry_count)].  The
    inner [try] either leaves a response to read ([inl]) or, in its
    rate-limit handler, returns the result of the recursive call
    ([inr]). *)
Equations? analyze_job_match (resume_text : string) (job : Job)
    (retry_count : Z) : M Job
    by wf (Z.to_nat (max_retries - retry_count)) lt :=
  analyze_job_match resume_text job retry_count :=
    try_except
      (prompt <- prepare_prompt resume_text job ;;
       step <- try_except
                 (response <- client_messages_create env prompt ;;
                  sleep 5 ;;
                  ret (inl response))
                 (fun e =>
                    match e with
                    | RateLimitError _ =>
                        match Z_lt_dec retry_count max_retries with
                        | left _ =>
                            let retry_count' := retry_count + 1 in
                            wait_with_backoff retry_count' ;;
                            r <- analyze_job_match resume_text job retry_count' ;;
                            ret (inr r)
                        | right _ =>
                            raise (Exception ("Rate limit exceeded after "
                                              +:+ pretty max_retries
                                              +:+ " retries"))
                        end
                    | _ => raise e
                    end) ;;
       match step with
       | inl response => read_response job response
       | inr r => ret r
       end)
      (fun e =>
         ret (with_match job 0 ("Error during analysis: " +:+ str_exn e))).
Proof. unfold max_retries in *. lia. Qed.

(** The key of both sorts: [x.get('match_score', 0)]. *)
Definition match_score_key (x : Job) : value := get x "match_score" (VInt 0).

(** The [for] loop of [analyze_matches]; [matched_jobs] is returned
    in the order of the appends. *)
Fixpoint score_each (resume_text : string)
    (progress_callback : option (Job -> M unit)) (jobs : list Job)
  : M (list Job) :=
  match jobs with
  | [] => ret []
  | job :: rest =>
      job_with_match <- analyze_job_match resume_text job 0 ;;
      match progress_callback with
      | Some callback => callback job_with_match
      | None => ret tt
      end ;;
      d <- uniform env 10 15 ;;
      sleep d ;;
      matched_rest <- score_each resume_text progress_callback rest ;;
      ret (job_with_match :: matched_rest)
  end.

(** [analyze_matches(resume_text, jobs, progress_callback)] *)
Definition analyze_matches (resume_text : string) (jobs : list Job)
    (progress_callback : option (Job -> M unit)) : M (list Job) :=
  try_except
    (anthropic_key <-
       match getenv env "ANTHROPIC_API_KEY" with
       | None | Some EmptyString =>
           raise (ValueError "ANTHROPIC_API_KEY environment variable must be set")
       | Some key => ret key
       end ;;
     lift (new_client env anthropic_key) ;;
     matched_jobs <- score_each resume_text progress_callback jobs ;;
     lift (sorted_reverse match_score_key matched_jobs))
    (fun e => ret (map (fun job => with_match job 0 "Analysis failed") jobs)).

End WithEnv.

End MatchingEngine.

(* ===================================================================== *)
(** * Counting the retries of [analyze_job_match] *)
(* ===================================================================== *)

Module Retries.
Import Py Effects MatchingEngine.

Section WithEnv.
Context (env : Env) (resume_text : string) (job : Job).

(** The world right after the API call of a call of
    [analyze_job_match] started in [w], when that call is answered
    by the rate-limit signal. *)
Definition rate_limited (w : World) : option World :=
  match prepare_prompt env resume_text job w with
  | (Ok prompt, w1) =>
      match client_messages_create env prompt w1 with
      | (Raise (RateLimitError _), w2) => Some w2
      | _ => None
      end
  | _ => None
  end.

(** The number of nested recursive calls that the call with this
    [retry_count], started in [w], makes: it follows the branch of
    [analyze_job_match] that calls itself. *)
Equations? recursion_depth (retry_count : Z) (w : World) : nat
    by wf (Z.to_nat (max_retries - retry_count)) lt :=
  recursion_depth retry_count w :=
    match Z_lt_dec retry_count max_retries with
    | left _ =>
        match rate_limited w with
        | Some w2 =>
            S (recursion_depth (retry_count + 1)
                 (snd (wait_with_backoff env (retry_count + 1) w2)))
        | None => O
        end
    | right _ => O
    end.
Proof. unfold max_retries in *. lia. Qed.

(** The attempt that decides the result of the call with this
    [retry_count], started in [w]: the counter and the world of the
    last call in the chain of recursive calls. *)
Equations? final_attempt (retry_count : Z) (w : World) : Z * World
    by wf (Z.to_nat (max_retries - retry_count)) lt :=
  final_attempt retry_count w :=
    match Z_lt_dec retry_count max_retries with
    | left _ =>
        match rate_limited w with
        | Some w2 =>
            final_attempt (retry_count + 1)
              (snd (wait_with_backoff env (retry_count + 1) w2))
        | None => (retry_count, w)
        end
    | right _ => (retry_count, w)
    end.
Proof. unfold max_retries in *. lia. Qed.

End WithEnv.

End Retries.

(* ===================================================================== *)
(** * job_scraper.py *)
(* ===================================================================== *)

Module JobScraper.
Import Py Effects.
Local Open Scope py_scope.

(** ** Company filters *)

(** [parse_company_list(companies_text)] *)
Definition parse_company_list (companies_text : string) : gset string :=
  match companies_text with
  | EmptyString => ∅
  | _ =>
      list_to_set
        (map (fun company => PyStr.lower (PyStr.strip company))
           (List.filter
              (fun company =>
                 match PyStr.strip company with
                 | EmptyString => false
                 | _ => true
                 end)
              (PyStr.split PyStr.newline companies_text)))
  end.

(** [should_include_company(company, included_companies,
    excluded_companies)].  Each [for] loop returns at the first entry
    that occurs in the lowered company name. *)
Definition should_include_company (company : string)
    (included_companies excluded_companies : gset string) : bool :=
  let company := PyStr.lower company in
  if existsb (fun excluded => PyStr.contains excluded company)
       (elements excluded_companies)
  then false
  else if bool_decide (included_companies = ∅) then true
  else existsb (fun included => PyStr.contains included company)
         (elements included_companies).

(** ** The parsed page, as the program queries it *)

(** An element followed by the elements below it, in document order. *)
Fixpoint elements_of (n : node) : list node :=
  match n with
  | Elem _ _ _ children => n :: flat_map elements_of children
  | Text _ => []
  end.

(** [tag.text] *)
Fixpoint text (n : node) : string :=
  match n with
  | Elem _ _ _ children => fold_right (fun c acc => text c +:+ acc) EmptyString children
  | Text s => s
  end.

Definition in_list (x : string) (l : list string) : bool :=
  existsb (String.eqb x) l.

(** The filter of [find(names, {'class': classes})]: the tag has one of
    the names and one of the classes. *)
Definition matches (names classes : list string) (n : node) : bool :=
  match n with
  | Elem name cls _ _ => in_list name names && existsb (fun c => in_list c classes) cls
  | Text _ => false
  end.

(** [soup.find_all(names, {'class': classes})] *)
Definition find_all (names classes : list string) (soup : list node) : list node :=
  List.filter (matches names classes) (flat_map elements_of soup).

(** [card.find(names, {'class': classes})]: the first match below
    [card]. *)
Definition find (names classes : list string) (card : node) : option node :=
  match card with
  | Elem _ _ _ children => head (find_all names classes children)
  | Text _ => None
  end.

(** [tag.get(attr)] *)
Definition get_attr (attr : string) (n : node) : option string :=
  match n with
  | Elem _ _ attrs _ =>
      option_map snd (List.find (fun kv => String.eqb (fst kv) attr) attrs)
  | Text _ => None
  end.

(** [s.replace('Z', '+00:00')] *)
Fixpoint replace_Z (s : string) : string :=
  match s with
  | EmptyString => EmptyString
  | String c s' =>
      if Ascii.eqb c "Z" then "+00:00" +:+ replace_Z s' else String c (replace_Z s')
  end.

Definition not_available : string := "Detailed description not available".

Definition description_selectors : list string :=
  ["description__text"; "show-more-less-html__markup"; "job-description";
   "description"].

Definition description_keywords : list string :=
  ["job description"; "position description"; "role description"].

(** [soup.select_one('div.' + cls)] *)
Definition select_one_div (cls : string) (soup : list node) : option node :=
  head (find_all ["div"] [cls] soup).

(** The [lambda] of the keyword search. *)
Definition mentions (keyword : string) (n : node) : bool :=
  match n with
  | Elem name _ _ _ =>
      in_list name ["div"; "section"]
      && PyStr.contains (PyStr.lower keyword) (PyStr.lower (text n))
  | Text _ => false
  end.

(** The two [for] loops of [get_job_description]: the text of the
    first hit, if any. *)
Definition first_text {A} (probe : A -> option node) (candidates : list A)
  : option string :=
  head (omap (fun c => option_map (fun elem => PyStr.strip (text elem)) (probe c))
          candidates).

Section WithEnv.
Context (env : Env).

(** [get_job_description(url)] *)
Definition get_job_description (url : string) : M string :=
  try_except
    (soup <- get_detail_page env url ;;
     match first_text (fun selector => select_one_div selector soup)
             description_selectors with
     | Some description => ret description
     | None =>
         match first_text
                 (fun keyword =>
                    head (List.filter (mentions keyword) (flat_map elements_of soup)))
                 description_keywords with
         | Some description => ret description
         | None =>
             d <- uniform env 1 2 ;;
             sleep d ;;
             ret not_available
         end
     end)
    (fun e => ret not_available).

(** One sample posting of [get_sample_jobs]. *)
Definition sample_job (location : string) (title company description : string)
  : M Job :=
  hours_ago <- randint env 1 24 ;;
  t <- datetime_now env ;;
  ret (<["title" := VStr title]>
       (<["company" := VStr company]>
        (<["location" := VStr location]>
         (<["description" := VStr description]>
          (<["posted_date" := VStr (strftime env (t - hours_ago * 3600))]>
           (<["url" := VNone]> ∅)))))).

Definition job_titles (role : string) : list string :=
  ["Senior " +:+ role; "Lead " +:+ role; "Principal " +:+ role;
   "Staff " +:+ role; role +:+ " Manager"].

Definition companies : list string :=
  ["Tech Corp Inc"; "Digital Solutions Ltd"; "Innovation Systems";
   "Future Technologies"; "Global Tech Partners"].

Definition descriptions (role : string) : list string :=
  ["We are seeking an experienced " +:+ role +:+ " to join our team. The ideal candidate will have 5+ years of experience in product development, strong leadership skills, and a track record of successful product launches.";
   "Join our growing team as a " +:+ role +:+ ". You will be responsible for driving innovation, leading cross-functional teams, and delivering high-impact solutions.";
   "Exciting opportunity for a seasoned " +:+ role +:+ " to make a significant impact. You will lead strategic initiatives, mentor team members, and shape the future of our products.";
   "We're looking for a talented " +:+ role +:+ " to help scale our operations. The ideal candidate brings deep expertise, creative problem-solving skills, and a passion for excellence.";
   "Outstanding opportunity for a " +:+ role +:+ " to join our dynamic team. You will drive key projects, collaborate with stakeholders, and contribute to our company's growth."].

Fixpoint sample_loop (location : string) (rows : list (string * string * string))
  : M (list Job) :=
  match rows with
  | [] => ret []
  | (title, company, description) :: rest =>
      job <- sample_job location title company description ;;
      jobs <- sample_loop location rest ;;
      ret (job :: jobs)
  end.

(** [get_sample_jobs(role, location)]: the loop over [range(5)]. *)
Definition get_sample_jobs (role location : string) : M (list Job) :=
  sample_loop location
    (combine (combine (job_titles role) companies) (descriptions role)).

(** ** The search generator *)

Definition max_jobs : Z := 3000.

(** The local variables of [scrape_linkedin_jobs] that the loops
    update, and the postings handed to the consumer by [yield]. *)
Record Locals : Type := {
  jobs : list Job;
  total_jobs_found : Z;
  filtered_count : Z;
  page_start : Z;
  yielded : list Job
}.

Definition locals0 : Locals :=
  {| jobs := []; total_jobs_found := 0; filtered_count := 0; page_start := 0;
     yielded := [] |}.

Definition count_found (st : Locals) : Locals :=
  {| jobs := jobs st; total_jobs_found := total_jobs_found st + 1;
     filtered_count := filtered_count st; page_start := page_start st;
     yielded := yielded st |}.

Definition count_filtered (st : Locals) : Locals :=
  {| jobs := jobs st; total_jobs_found := total_jobs_found st;
     filtered_count := filtered_count st + 1; page_start := page_start st;
     yielded := yielded st |}.

(** [yield job_data] when streaming, [jobs.append(job_data)] otherwise. *)
Definition emit (stream_jobs : bool) (job_data : Job) (st : Locals) : Locals :=
  if stream_jobs
  then {| jobs := jobs st; total_jobs_found := total_jobs_found st;
          filtered_count := filtered_count st; page_start := page_start st;
          yielded := yielded st ++ [job_data] |}
  else {| jobs := jobs st ++ [job_data]; total_jobs_found := total_jobs_found st;
          filtered_count := filtered_count st; page_start := page_start st;
          yielded := yielded st |}.

Definition yield_from (more : list Job) (st : Locals) : Locals :=
  {| jobs := jobs st; total_jobs_found := total_jobs_found st;
     filtered_count := filtered_count st; page_start := page_start st;
     yielded := yielded st ++ more |}.

Definition advance (n : Z) (st : Locals) : Locals :=
  {| jobs := jobs st; total_jobs_found := total_jobs_found st;
     filtered_count := filtered_count st; page_start := page_start st + n;
     yielded := yielded st |}.

Section Search.
Context (location : string) (distance : Z) (role : string) (days : option Z)
        (progress_callback : option (Z -> M unit)) (stream_jobs : bool)
        (included excluded : gset string).

(** The timestamp of a card: a placeholder 1 to 24 hours back,
    replaced by the card's [datetime] attribute when that parses. *)
Definition posted_date_of (time_elem : option node) : M Z :=
  t <- datetime_now env ;;
  hours <- randint env 1 24 ;;
  let posted_date := t - hours * 3600 in
  ret match time_elem with
      | Some elem =>
          match get_attr "datetime" elem with
          | Some date_str =>
              match fromisoformat env (replace_Z date_str) with
              | Some parsed => parsed
              | None => posted_date
              end
          | None => posted_date
          end
      | None => posted_date
      end.

(** The body of [for card in job_cards], inside its own [try]: the
    locals afterwards and whether the loop was left by [break].  A
    card the company filter rejects, and a card whose processing
    raised, [continue] without counting in [total_jobs_found]. *)
Definition process_card (st : Locals) (card : node) : M (Locals * bool) :=
  let title_elem :=
    find ["h3"; "h4"] ["base-search-card__title"; "job-search-card__title"] card in
  let company_elem :=
    find ["h4"; "h5"] ["base-search-card__subtitle"; "job-search-card__subtitle"]
      card in
  let location_elem :=
    find ["span"] ["job-search-card__location"; "job-result-card__location"] card in
  let time_elem :=
    find ["time"] ["job-search-card__listdate"; "job-result-card__listdate"] card in
  match title_elem, company_elem with
  | Some title_elem, Some company_elem =>
      let company := PyStr.strip (text company_elem) in
      if negb (should_include_company company included excluded)
      then ret (st, false)
      else
        let title := PyStr.strip (text title_elem) in
        let job_location :=
          match location_elem with
          | Some elem => PyStr.strip (text elem)
          | None => location
          end in
        let link_elem :=
          find ["a"] ["base-card__full-link"; "job-card-container__link"] card in
        let job_url :=
          match link_elem with
          | Some elem => get_attr "href" elem
          | None => None
          end in
        try_except
          (description <-
             match job_url with
             | None | Some EmptyString =>
                 ret ("Position: " +:+ title +:+ PyStr.nl
                      +:+ "Company: " +:+ company +:+ PyStr.nl
                      +:+ "Location: " +:+ job_location)
             | Some url => get_job_description url
             end ;;
           posted_date <- posted_date_of time_elem ;;
           let job_data : Job :=
             <["title" := VStr title]>
             (<["company" := VStr company]>
              (<["location" := VStr job_location]>
               (<["description" := VStr description]>
                (<["posted_date" := VStr (strftime env posted_date)]>
                 (<["url" := match job_url with
                             | Some url => VStr url
                             | None => VNone
                             end]> ∅))))) in
           let st := count_filtered st in
           try_except
             (match progress_callback with
              | Some callback => callback (filtered_count st)
              | None => ret tt
              end ;;
              let st := emit stream_jobs job_data st in
              if (filtered_count st >=? max_jobs)%Z
              then ret (st, true)
              else ret (count_found st, false))
             (fun e => ret (st, false)))
          (fun e => ret (st, false))
  | _, _ => ret (count_found st, false)
  end.

Fixpoint process_cards (st : Locals) (job_cards : list node) : M Locals :=
  match job_cards with
  | [] => ret st
  | card :: rest =>
      r <- process_card st card ;;
      if snd r then ret (fst r) else process_cards (fst r) rest
  end.

Definition request_of (st : Locals) : search_request :=
  {| keywords := role; req_location := location; req_distance := distance;
     sortBy := "DD"; start := page_start st;
     f_TPR := option_map (fun d => "r" +:+ pretty (d * 86400)%Z) days |}.

(** How the [while] loop ended: by its condition or a [break], by
    an exception that reaches the outer handler, or not within the
    iterations the model was given. *)
Inductive loop_end : Type :=
| Finished
| Crashed (e : exn)
| Running.

(** The [while] loop; [turns] bounds the number of iterations the
    model follows (the loop itself has no bound: a page that keeps
    failing is asked for again after 5 to 10 seconds). *)
Fixpoint search_loop (turns : nat) (st : Locals) : M (loop_end * Locals) :=
  match turns with
  | O => if (total_jobs_found st <? max_jobs)%Z
         then ret (Running, st) else ret (Finished, st)
  | S turns' =>
      if negb (total_jobs_found st <? max_jobs)%Z then ret (Finished, st)
      else
        fun w =>
          match get_search_page env (request_of st) w with
          | (Raise (RequestException _), w') =>
              (d <- uniform env 5 10 ;; sleep d ;; search_loop turns' st) w'
          | (Raise e, w') => (Ok (Crashed e, st), w')
          | (Ok soup, w') =>
              let job_cards :=
                find_all ["div"] ["base-card"; "job-search-card"] soup in
              match job_cards with
              | [] => (Ok (Finished, st), w')
              | _ =>
                  (st' <- process_cards st job_cards ;;
                   if (filtered_count st' >=? max_jobs)%Z
                   then ret (Finished, st')
                   else
                     let st'' := advance (Z.of_nat (length job_cards)) st' in
                     d <- uniform env 2 4 ;;
                     sleep d ;;
                     search_loop turns' st'') w'
              end
          end
  end.

(** What the consumer of the generator gets: the postings it
    yields, in order, and the value of its [return] statement
    ([None] when the body ends without one). *)
Record Generated : Type := {
  produced : list Job;
  returned : option (list Job)
}.

(** [scrape_linkedin_jobs(...)], run to exhaustion; [None] when the
    loop is still running after [turns] iterations. *)
Definition scrape_linkedin_jobs (turns : nat) : M (option Generated) :=
  r <- search_loop turns locals0 ;;
  let st := snd r in
  let after_loop (st : Locals) : M (option Generated) :=
    if stream_jobs then
      if (filtered_count st =? 0)%Z then
        samples <- get_sample_jobs role location ;;
        ret (Some {| produced := yielded (yield_from samples st);
                     returned := None |})
      else ret (Some {| produced := yielded st; returned := None |})
    else
      match jobs st with
      | [] =>
          samples <- get_sample_jobs role location ;;
          ret (Some {| produced := yielded st; returned := Some samples |})
      | _ => ret (Some {| produced := yielded st; returned := Some (jobs st) |})
      end in
  match fst r with
  | Running => ret None
  | Finished => after_loop st
  | Crashed e =>
      if stream_jobs then
        samples <- get_sample_jobs role location ;;
        after_loop (yield_from samples st)
      else
        match jobs st with
        | [] =>
            samples <- get_sample_jobs role location ;;
            ret (Some {| produced := yielded st; returned := Some samples |})
        | _ => ret (Some {| produced := yielded st; returned := Some (jobs st) |})
        end
  end.

End Search.

End WithEnv.

End JobScraper.

(* ===================================================================== *)
(** * main.py: the ranked state of [JobProcessor] *)
(* ===================================================================== *)

Module Main.
Import Py Effects MatchingEngine.

(** The fields of a [JobProcessor] that [handle_analyzed_job] touches,
    and [st.session_state.top_matches]. *)
Record State : Type := {
  analyzed_jobs : list Job;
  search_count : Z;
  analysis_count : Z;
  top_matches : list Job
}.

(** [JobProcessor.__init__], with the session state as the search
    button leaves it. *)
Definition init : State :=
  {| analyzed_jobs := []; search_count := 0; analysis_count := 0;
     top_matches := [] |}.

(** [bool(v)] *)
Definition truthy (v : value) : bool :=
  match v with
  | VStr EmptyString => false
  | VStr _ => true
  | VInt z => negb (z =? 0)%Z
  | VNone => false
  end.

(** One round of the [for] loop of [display_live_results]: the
    subscripts of the posting in the order they are evaluated.  The
    Streamlit calls they feed are not modelled. *)
Definition show_posting (job : Job) : Result unit :=
  bindR (getitem job "title") (fun _ =>
  bindR (getitem job "company") (fun _ =>
  bindR (getitem job "match_score") (fun _ =>
  bindR (getitem job "company") (fun _ =>
  bindR (getitem job "location") (fun _ =>
  bindR (getitem job "posted_date") (fun _ =>
  bindR (getitem job "url") (fun url =>
  bindR (if truthy url then getitem job "url" else Ok url) (fun _ =>
  bindR (getitem job "match_score") (fun _ =>
  bindR (getitem job "match_reasoning") (fun _ => Ok tt)))))))))).

Fixpoint show_each (top_matches : list Job) : Result unit :=
  match top_matches with
  | [] => Ok tt
  | job :: rest => bindR (show_posting job) (fun _ => show_each rest)
  end.

(** [JobProcessor.display_live_results] *)
Definition display_live_results (top_matches : list Job) : Result unit :=
  match top_matches with
  | [] => Ok tt
  | _ => show_each top_matches
  end.

(** [JobProcessor.handle_analyzed_job]: the state after the call and
    whether it raised.  The append and the counter are done before the
    sort; after the update of [top_matches] the method calls
    [progress_mgr.update_analysis], which only renders the counter
    (Streamlit calls, not modelled), and ends with
    [display_live_results], whose subscripts raise [KeyError] on a
    posting of the buffer that lacks a field. *)
Definition handle_analyzed_job (st : State) (job_with_match : Job)
  : Result unit * State :=
  let jobs := (analyzed_jobs st ++ [job_with_match])%list in
  let count := analysis_count st + 1 in
  match sorted_reverse match_score_key jobs with
  | Ok sorted_jobs =>
      let st' := {| analyzed_jobs := jobs; search_count := search_count st;
                    analysis_count := count;
                    top_matches := firstn 5 sorted_jobs |} in
      (display_live_results (top_matches st'), st')
  | Raise e =>
      (Raise e, {| analyzed_jobs := jobs; search_count := search_count st;
                   analysis_count := count;
                   top_matches := top_matches st |})
  end.

(** The calls of [handle_analyzed_job] a search makes, one per scored
    posting, as long as none raises. *)
Fixpoint handle_all (st : State) (arrivals : list Job) : Result unit * State :=
  match arrivals with
  | [] => (Ok tt, st)
  | job :: rest =>
      match handle_analyzed_job st job with
      | (Ok _, st') => handle_all st' rest
      | (Raise e, st') => (Raise e, st')
      end
  end.

End Main.

(* ===================================================================== *)
(** * resume_processor.py *)
(* ===================================================================== *)

Module ResumeProcessor.
Import Py.

(** What PyPDF2 makes of the upload:
    [PdfReader(BytesIO(uploaded_file.read()))] raises or gives the
    pages, and [page.extract_text()] raises or gives the text of the
    page.  Characters are code points below 256, as everywhere in this
    development. *)
Definition Pdf : Type := Result (list (Result string)).

(** [text.replace('\n\n', '\n')]: one pass from the left, the
    occurrences replaced do not overlap. *)
Fixpoint replace_blank_lines (text : string) : string :=
  match text with
  | EmptyString => EmptyString
  | String c rest =>
      match rest with
      | String d rest' =>
          if Ascii.eqb c PyStr.newline && Ascii.eqb d PyStr.newline
          then String PyStr.newline (replace_blank_lines rest')
          else String c (replace_blank_lines rest)
      | EmptyString => String c EmptyString
      end
  end.

(** The [for] loop: [text += page.extract_text() + "\n"]. *)
Fixpoint read_pages (text : string) (pages : list (Result string)) : Result string :=
  match pages with
  | [] => Ok text
  | page :: rest =>
      bindR page (fun page_text => read_pages (text +:+ (page_text +:+ PyStr.nl)) rest)
  end.

(** [extract_resume_text(uploaded_file)] *)
Definition extract_resume_text (uploaded_file : Pdf) : Result string :=
  match bindR uploaded_file (fun pages =>
        bindR (read_pages EmptyString pages) (fun text =>
        Ok (PyStr.strip (replace_blank_lines text)))) with
  | Ok text => Ok text
  | Raise e => Raise (Exception ("Error processing resume: " +:+ str_exn e))
  end.

End ResumeProcessor.

(* ===================================================================== *)
(** * What the theorems speak of *)
(* ===================================================================== *)

Module Spec.
Import Py ScoreParsing Effects MatchingEngine Retries JobScraper Main.

(** The parsing rule in the words of the specification: the response is
    [left|right] with no bar in [left]; the digits of [left] are not
    empty and read as [score], a number of 0..100; [reasoning] is
    [right] trimmed and is not empty. *)
Definition spec_parses (response : string) (score : Z) (reasoning : string) : Prop :=
  exists left right,
    response = left +:+ String "|" right /\
    PyStr.has_char "|" left = false /\
    PyStr.filter_chars PyStr.isdigit left <> EmptyString /\
    PyStr.int (PyStr.filter_chars PyStr.isdigit left) = Some score /\
    (0 <= score <= 100)%Z /\
    reasoning = PyStr.strip right /\
    reasoning <> EmptyString.

Definition error_posting (job : Job) (e : exn) : Job :=
  with_match job 0 ("Error during analysis: " +:+ str_exn e).

Definition parse_error_posting (job : Job) : Job :=
  with_match job 0 "Error parsing analysis results".

Definition rate_limit_exceeded : exn :=
  Exception "Rate limit exceeded after 5 retries".

Definition is_rate_limit_signal {A} (r : Result A) : Prop :=
  match r with
  | Raise (RateLimitError _) => True
  | _ => False
  end.

Definition is_rate_limit (e : exn) : bool :=
  match e with
  | RateLimitError _ => true
  | _ => false
  end.

Section Scoring.
Context (env : Env) (resume_text : string) (job : Job).

(** The five ways one call of [analyze_job_match] goes. *)
Inductive scoring_step (retry_count : Z) (w : World) : Prop :=
| Unprepared (e : exn) (w1 : World) :
    prepare_prompt env resume_text job w = (Raise e, w1) ->
    analyze_job_match env resume_text job retry_count w
    = (Ok (error_posting job e), w1) ->
    scoring_step retry_count w
| Answered (prompt : string) (w1 : World) (content : list string) :
    prepare_prompt env resume_text job w = (Ok prompt, w1) ->
    messages_create env (api_calls w1) prompt = Ok content ->
    (exists out,
        analyze_job_match env resume_text job retry_count w
        = (Ok out, snd (sleep 5 (snd (client_messages_create env prompt w1)))) /\
        match response_text_of content with
        | Raise e => out = error_posting job e
        | Ok response_text =>
            match parse_response response_text with
            | Ok (score, reasoning) => out = with_match job score reasoning
            | Raise _ => out = parse_error_posting job
            end
        end) ->
    scoring_step retry_count w
| Failed (prompt : string) (w1 : World) (e : exn) :
    prepare_prompt env resume_text job w = (Ok prompt, w1) ->
    messages_create env (api_calls w1) prompt = Raise e ->
    is_rate_limit e = false ->
    analyze_job_match env resume_text job retry_count w
    = (Ok (error_posting job e), snd (client_messages_create env prompt w1)) ->
    scoring_step retry_count w
| Exhausted (prompt : string) (w1 : World) (msg : string) :
    prepare_prompt env resume_text job w = (Ok prompt, w1) ->
    messages_create env (api_calls w1) prompt = Raise (RateLimitError msg) ->
    ~ (retry_count < max_retries)%Z ->
    analyze_job_match env resume_text job retry_count w
    = (Ok (error_posting job rate_limit_exceeded),
       snd (client_messages_create env prompt w1)) ->
    scoring_step retry_count w
| Retried (prompt : string) (w1 : World) (msg : string) :
    prepare_prompt env resume_text job w = (Ok prompt, w1) ->
    messages_create env (api_calls w1) prompt = Raise (RateLimitError msg) ->
    (retry_count < max_retries)%Z ->
    analyze_job_match env resume_text job retry_count w
    = analyze_job_match env resume_text job (retry_count + 1)
        (snd (wait_with_backoff env (retry_count + 1)
                (snd (client_messages_create env prompt w1)))) ->
    scoring_step retry_count w.

End Scoring.

Section Sorting.
Context {A : Type} (key : A -> value).

(** The number a key stands for, when it is an integer. *)
Definition int_key (a : A) : Z :=
  match key a with
  | VInt z => z
  | _ => 0
  end.

Definition has_int_key (a : A) : Prop := exists z, key a = VInt z.

Definition descending (a b : A) : Prop := (int_key b <= int_key a)%Z.

(** The elements of a list whose key is [z], in the order of the list. *)
Definition with_key (z : Z) (l : list A) : list A :=
  List.filter (fun a => (int_key a =? z)%Z) l.

(** [out] is the stable descending sort of [l]. *)
Definition stable_sort_of (l out : list A) : Prop :=
  Permutation l out /\
  StronglySorted descending out /\
  forall z, with_key z out = with_key z l.

End Sorting.

Abbreviation scored := (has_int_key match_score_key).
Abbreviation score := (int_key match_score_key).

(** A ScoredPosting as far as the ranked view reads it: [match_score]
    is an integer and the other fields the live display subscripts are
    present. *)
Definition scored_posting (job : Job) : Prop :=
  (exists s, job !! "match_score" = Some (VInt s)) /\
  Forall (fun key => is_Some (job !! key))
    ["title"; "company"; "location"; "posted_date"; "url"; "match_reasoning"].

(** [out] is [job] with the two scoring fields set. *)
Definition extends (job out : Job) : Prop :=
  exists score reasoning, out = with_match job score reasoning.

(** The reading of C2 in which one text serves every failure of a kind:
    a fixed [reasoning] that every posting carries whose request failed
    with an exception other than the rate-limit signal. *)
Definition fixed_failure_reasoning (reasoning : string) : Prop :=
  forall (env : Env) (resume_text : string) (job : Job) (w w1 : World)
         (prompt : string) (e : exn),
    prepare_prompt env resume_text job w = (Ok prompt, w1) ->
    messages_create env (api_calls w1) prompt = Raise e ->
    is_rate_limit e = false ->
    exists out,
      fst (analyze_job_match env resume_text job 0 w) = Ok out /\
      out !! "match_reasoning" = Some (VStr reasoning).

(** [s] occurs in [t] as a contiguous piece. *)
Definition occurs_in (s t : string) : Prop :=
  exists before after, t = before +:+ s +:+ after.

(** The invariant of a filter set: its entries are lowercase text, as
    [parse_company_list] produces them. *)
Definition lowercase_entries (companies : gset string) : Prop :=
  forall entry, entry ∈ companies -> PyStr.lower entry = entry.

(** [description] was read off the page [soup]: it is the trimmed text
    of the first [div] of the first selector class that occurs in the
    page or, when no selector class occurs, of the first [div] or
    [section] whose text mentions the first keyword phrase that is
    mentioned at all. *)
Definition extracted_from (soup : list node) (description : string) : Prop :=
  (exists before selector after elem,
      description_selectors = (before ++ selector :: after)%list /\
      Forall (fun c => select_one_div c soup = None) before /\
      select_one_div selector soup = Some elem /\
      description = PyStr.strip (text elem)) \/
  (Forall (fun c => select_one_div c soup = None) description_selectors /\
   exists before keyword after elem,
     description_keywords = (before ++ keyword :: after)%list /\
     Forall (fun k => head (List.filter (mentions k) (flat_map elements_of soup)) = None)
       before /\
     head (List.filter (mentions keyword) (flat_map elements_of soup)) = Some elem /\
     description = PyStr.strip (text elem)).

Definition titles_of (jobs : list Job) : list (option value) :=
  map (fun job : Job => job !! "title") jobs.

Definition is_request_exception (e : exn) : bool :=
  match e with
  | RequestException _ => true
  | _ => false
  end.

(** The titles of the postings a finished run of the generator yielded. *)
Definition yielded_titles (run : Result (option Generated) * World)
  : list (option value) :=
  match fst run with
  | Ok (Some generated) => titles_of (produced generated)
  | _ => []
  end.

(** Postings are only yielded after [filtered_count] was incremented. *)
Definition counted (st : Locals) : Prop :=
  (0 <= filtered_count st)%Z /\ (yielded st <> [] -> 0 < filtered_count st)%Z.

End Spec.

(* ===================================================================== *)
(** * Sample inputs *)
(* ===================================================================== *)

Module Samples.
Import Py Effects.

(** A world in which the LLM client answers every request with
    [reply], every page request fails to parse, and every random draw
    is one half. *)
Definition env_with (reply : Result (list string)) : Env :=
  {| messages_create := fun _ _ => reply;
     random := fun _ => 1 # 2;
     getenv := fun _ => Some "secret";
     new_client := fun _ => Ok tt;
     search_get := fun _ _ => Raise (Exception "parser failure");
     detail_get := fun _ _ => Raise (RequestException "timeout");
     now := fun _ => 1700000000;
     strftime := fun t => pretty t;
     fromisoformat := fun _ => None |}.

Definition env_limited : Env := env_with (Raise (RateLimitError "429")).

Definition env_failing (msg : string) : Env := env_with (Raise (Exception msg)).

Definition env_answering (response_text : string) : Env :=
  env_with (Ok [response_text]).

Definition posting (title : string) : Job :=
  <["title" := VStr title]>
  (<["company" := VStr "Acme"]>
   (<["location" := VStr "Remote"]>
    (<["description" := VStr "Build things."]>
     (<["posted_date" := VStr "2024-01-01 00:00:00"]>
      (<["url" := VNone]> ∅))))).

(** A site with one page of results: a card of "Initech" with no link
    and a card of "Globex" that lacks its title; later pages are empty.
    The posting pages hold a description block. *)
Definition card (title company : option string) : node :=
  Elem "div" ["base-card"] []
    (match title with
     | Some t => [Elem "h3" ["base-search-card__title"] [] [Text t]]
     | None => []
     end ++
     match company with
     | Some c => [Elem "h4" ["base-search-card__subtitle"] [] [Text c]]
     | None => []
     end).

Definition env_site : Env :=
  {| messages_create := fun _ _ => Ok ["85|Strong fit, leadership"];
     random := fun _ => 1 # 2;
     getenv := fun _ => Some "secret";
     new_client := fun _ => Ok tt;
     search_get := fun n _ =>
       match n with
       | O => Ok [Elem "ul" [] []
                    [card (Some " Engineer ") (Some "Initech");
                     card None (Some "Globex")]]
       | _ => Ok []
       end;
     detail_get := fun _ _ =>
       Ok [Elem "div" ["show-more-less-html__markup"] []
             [Text "  Build "; Elem "b" [] [] [Text "things"]; Text ".  "]];
     now := fun _ => 1700000000;
     strftime := fun t => pretty t;
     fromisoformat := fun _ => None |}.

End Samples.

(* ===================================================================== *)
(** * What the further theorems speak of *)
(* ===================================================================== *)

Module Props.
Import Py ScoreParsing Effects MatchingEngine Retries JobScraper Main Spec.

(** [out] is [job] with a score of 0..100 and a reasoning that is not
    empty. *)
Definition well_scored (job out : Job) : Prop :=
  exists score reasoning,
    out = with_match job score reasoning /\
    (0 <= score <= 100)%Z /\ reasoning <> EmptyString.

(** The posting [analyze_matches] falls back to. *)
Definition analysis_failed (job : Job) : Job :=
  with_match job 0 "Analysis failed".

(** The world after the pause of 5 to 10 seconds that precedes a request. *)
Definition throttled (env : Env) (w : World) : World :=
  snd (bind (uniform env 5 10) sleep w).

(** Every draw of the random number generator lies in [0, 1]. *)
Definition unit_draws (env : Env) : Prop :=
  forall n, (0 <= random env n)%Q /\ (random env n <= 1)%Q.

(** The entry is present and holds text. *)
Definition is_text (entry : option value) : Prop :=
  exists s, entry = Some (VStr s).

(** A posting as the scraper builds it: five text fields and a [url]
    that is text or [None]. *)
Definition well_formed (job : Job) : Prop :=
  is_text (job !! "title") /\ is_text (job !! "company") /\
  is_text (job !! "location") /\ is_text (job !! "description") /\
  is_text (job !! "posted_date") /\
  (job !! "url" = Some VNone \/ is_text (job !! "url")).

(** The company of the posting is accepted by the filters. *)
Definition passes (included excluded : gset string) (job : Job) : Prop :=
  exists company,
    job !! "company" = Some (VStr company) /\
    should_include_company company included excluded = true.

(** The five postings of [get_sample_jobs]. *)
Definition sample_set (role : string) (samples : list Job) : Prop :=
  titles_of samples = map (fun t => Some (VStr t)) (job_titles role) /\
  map (fun job : Job => job !! "company") samples
  = map (fun c => Some (VStr c)) companies /\
  Forall well_formed samples.

(** What the search loop has handed over so far, by either route. *)
Definition collected (st : Locals) : nat :=
  (length (yielded st) + length (jobs st))%nat.

(** What holds of the locals of [scrape_linkedin_jobs] whenever the
    loop is left: everything handed over is a well-formed posting of an
    accepted company, was counted, and the count of postings handed
    over does not pass [max_jobs]; one of the two routes stays empty,
    and without a callback every counted posting was handed over. *)
Definition search_result (progress_callback : option (Z -> M unit))
    (stream_jobs : bool) (included excluded : gset string) (st : Locals) : Prop :=
  Forall (fun job => well_formed job /\ passes included excluded job) (yielded st) /\
  Forall (fun job => well_formed job /\ passes included excluded job) (jobs st) /\
  (Z.of_nat (collected st) <= filtered_count st)%Z /\
  (Z.of_nat (collected st) <= max_jobs)%Z /\
  (if stream_jobs then jobs st = [] else yielded st = []) /\
  (progress_callback = None -> filtered_count st = Z.of_nat (collected st)).

(** The same while the loop goes on: the limit is not reached yet. *)
Definition search_going (progress_callback : option (Z -> M unit))
    (stream_jobs : bool) (included excluded : gset string) (st : Locals) : Prop :=
  search_result progress_callback stream_jobs included excluded st /\
  (Z.of_nat (collected st) < max_jobs)%Z.

(** A site that cannot be reached: every search request fails with a
    transport error. *)
Definition unreachable_site (env : Env) : Prop :=
  forall n req, exists msg, search_get env n req = Raise (RequestException msg).

(** The seconds a list of pauses adds up to. *)
Definition total (pauses : list Q) : Q := fold_right Qplus 0%Q pauses.

(** The characters of a text that are not whitespace, in order. *)
Definition visible (s : string) : string :=
  PyStr.filter_chars (fun c => negb (PyStr.isspace c)) s.

(** The texts one after the other. *)
Definition join (texts : list string) : string :=
  fold_right append EmptyString texts.

(** A world whose API is rate limited for its first [n] requests and
    answers the later ones. *)
Definition env_limited_until (n : nat) : Env :=
  {| messages_create := fun k _ =>
       if (k <? n)%nat then Raise (RateLimitError "429")
       else Ok ["85|Strong fit, leadership"];
     random := fun _ => 1 # 2;
     getenv := fun _ => Some "secret";
     new_client := fun _ => Ok tt;
     search_get := fun _ _ => Raise (Exception "parser failure");
     detail_get := fun _ _ => Raise (RequestException "timeout");
     now := fun _ => 1700000000;
     strftime := fun t => pretty t;
     fromisoformat := fun _ => None |}.

(** A world whose search requests all end alike. *)
Definition env_searching (page : Result (list node)) : Env :=
  {| messages_create := fun _ _ => Ok ["85|Strong fit, leadership"];
     random := fun _ => 1 # 2;
     getenv := fun _ => Some "secret";
     new_client := fun _ => Ok tt;
     search_get := fun _ _ => page;
     detail_get := fun _ _ => Raise (RequestException "timeout");
     now := fun _ => 1700000000;
     strftime := fun t => pretty t;
     fromisoformat := fun _ => None |}.

End Props.

(* ===================================================================== *)
(** * main.py: the loop of [process_jobs] *)
(* ===================================================================== *)

Module ProcessJobs.
Import Py Effects MatchingEngine Main Props.

(** [self.search_count += 1] *)
Definition count_search (st : State) : State :=
  {| analyzed_jobs := analyzed_jobs st; search_count := search_count st + 1;
     analysis_count := analysis_count st; top_matches := top_matches st |}.

(** [l[0]] *)
Definition first_item {A} (l : list A) : Result A :=
  match l with
  | x :: _ => Ok x
  | [] => Raise (IndexError "list index out of range")
  end.

Section WithEnv.
Context (env : Env) (resume_text : string).

(** The body of the [for] loop of [process_jobs] for one posting the
    generator yields: the count, the scoring of the posting as a batch of
    one, and [handle_analyzed_job] with the display of the buffer at its
    end.  An exception leaves the loop (and [process_jobs], which then
    returns the empty list). *)
Definition process_job (st : State) (job : Job) (w : World)
  : Result unit * State * World :=
  if bool_decide (job = ∅) then (Ok tt, st, w)
  else
    let st := count_search st in
    match analyze_matches env resume_text [job] None w with
    | (Raise e, w') => (Raise e, st, w')
    | (Ok matched, w') =>
        match first_item matched with
        | Raise e => (Raise e, st, w')
        | Ok analyzed_job =>
            match handle_analyzed_job st analyzed_job with
            | (r, st') => (r, st', w')
            end
        end
    end.

(** The states of the processor during a search: the fresh processor,
    and what the loop body makes of a state and a posting of the shape
    the generator yields.  The world each round starts in is left open,
    as the generator runs between the rounds. *)
Inductive reachable : State -> Prop :=
| reachable_init : reachable init
| reachable_next (st : State) (job : Job) (w : World) :
    reachable st -> well_formed job ->
    reachable (snd (fst (process_job st job w))).

End WithEnv.

End ProcessJobs.

(* ===================================================================== *)
(** * Theorems *)
(* ===================================================================== *)

Import Py ScoreParsing Effects MatchingEngine Retries JobScraper Main ResumeProcessor
  Spec Samples Props ProcessJobs.


(** ** Strings *)

Section StringFacts.
Import PyStr.

Lemma split1_first (sep : ascii) (s : string) :
  has_char sep s = true ->
  exists l r, split1 sep s = [l; r] /\ s = l +:+ String sep r
              /\ has_char sep l = false.
Proof.
  induction s as [|c s IH]; simpl; [discriminate|].
  destruct (Ascii.eqb c sep) eqn:E.
  - intros _. apply Ascii.eqb_eq in E. subst c.
    exists EmptyString, s. repeat split.
  - simpl. intros H. destruct (IH H) as (l & r & Hs & Heq & Hl).
    exists (String c l), r. rewrite Hs. simpl. rewrite E, Hl.
    repeat split. now rewrite Heq.
Qed.

Lemma split1_absent (sep : ascii) (s : string) :
  has_char sep s = false -> split1 sep s = [s].
Proof.
  induction s as [|c s IH]; simpl; [reflexivity|].
  destruct (Ascii.eqb c sep); simpl; [discriminate|].
  intros H. now rewrite (IH H).
Qed.

Lemma has_char_app_first (sep : ascii) (l r : string) :
  has_char sep (l +:+ String sep r) = true.
Proof.
  induction l as [|c l IH]; simpl.
  - now rewrite Ascii.eqb_refl.
  - rewrite IH. apply orb_true_r.
Qed.

Lemma split1_app (sep : ascii) (l r : string) :
  has_char sep l = false -> split1 sep (l +:+ String sep r) = [l; r].
Proof.
  induction l as [|c l IH]; simpl.
  - now rewrite Ascii.eqb_refl.
  - destruct (Ascii.eqb c sep); simpl; [discriminate|].
    intros H. now rewrite (IH H).
Qed.

End StringFacts.

(** ** Response parsing *)


Lemma parse_response_sound (response : string) (score : Z) (reasoning : string) :
  parse_response response = Ok (score, reasoning) ->
  spec_parses response score reasoning.
Proof.
  unfold parse_response.
  destruct (PyStr.has_char "|" response) eqn:Hbar; simpl; [|discriminate].
  destruct (split1_first _ _ Hbar) as (l & r & Hsplit & Heq & Hl).
  rewrite Hsplit.
  destruct (PyStr.filter_chars PyStr.isdigit l) eqn:Hd; [discriminate|].
  rewrite <- Hd.
  destruct (PyStr.int (PyStr.filter_chars PyStr.isdigit l)) as [n|] eqn:Hint;
    [|discriminate].
  destruct ((n <? 0)%Z || (n >? 100)%Z) eqn:Hrange; [discriminate|].
  destruct (PyStr.strip r) eqn:Hstrip; [discriminate|].
  intros [= <- <-].
  exists l, r. rewrite Hd. repeat split; try congruence; try discriminate.
  all: apply orb_false_iff in Hrange; destruct Hrange; lia.
Qed.

(** The converse, in the model (where [int] has no limit on the number
    of digits): a response of the specified shape is accepted. *)
Lemma parse_response_complete (response : string) (score : Z) (reasoning : string) :
  spec_parses response score reasoning ->
  parse_response response = Ok (score, reasoning).
Proof.
  intros (l & r & -> & Hl & Hd & Hint & Hrange & -> & Hne).
  unfold parse_response.
  rewrite has_char_app_first. simpl. rewrite (split1_app _ _ _ Hl).
  destruct (PyStr.filter_chars PyStr.isdigit l) eqn:E; [congruence|].
  rewrite Hint.
  replace ((score <? 0)%Z || (score >? 100)%Z) with false
    by (symmetry; apply orb_false_iff; split; lia).
  destruct (PyStr.strip r); [congruence|reflexivity].
Qed.

(** C1: a response is accepted only if it is [left|right], split at the
    first bar, where the digits of [left] exist and read as an integer of
    0..100 and [right], trimmed, is not empty; the result then carries
    that score and the trimmed reasoning.  The four responses of the
    specification behave as it says. *)
Theorem C1_parse_response (response : string) (score : Z) (reasoning : string) :
  (parse_response response = Ok (score, reasoning) ->
   spec_parses response score reasoning) /\
  parse_response "85|Strong fit, leadership"
    = Ok (85%Z, "Strong fit, leadership") /\
  parse_response "abc|reason" = Raise (ValueError "No digits found in score part") /\
  parse_response "150|reason"
    = Raise (ValueError "Score 150 is outside valid range 0-100") /\
  parse_response "70|" = Raise (ValueError "Empty reasoning").
Proof.
  split; [apply parse_response_sound|].
  repeat split; reflexivity.
Qed.

Lemma C1_parse_response_witness :
  spec_parses "85|Strong fit, leadership" 85 "Strong fit, leadership".
Proof.
  apply (proj1 (C1_parse_response "85|Strong fit, leadership" 85
                  "Strong fit, leadership")).
  reflexivity.
Defined.

(** ** The match scorer *)

Ltac run_monad :=
  unfold try_except, bind, ret, raise, lift in *; simpl in *.

Section Scorer.
Context (env : Env) (resume_text : string) (job : Job).

Lemma analyze_job_match_returns (retry_count : Z) (w : World) :
  exists out w', analyze_job_match env resume_text job retry_count w = (Ok out, w').
Proof.
  rewrite analyze_job_match_equation_1. unfold try_except at 1.
  match goal with |- context [match ?b with _ => _ end] => destruct b as [[out|e] w'] end;
    eauto.
Qed.

(** The scorer gives up before the request. *)
Lemma analyze_job_match_unprepared (retry_count : Z) (w w1 : World) (e : exn) :
  prepare_prompt env resume_text job w = (Raise e, w1) ->
  analyze_job_match env resume_text job retry_count w = (Ok (error_posting job e), w1).
Proof.
  intros Hp. rewrite analyze_job_match_equation_1.
  unfold try_except at 1. unfold bind at 1. now rewrite Hp.
Qed.

Section Requested.
Context (retry_count : Z) (w w1 : World) (prompt : string).
Hypothesis Hprepared : prepare_prompt env resume_text job w = (Ok prompt, w1).

Let w2 := snd (client_messages_create env prompt w1).

Lemma analyze_job_match_answered (content : list string) :
  messages_create env (api_calls w1) prompt = Ok content ->
  analyze_job_match env resume_text job retry_count w
  = match response_text_of content with
    | Raise e => (Ok (error_posting job e), snd (sleep 5 w2))
    | Ok response_text =>
        match parse_response response_text with
        | Ok (score, reasoning) =>
            (Ok (with_match job score reasoning), snd (sleep 5 w2))
        | Raise _ => (Ok (parse_error_posting job), snd (sleep 5 w2))
        end
    end.
Proof.
  intros Hc. rewrite analyze_job_match_equation_1.
  unfold try_except at 1. unfold bind at 1. rewrite Hprepared.
  unfold bind at 1. unfold try_except at 1. unfold bind at 1.
  unfold client_messages_create at 1. rewrite Hc.
  subst w2. unfold client_messages_create. simpl.
  unfold read_response. run_monad.
  destruct (response_text_of content) as [t|e]; [|reflexivity].
  destruct (parse_response t) as [[score reasoning]|e]; reflexivity.
Qed.

Lemma analyze_job_match_failed (e : exn) :
  messages_create env (api_calls w1) prompt = Raise e ->
  is_rate_limit e = false ->
  analyze_job_match env resume_text job retry_count w
  = (Ok (error_posting job e), w2).
Proof.
  intros Hc He. rewrite analyze_job_match_equation_1.
  unfold try_except at 1. unfold bind at 1. rewrite Hprepared.
  unfold bind at 1. unfold try_except at 1. unfold bind at 1.
  unfold client_messages_create at 1. rewrite Hc.
  subst w2. unfold client_messages_create.
  destruct e; try discriminate; reflexivity.
Qed.

Lemma analyze_job_match_exhausted (msg : string) :
  messages_create env (api_calls w1) prompt = Raise (RateLimitError msg) ->
  ~ (retry_count < max_retries)%Z ->
  analyze_job_match env resume_text job retry_count w
  = (Ok (error_posting job rate_limit_exceeded), w2).
Proof.
  intros Hc Hrc. rewrite analyze_job_match_equation_1.
  unfold try_except at 1. unfold bind at 1. rewrite Hprepared.
  unfold bind at 1. unfold try_except at 1. unfold bind at 1.
  unfold client_messages_create at 1. rewrite Hc.
  subst w2. unfold client_messages_create.
  destruct (Z_lt_dec retry_count max_retries); [contradiction|reflexivity].
Qed.

(** The retry: the counter is incremented, the wait uses the
    incremented counter, and the result is that of the recursive
    call. *)
Lemma analyze_job_match_retries (msg : string) :
  messages_create env (api_calls w1) prompt = Raise (RateLimitError msg) ->
  (retry_count < max_retries)%Z ->
  analyze_job_match env resume_text job retry_count w
  = analyze_job_match env resume_text job (retry_count + 1)
      (snd (wait_with_backoff env (retry_count + 1) w2)).
Proof.
  intros Hc Hrc. rewrite analyze_job_match_equation_1.
  unfold try_except at 1. unfold bind at 1. rewrite Hprepared.
  unfold bind at 1. unfold try_except at 1. unfold bind at 1.
  unfold client_messages_create at 1. rewrite Hc.
  subst w2. unfold client_messages_create.
  destruct (Z_lt_dec retry_count max_retries); [|contradiction].
  cbv zeta. unfold bind at 1.
  destruct (wait_with_backoff env (retry_count + 1) _) as [[[]|e] w3] eqn:Hw.
  - simpl. unfold bind at 1.
    destruct (analyze_job_match_returns (retry_count + 1) w3) as (out & w' & Hr).
    rewrite Hr. reflexivity.
  - exfalso. revert Hw. unfold wait_with_backoff, uniform, sleep, random_random.
    run_monad. discriminate.
Qed.

End Requested.

Lemma analyze_job_match_step (retry_count : Z) (w : World) :
  scoring_step env resume_text job retry_count w.
Proof.
  destruct (prepare_prompt env resume_text job w) as [[prompt|e] w1] eqn:Hp.
  - destruct (messages_create env (api_calls w1) prompt) as [content|e] eqn:Hc.
    + eapply Answered; eauto.
      rewrite (analyze_job_match_answered _ _ _ _ Hp _ Hc).
      destruct (response_text_of content) as [t|e]; [|eauto].
      destruct (parse_response t) as [[score reasoning]|e]; eauto.
    + destruct (is_rate_limit e) eqn:He.
      * destruct e; try discriminate.
        destruct (Z_lt_dec retry_count max_retries).
        -- eapply Retried; eauto using analyze_job_match_retries.
        -- eapply Exhausted; eauto using analyze_job_match_exhausted.
      * eapply Failed; eauto using analyze_job_match_failed.
  - eapply Unprepared; eauto using analyze_job_match_unprepared.
Qed.

(** Whether the request can be prepared, and the prompt, depend on the
    posting alone. *)
Lemma prepare_prompt_pure (w w' : World) :
  fst (prepare_prompt env resume_text job w)
  = fst (prepare_prompt env resume_text job w').
Proof.
  unfold prepare_prompt, getitem, uniform, random_random, sleep. run_monad.
  destruct (job !! "title"); [|reflexivity].
  destruct (job !! "company"); [|reflexivity]. simpl.
  destruct (job !! "description") as [d|]; [|reflexivity].
  destruct (len d); [|reflexivity].
  match goal with |- context [(?n >? 200)%Z] => destruct (n >? 200)%Z end;
    [destruct (slice200 d)|]; reflexivity.
Qed.

Lemma prepare_prompt_api_calls (w : World) :
  api_calls (snd (prepare_prompt env resume_text job w)) = api_calls w.
Proof.
  unfold prepare_prompt, getitem, uniform, random_random, sleep. run_monad.
  destruct (job !! "title"); [|reflexivity].
  destruct (job !! "company"); [|reflexivity]. simpl.
  destruct (job !! "description") as [d|]; [|reflexivity].
  destruct (len d); [|reflexivity].
  match goal with |- context [(?n >? 200)%Z] => destruct (n >? 200)%Z end;
    [destruct (slice200 d)|]; reflexivity.
Qed.

(** Induction along the retries. *)
Lemma retry_induction (P : Z -> World -> Prop) :
  (forall retry_count w,
      (forall w', (retry_count < max_retries)%Z -> P (retry_count + 1) w') ->
      P retry_count w) ->
  forall retry_count w, P retry_count w.
Proof.
  intros Hstep retry_count.
  remember (Z.to_nat (max_retries - retry_count)) as k eqn:Hk.
  revert retry_count Hk. induction k as [|k IH]; intros retry_count Hk w.
  - apply Hstep. intros w' Hlt. lia.
  - apply Hstep. intros w' Hlt. apply IH. lia.
Qed.

(** Every result is the posting with the two scoring fields set. *)
Lemma analyze_job_match_extends (retry_count : Z) (w : World) :
  exists score reasoning w',
    analyze_job_match env resume_text job retry_count w
    = (Ok (with_match job score reasoning), w').
Proof.
  revert retry_count w. apply retry_induction. intros retry_count w IH.
  destruct (analyze_job_match_step retry_count w)
    as [e w1 _ Hr|prompt w1 content _ _ (out & Hr & Hout)|prompt w1 e _ _ _ Hr
        |prompt w1 msg _ _ _ Hr|prompt w1 msg _ _ Hlt Hr];
    rewrite Hr; unfold error_posting; eauto.
  destruct (response_text_of content) as [t|e]; [|subst; unfold error_posting; eauto].
  destruct (parse_response t) as [[score reasoning]|e]; subst;
    unfold parse_error_posting; eauto.
Qed.

(** When the API only ever signals the rate limit, the retries run out. *)
Lemma analyze_job_match_always_limited (retry_count : Z) (w : World) :
  (forall n prompt, is_rate_limit_signal (messages_create env n prompt)) ->
  (exists prompt, fst (prepare_prompt env resume_text job w) = Ok prompt) ->
  fst (analyze_job_match env resume_text job retry_count w)
  = Ok (error_posting job rate_limit_exceeded).
Proof.
  intros Hlimited. revert retry_count w.
  apply (retry_induction
           (fun retry_count w =>
              (exists prompt, fst (prepare_prompt env resume_text job w) = Ok prompt) ->
              fst (analyze_job_match env resume_text job retry_count w)
              = Ok (error_posting job rate_limit_exceeded))).
  intros retry_count w IH [prompt0 Hprep].
  destruct (analyze_job_match_step retry_count w)
    as [e w1 Hp Hr|prompt w1 content Hp Hc _|prompt w1 e Hp Hc He Hr
        |prompt w1 msg Hp Hc Hlt Hr|prompt w1 msg Hp Hc Hlt Hr].
  - rewrite Hp in Hprep. discriminate.
  - specialize (Hlimited (api_calls w1) prompt). rewrite Hc in Hlimited.
    contradiction.
  - specialize (Hlimited (api_calls w1) prompt). rewrite Hc in Hlimited.
    destruct e; try contradiction. discriminate.
  - now rewrite Hr.
  - rewrite Hr. apply IH; [assumption|].
    exists prompt0. now rewrite (prepare_prompt_pure _ w).
Qed.

End Scorer.

(** ** Sorting by an integer key *)

Section SortFacts.
Context {A : Type} (key : A -> value).


Lemma less_than_int (a b : A) :
  has_int_key key a -> has_int_key key b ->
  less_than (key a) (key b) = Ok (int_key key a <? int_key key b)%Z.
Proof.
  intros [x Hx] [y Hy]. unfold int_key. now rewrite Hx, Hy.
Qed.

Lemma insert_desc_spec (x : A) (l : list A) :
  has_int_key key x -> Forall (has_int_key key) l -> StronglySorted (descending key) l ->
  exists r, insert_desc key x l = Ok r /\ stable_sort_of key (x :: l) r.
Proof.
  intros Hx Hl Hs. induction l as [|y l IH].
  - exists [x]. repeat split; auto.
    repeat constructor.
  - inversion Hl as [|? ? Hy Hl']; subst.
    inversion Hs as [|? ? Hs' Hall]; subst.
    simpl. rewrite (less_than_int x y Hx Hy). simpl.
    destruct (int_key key x <? int_key key y)%Z eqn:Hlt.
    + destruct (IH Hl' Hs') as (r & -> & Hperm & Hsorted & Hstable).
      simpl. exists (y :: r). split; [reflexivity|]. split; [|split].
      * rewrite perm_swap. now constructor.
      * constructor; [assumption|].
        apply (Permutation_Forall Hperm). constructor; [|assumption].
        unfold descending. apply Z.ltb_lt in Hlt. lia.
      * intros z. unfold with_key in *. simpl.
        specialize (Hstable z). simpl in Hstable.
        destruct (int_key key y =? z)%Z eqn:Ey, (int_key key x =? z)%Z eqn:Ex;
          rewrite Hstable; try reflexivity.
        apply Z.ltb_lt in Hlt. apply Z.eqb_eq in Ey, Ex. lia.
    + exists (x :: y :: l). split; [reflexivity|]. split; [reflexivity|].
      split; [|reflexivity].
      constructor; [assumption|].
      apply Z.ltb_ge in Hlt. constructor; [exact Hlt|].
      eapply Forall_impl; [exact Hall|].
      intros a Ha. unfold descending in *. lia.
Qed.

Lemma sorted_reverse_spec (l : list A) :
  Forall (has_int_key key) l ->
  exists out, sorted_reverse key l = Ok out /\ stable_sort_of key l out.
Proof.
  induction l as [|x l IH]; intros Hl.
  - exists []. repeat split; auto. constructor.
  - inversion Hl as [|? ? Hx Hl']; subst.
    destruct (IH Hl') as (s & Hs & Hperm & Hsorted & Hstable).
    simpl. rewrite Hs. simpl.
    destruct (insert_desc_spec x s Hx) as (r & Hr & Hperm' & Hsorted' & Hstable');
      [now apply (Permutation_Forall Hperm)|assumption|].
    exists r. split; [assumption|]. split; [|split].
    + rewrite <- Hperm'. now constructor.
    + assumption.
    + intros z. rewrite Hstable'. unfold with_key in *. simpl.
      now rewrite (Hstable z).
Qed.

(** The order of the specification's example. *)
Lemma sorted_reverse_example (a1 a2 a3 a4 a5 a6 : A) :
  key a1 = VInt 40 -> key a2 = VInt 90 -> key a3 = VInt 90 ->
  key a4 = VInt 10 -> key a5 = VInt 60 -> key a6 = VInt 99 ->
  sorted_reverse key [a1; a2; a3; a4; a5; a6] = Ok [a6; a2; a3; a5; a1; a4].
Proof.
  intros H1 H2 H3 H4 H5 H6. simpl.
  repeat (rewrite ?H1, ?H2, ?H3, ?H4, ?H5, ?H6; simpl).
  reflexivity.
Qed.

(** A stable descending key sort has one result. *)
Lemma stable_sort_unique (l out1 out2 : list A) :
  stable_sort_of key l out1 -> stable_sort_of key l out2 -> out1 = out2.
Proof.
  intros (_ & Hs1 & Hk1) (_ & Hs2 & Hk2).
  assert (Hk : forall z, with_key key z out1 = with_key key z out2)
    by (intros z; now rewrite Hk1, Hk2).
  clear Hk1 Hk2 l. revert out2 Hs2 Hk.
  induction Hs1 as [|a out1 Hs1 IH Ha]; intros out2 Hs2 Hk.
  - destruct out2 as [|b out2]; [reflexivity|].
    specialize (Hk (int_key key b)). unfold with_key in Hk. simpl in Hk.
    rewrite Z.eqb_refl in Hk. discriminate.
  - destruct Hs2 as [|b out2 Hs2 Hb].
    + specialize (Hk (int_key key a)). unfold with_key in Hk. simpl in Hk.
      rewrite Z.eqb_refl in Hk. discriminate.
    + assert (Hab : int_key key a = int_key key b).
      { pose proof (Hk (int_key key a)) as H1. pose proof (Hk (int_key key b)) as H2.
        unfold with_key in H1, H2. simpl in H1, H2.
        rewrite Z.eqb_refl in H1, H2.
        destruct (int_key key b =? int_key key a)%Z eqn:E1; [apply Z.eqb_eq in E1; lia|].
        destruct (int_key key a =? int_key key b)%Z eqn:E2; [apply Z.eqb_eq in E2; lia|].
        assert (In a (List.filter (fun a0 => (int_key key a0 =? int_key key a)%Z) out2))
          by (rewrite <- H1; now left).
        assert (In b (List.filter (fun a0 => (int_key key a0 =? int_key key b)%Z) out1))
          by (rewrite H2; now left).
        apply filter_In in H, H0. destruct H as [Hin2 _], H0 as [Hin1 _].
        rewrite List.Forall_forall in Ha, Hb.
        specialize (Ha _ Hin1). specialize (Hb _ Hin2).
        unfold descending in *. apply Z.eqb_neq in E1. lia. }
      pose proof (Hk (int_key key a)) as H1. unfold with_key in H1. simpl in H1.
      rewrite Z.eqb_refl in H1.
      replace (int_key key b =? int_key key a)%Z with true in H1
        by (symmetry; apply Z.eqb_eq; lia).
      injection H1 as -> H1. f_equal.
      apply IH; [assumption|].
      intros z. specialize (Hk z). unfold with_key in *. simpl in Hk.
      destruct (int_key key b =? z)%Z; [now injection Hk|assumption].
Qed.

End SortFacts.

(** ** The ranked state *)


Lemma match_score_key_with_match (job : Job) (s : Z) (reasoning : string) :
  match_score_key (with_match job s reasoning) = VInt s.
Proof.
  unfold match_score_key, get, with_match.
  rewrite lookup_insert_ne by discriminate. now rewrite lookup_insert_eq.
Qed.

Lemma with_match_scored (job : Job) (s : Z) (reasoning : string) :
  scored (with_match job s reasoning).
Proof. exists s. apply match_score_key_with_match. Qed.

Lemma score_with_match (job : Job) (s : Z) (reasoning : string) :
  score (with_match job s reasoning) = s.
Proof. unfold int_key. now rewrite match_score_key_with_match. Qed.

(** The entries of the posting other than the two scoring fields are
    kept. *)
Lemma with_match_other (job : Job) (s : Z) (reasoning key : string) :
  key <> "match_score" -> key <> "match_reasoning" ->
  with_match job s reasoning !! key = job !! key.
Proof.
  intros H1 H2. unfold with_match.
  rewrite lookup_insert_ne by congruence. now rewrite lookup_insert_ne by congruence.
Qed.

Lemma with_match_reasoning (job : Job) (s : Z) (reasoning : string) :
  with_match job s reasoning !! "match_reasoning" = Some (VStr reasoning).
Proof. unfold with_match. now rewrite lookup_insert_eq. Qed.

Lemma with_match_score (job : Job) (s : Z) (reasoning : string) :
  with_match job s reasoning !! "match_score" = Some (VInt s).
Proof.
  unfold with_match. rewrite lookup_insert_ne by discriminate.
  now rewrite lookup_insert_eq.
Qed.

Section Ranking.

Lemma handle_all_step (st st' : State) (job : Job) (rest : list Job) :
  handle_analyzed_job st job = (Ok tt, st') ->
  handle_all st (job :: rest) = handle_all st' rest.
Proof. intros H. simpl. now rewrite H. Qed.

Lemma scored_posting_scored (job : Job) : scored_posting job -> scored job.
Proof.
  intros [(s & Hs) _]. exists s. unfold match_score_key, get. now rewrite Hs.
Qed.

Lemma show_posting_scored (job : Job) : scored_posting job -> show_posting job = Ok tt.
Proof.
  intros [(s & Hs) Hkeys].
  repeat match goal with
         | H : Forall _ (_ :: _) |- _ =>
             let Hk := fresh "Hk" in
             let v := fresh "v" in
             apply Forall_cons in H; destruct H as [[v Hk] H]
         end.
  unfold show_posting, getitem.
  repeat match goal with H : _ !! _ = Some _ |- _ => rewrite H; clear H end.
  cbn [bindR]. now destruct (truthy _).
Qed.

Lemma display_live_results_scored (top : list Job) :
  Forall scored_posting top -> display_live_results top = Ok tt.
Proof.
  intros Hall. assert (Heach : show_each top = Ok tt).
  { induction Hall as [|job rest Hjob _ IH]; [reflexivity|].
    cbn [show_each]. now rewrite (show_posting_scored job Hjob). }
  destruct top; [reflexivity|exact Heach].
Qed.

(** A posting of the scraper, once scored, is a ScoredPosting. *)
Lemma with_match_scored_posting (job : Job) (s : Z) (reasoning : string) :
  well_formed job -> scored_posting (with_match job s reasoning).
Proof.
  intros ((title & Ht) & (company & Hc) & (loc & Hl) & _ & (date & Hd) & Hurl).
  split; [exists s; apply with_match_score|].
  repeat constructor;
    rewrite ?with_match_reasoning, ?with_match_other by discriminate;
    rewrite ?Ht, ?Hc, ?Hl, ?Hd; eauto.
  destruct Hurl as [->|[url ->]]; eauto.
Qed.

Lemma posting_well_formed (title : string) : well_formed (posting title).
Proof.
  unfold well_formed, is_text, posting.
  repeat (rewrite ?lookup_insert_eq; rewrite ?lookup_insert_ne by discriminate).
  repeat split; eauto.
Qed.

Lemma handle_analyzed_job_scored (st : State) (job : Job) :
  Forall scored_posting (analyzed_jobs st) -> scored_posting job ->
  exists sorted_jobs,
    sorted_reverse match_score_key (analyzed_jobs st ++ [job])%list = Ok sorted_jobs /\
    stable_sort_of match_score_key (analyzed_jobs st ++ [job])%list sorted_jobs /\
    handle_analyzed_job st job
    = (Ok tt, {| analyzed_jobs := (analyzed_jobs st ++ [job])%list;
                 search_count := search_count st;
                 analysis_count := analysis_count st + 1;
                 top_matches := firstn 5 sorted_jobs |}).
Proof.
  intros Hst Hjob.
  assert (Hall : Forall scored_posting (analyzed_jobs st ++ [job])%list)
    by (apply Forall_app; split; [assumption|now constructor]).
  destruct (sorted_reverse_spec match_score_key (analyzed_jobs st ++ [job])%list)
    as (out & Hout & Hsort).
  { eapply Forall_impl; [exact Hall|]. exact scored_posting_scored. }
  exists out. split; [assumption|]. split; [assumption|].
  unfold handle_analyzed_job. rewrite Hout. cbv zeta. cbn [top_matches].
  rewrite display_live_results_scored; [reflexivity|].
  apply List.Forall_forall. intros x Hx.
  rewrite List.Forall_forall in Hall. apply Hall.
  destruct Hsort as (Hperm & _).
  apply (Permutation_in x (Permutation_sym Hperm)).
  rewrite <- (firstn_skipn 5 out). apply in_or_app. now left.
Qed.

(** The display decides: a posting that lacks its title is ranked, and
    then the method raises. *)
Lemma handle_analyzed_job_untitled (job : Job) :
  job !! "title" = None ->
  handle_analyzed_job init job
  = (Raise (KeyError "title"),
     {| analyzed_jobs := [job]; search_count := 0; analysis_count := 1;
        top_matches := [job] |}).
Proof.
  intros Htitle. unfold handle_analyzed_job. cbn.
  unfold show_posting, getitem. now rewrite Htitle.
Qed.

(** After any number of updates the buffer is the first five entries
    of the stable sort of everything that arrived. *)
Lemma handle_all_scored (arrivals : list Job) (st : State) :
  Forall scored_posting (analyzed_jobs st) -> Forall scored_posting arrivals ->
  arrivals <> [] ->
  exists sorted_jobs,
    sorted_reverse match_score_key (analyzed_jobs st ++ arrivals)%list = Ok sorted_jobs /\
    stable_sort_of match_score_key (analyzed_jobs st ++ arrivals)%list sorted_jobs /\
    handle_all st arrivals
    = (Ok tt, {| analyzed_jobs := (analyzed_jobs st ++ arrivals)%list;
                 search_count := search_count st;
                 analysis_count := analysis_count st + Z.of_nat (length arrivals);
                 top_matches := firstn 5 sorted_jobs |}).
Proof.
  revert st. induction arrivals as [|job rest IH]; intros st Hst Harr Hne;
    [congruence|].
  inversion Harr as [|? ? Hjob Hrest]; subst.
  destruct (handle_analyzed_job_scored st job Hst Hjob) as (s1 & Hr1 & Hs1 & Hstep).
  rewrite (handle_all_step _ _ _ _ Hstep).
  destruct rest as [|job' rest'].
  - exists s1. repeat (split; [assumption|]). simpl. reflexivity.
  - match goal with |- context [handle_all ?st' _] =>
      destruct (IH st') as (s2 & Hr2 & Hs2 & Hall) end.
    + simpl. apply Forall_app. split; [assumption|]. now constructor.
    + assumption.
    + discriminate.
    + cbn [analyzed_jobs search_count analysis_count] in Hr2, Hs2, Hall.
      rewrite <- app_assoc in Hr2, Hs2, Hall.
      exists s2. repeat (split; [assumption|]). rewrite Hall. f_equal. f_equal.
      cbn [length]. lia.
Qed.

(** What the first five entries of a stable descending sort are. *)
Lemma top_of_stable_sort (n : nat) (l sorted_jobs : list Job) :
  stable_sort_of match_score_key l sorted_jobs ->
  let top := firstn n sorted_jobs in
  (forall j, In j top -> In j l) /\
  length top = Nat.min n (length l) /\
  StronglySorted (descending match_score_key) top /\
  (exists rest, Permutation l (top ++ rest) /\
                forall b r, In b top -> In r rest -> (score r <= score b)%Z) /\
  (forall z, exists later,
      with_key match_score_key z l = (with_key match_score_key z top ++ later)%list).
Proof.
  intros (Hperm & Hsorted & Hstable) top.
  pose proof (firstn_skipn n sorted_jobs) as Hsplit. fold top in Hsplit.
  repeat split.
  - intros j Hj. apply (Permutation_in j (Permutation_sym Hperm)).
    rewrite <- Hsplit. apply in_or_app. now left.
  - subst top. rewrite length_firstn. now rewrite (Permutation_length Hperm).
  - rewrite <- Hsplit in Hsorted. now apply StronglySorted_app_1_l in Hsorted.
  - exists (skipn n sorted_jobs). split; [now rewrite Hsplit|].
    intros b r Hb Hr. rewrite <- Hsplit in Hsorted.
    apply (StronglySorted_app_1_elem_of _ _ _ b r Hsorted); now apply list_elem_of_In.
  - intros z. exists (with_key match_score_key z (skipn n sorted_jobs)).
    rewrite <- Hstable. unfold with_key. rewrite <- List.filter_app.
    now rewrite Hsplit.
Qed.

End Ranking.

(** C5: after every update of the ranked state by
    [handle_analyzed_job], display included, the buffer holds
    ScoredPostings that arrived, at most five of them, in descending
    score order; what is left out scores no higher than what is kept;
    postings of equal score stand in arrival order, the earlier ones
    being kept.  With the scores 40, 90, 90, 10, 60, 99 the buffer reads
    99, 90, 90, 60, 40, the two 90s in arrival order. *)
Theorem C5_top_matches (arrivals : list Job) :
  Forall scored_posting arrivals ->
  (exists st,
     handle_all init arrivals = (Ok tt, st) /\
     analyzed_jobs st = arrivals /\
     (forall j, In j (top_matches st) -> In j arrivals) /\
     length (top_matches st) = Nat.min 5 (length arrivals) /\
     StronglySorted (descending match_score_key) (top_matches st) /\
     (exists rest,
         Permutation arrivals (top_matches st ++ rest) /\
         forall kept left_out,
           In kept (top_matches st) -> In left_out rest ->
           (score left_out <= score kept)%Z) /\
     (forall z, exists later,
         with_key match_score_key z arrivals
         = (with_key match_score_key z (top_matches st) ++ later)%list)) /\
  (forall a1 a2 a3 a4 a5 a6 : Job,
      arrivals = [a1; a2; a3; a4; a5; a6] ->
      map (fun a : Job => a !! "match_score") arrivals
      = map (fun s => Some (VInt s)) [40; 90; 90; 10; 60; 99]%Z ->
      top_matches (snd (handle_all init arrivals)) = [a6; a2; a3; a5; a1]).
Proof.
  intros Hscored. split.
  - destruct arrivals as [|job rest].
    + exists init. repeat split; simpl; try tauto; try constructor.
      * exists []. split; [constructor|]. simpl. tauto.
      * intros z. now exists [].
    + destruct (handle_all_scored (job :: rest) init) as (s & _ & Hs & Hall);
        [constructor|assumption|discriminate|].
      simpl app in Hs, Hall. eexists. split; [exact Hall|].
      split; [reflexivity|].
      cbn [top_matches]. exact (top_of_stable_sort 5 _ _ Hs).
  - intros a1 a2 a3 a4 a5 a6 -> Hscores.
    injection Hscores as H1 H2 H3 H4 H5 H6.
    destruct (handle_all_scored [a1; a2; a3; a4; a5; a6] init)
      as (s & Hr & _ & Hall); [constructor|assumption|discriminate|].
    simpl app in Hr, Hall. rewrite Hall. cbn [snd top_matches].
    rewrite (sorted_reverse_example match_score_key a1 a2 a3 a4 a5 a6) in Hr
      by (unfold match_score_key, get; now rewrite ?H1, ?H2, ?H3, ?H4, ?H5, ?H6).
    injection Hr as <-. reflexivity.
Qed.

(** ** Scoring a batch *)


Section Batch.
Context (env : Env) (resume_text : string).

Lemma score_each_extends (callback : option (Job -> M unit)) (jobs : list Job)
    (w w' : World) (outs : list Job) :
  score_each env resume_text callback jobs w = (Ok outs, w') ->
  Forall2 extends jobs outs.
Proof.
  revert w w' outs. induction jobs as [|job rest IH]; intros w w' outs.
  - intros [= <- _]. constructor.
  - cbn [score_each]. unfold bind at 1.
    destruct (analyze_job_match_extends env resume_text job 0 w)
      as (score & reasoning & w1 & ->).
    unfold bind at 1.
    match goal with |- context [match ?c w1 with _ => _ end] =>
      destruct (c w1) as [[[]|e] w2] end; [|discriminate].
    unfold uniform, random_random, sleep. run_monad.
    match goal with |- context [score_each env resume_text callback rest ?w3] =>
      destruct (score_each env resume_text callback rest w3)
        as [[outs'|e] w4] eqn:Hrest end; [|discriminate].
    intros [= <- _]. constructor; [now exists score, reasoning|].
    eapply IH. exact Hrest.
Qed.

(** Without a callback the loop reaches the end of the batch whatever
    happens to the single postings. *)
Lemma score_each_completes (jobs : list Job) (w : World) :
  exists outs w', score_each env resume_text None jobs w = (Ok outs, w').
Proof.
  revert w. induction jobs as [|job rest IH]; intros w.
  - now exists [], w.
  - cbn [score_each]. unfold bind at 1.
    destruct (analyze_job_match_extends env resume_text job 0 w)
      as (score & reasoning & w1 & ->).
    unfold uniform, random_random, sleep. run_monad.
    match goal with |- context [score_each env resume_text None rest ?w3] =>
      destruct (IH w3) as (outs & w' & ->) end.
    eauto.
Qed.

End Batch.


(** ** analyze_matches *)

Lemma stable_sort_of_constant {A : Type} (key : A -> value) (l : list A) (z : Z) :
  Forall (fun a => int_key key a = z) l -> stable_sort_of key l l.
Proof.
  intros Hl. split; [reflexivity|]. split; [|reflexivity].
  induction Hl as [|a l Ha Hl IH]; constructor; [assumption|].
  eapply Forall_impl; [exact Hl|]. intros b Hb. unfold descending.
  simpl in Ha, Hb. rewrite Ha, Hb. reflexivity.
Qed.

(** C8: [analyze_matches] returns, for every input, a list as long as the
    input; it is the stable descending sort by [match_score] of a list
    that extends the input postings one by one, in input order, with
    [match_score] and [match_reasoning]. *)
Theorem C8_analyze_matches (env : Env) (resume_text : string) (jobs : list Job)
    (progress_callback : option (Job -> M unit)) (w : World) :
  exists outs w' matched_jobs,
    analyze_matches env resume_text jobs progress_callback w = (Ok outs, w') /\
    length outs = length jobs /\
    Forall2 extends jobs matched_jobs /\
    Forall scored outs /\
    stable_sort_of match_score_key matched_jobs outs.
Proof.
  assert (Hfallback :
    exists outs matched_jobs,
      outs = map (fun job => with_match job 0 "Analysis failed") jobs /\
      length outs = length jobs /\
      Forall2 extends jobs matched_jobs /\
      Forall scored outs /\
      stable_sort_of match_score_key matched_jobs outs).
  { exists (map (fun job => with_match job 0 "Analysis failed") jobs),
      (map (fun job => with_match job 0 "Analysis failed") jobs).
    split; [reflexivity|].
    split; [apply length_map|]. split; [|split].
    - clear. induction jobs as [|job rest IH]; constructor; [|exact IH].
      now exists 0%Z, "Analysis failed".
    - apply List.Forall_forall. intros out Hout. apply in_map_iff in Hout.
      destruct Hout as (job & <- & _). apply with_match_scored.
    - apply (stable_sort_of_constant _ _ 0%Z).
      apply List.Forall_forall. intros out Hout. apply in_map_iff in Hout.
      destruct Hout as (job & <- & _). apply score_with_match. }
  unfold analyze_matches, try_except.
  match goal with |- context [match ?body w with _ => _ end] =>
    destruct (body w) as [[outs|e] w1] eqn:Hbody end.
  - revert Hbody. unfold bind at 1.
    destruct (getenv env "ANTHROPIC_API_KEY") as [[|c key]|];
      try (unfold raise; discriminate).
    unfold ret at 1. unfold bind at 1. unfold lift at 1.
    destruct (new_client env (String c key)) as [[]|e]; [|discriminate].
    unfold bind at 1.
    destruct (score_each env resume_text progress_callback jobs w)
      as [[matched|e] w2] eqn:Hloop; [|discriminate].
    pose proof (score_each_extends _ _ _ _ _ _ _ Hloop) as Hext.
    assert (Hscored : Forall scored matched).
    { clear -Hext. induction Hext as [|job out ? ? (s & r & ->) _ IH]; constructor;
        [apply with_match_scored|exact IH]. }
    destruct (sorted_reverse_spec match_score_key matched Hscored)
      as (sorted_jobs & Hsorted & Hstable).
    unfold lift. rewrite Hsorted. intros [= <- <-].
    exists sorted_jobs, w2, matched. split; [reflexivity|].
    destruct Hstable as (Hperm & Hss & Hst).
    split; [|split; [assumption|split]].
    + rewrite <- (Permutation_length Hperm). symmetry.
      eapply Forall2_length. exact Hext.
    + now apply (Permutation_Forall Hperm).
    + repeat split; assumption.
  - destruct Hfallback as (outs & matched & -> & Hlen & Hext & Hscored & Hsort).
    exists (map (fun job => with_match job 0 "Analysis failed") jobs), w1, matched.
    unfold ret. repeat split; try assumption; apply Hsort.
Qed.

(** ** Backoff and retries *)

Lemma backoff_delay_capped (retry_count : Z) :
  (3 <= retry_count)%Z -> (backoff_delay retry_count == 120)%Q.
Proof.
  intros H. unfold backoff_delay. cbv zeta. apply Q.min_r.
  assert (H8 : (2 ^ 3 <= 2 ^ retry_count)%Q)
    by (apply Qpower_le_compat_l; [assumption|discriminate]).
  change (2 ^ 3)%Q with 8%Q in H8. lra.
Qed.

(** For the counters the program uses, which are not negative, the delay
    is the integer [min(20 * 2 ** retry_count, 120)]. *)
Lemma backoff_delay_integer (retry_count : Z) :
  (0 <= retry_count)%Z ->
  (backoff_delay retry_count == inject_Z (Z.min (20 * 2 ^ retry_count) 120))%Q.
Proof.
  intros H. unfold backoff_delay. cbv zeta.
  assert (Hpow : (20 * 2 ^ retry_count == inject_Z (20 * 2 ^ retry_count))%Q).
  { rewrite inject_Z_mult, Zpower_Qpower by assumption. reflexivity. }
  destruct (Z.le_ge_cases (20 * 2 ^ retry_count) 120) as [Hle|Hge].
  - rewrite Z.min_l by assumption. rewrite Q.min_l; [exact Hpow|].
    rewrite Hpow. change 120%Q with (inject_Z 120). now rewrite <- Zle_Qle.
  - rewrite Z.min_r by assumption. rewrite Q.min_r; [reflexivity|].
    rewrite Hpow. change 120%Q with (inject_Z 120). now rewrite <- Zle_Qle.
Qed.

Lemma wait_with_backoff_world (env : Env) (retry_count : Z) (w : World) :
  wait_with_backoff env retry_count w
  = (Ok tt,
     {| api_calls := api_calls w; random_draws := S (random_draws w);
        http_gets := http_gets w; clock_reads := clock_reads w;
        slept := slept w
                 ++ [(backoff_delay retry_count
                      * ((1 # 2) + ((3 # 2) - (1 # 2)) * random env (random_draws w)))%Q]
     |}).
Proof. reflexivity. Qed.

Section RetryCount.
Context (env : Env) (resume_text : string) (job : Job).

Lemma recursion_depth_stop (retry_count : Z) (w : World) :
  rate_limited env resume_text job w = None \/ ~ (retry_count < max_retries)%Z ->
  recursion_depth env resume_text job retry_count w = O.
Proof.
  intros H. rewrite recursion_depth_equation_1.
  destruct (Z_lt_dec retry_count max_retries); [|reflexivity].
  destruct H as [H|H]; [|contradiction]. now rewrite H.
Qed.

Lemma recursion_depth_retry (retry_count : Z) (w w2 : World) :
  rate_limited env resume_text job w = Some w2 ->
  (retry_count < max_retries)%Z ->
  recursion_depth env resume_text job retry_count w
  = S (recursion_depth env resume_text job (retry_count + 1)
         (snd (wait_with_backoff env (retry_count + 1) w2))).
Proof.
  intros H Hlt.
  rewrite (recursion_depth_equation_1 env resume_text job retry_count w).
  destruct (Z_lt_dec retry_count max_retries); [|contradiction].
  now rewrite H.
Qed.

Lemma recursion_depth_bound (retry_count : Z) (w : World) :
  (recursion_depth env resume_text job retry_count w
   <= Z.to_nat (max_retries - retry_count))%nat.
Proof.
  revert retry_count w. apply retry_induction. intros retry_count w IH.
  destruct (Z_lt_dec retry_count max_retries) as [Hlt|Hge].
  - destruct (rate_limited env resume_text job w) as [w2|] eqn:Hr.
    + rewrite (recursion_depth_retry _ _ _ Hr Hlt).
      specialize (IH (snd (wait_with_backoff env (retry_count + 1) w2)) Hlt). lia.
    + rewrite recursion_depth_stop by now left. lia.
  - rewrite recursion_depth_stop by now right. lia.
Qed.

(** One API call per call of the function. *)
Lemma api_calls_bound (retry_count : Z) (w : World) :
  (api_calls (snd (analyze_job_match env resume_text job retry_count w))
   <= api_calls w + S (recursion_depth env resume_text job retry_count w))%nat.
Proof.
  revert retry_count w. apply retry_induction. intros retry_count w IH.
  pose proof (prepare_prompt_api_calls env resume_text job w) as Hprep.
  destruct (analyze_job_match_step env resume_text job retry_count w)
    as [e w1 Hp Hr|prompt w1 content Hp Hc (out & Hr & _)|prompt w1 e Hp Hc He Hr
        |prompt w1 msg Hp Hc Hlt Hr|prompt w1 msg Hp Hc Hlt Hr];
    rewrite Hr; rewrite Hp in Hprep; simpl in Hprep; simpl; try lia.
  assert (Hrl : rate_limited env resume_text job w
                = Some (snd (client_messages_create env prompt w1))).
  { unfold rate_limited. rewrite Hp. unfold client_messages_create.
    now rewrite Hc. }
  rewrite (recursion_depth_retry _ _ _ Hrl Hlt).
  match goal with |- context [analyze_job_match _ _ _ _ ?w3] =>
    specialize (IH w3 Hlt) end.
  simpl in IH. unfold client_messages_create. simpl. lia.
Qed.

End RetryCount.

Section LastAttempt.
Context (env : Env) (resume_text : string) (job : Job).

Lemma final_attempt_stop (retry_count : Z) (w : World) :
  rate_limited env resume_text job w = None \/ ~ (retry_count < max_retries)%Z ->
  final_attempt env resume_text job retry_count w = (retry_count, w).
Proof.
  intros H. rewrite final_attempt_equation_1.
  destruct (Z_lt_dec retry_count max_retries); [|reflexivity].
  destruct H as [H|H]; [|contradiction]. now rewrite H.
Qed.

Lemma final_attempt_retry (retry_count : Z) (w w2 : World) :
  rate_limited env resume_text job w = Some w2 ->
  (retry_count < max_retries)%Z ->
  final_attempt env resume_text job retry_count w
  = final_attempt env resume_text job (retry_count + 1)
      (snd (wait_with_backoff env (retry_count + 1) w2)).
Proof.
  intros H Hlt.
  rewrite (final_attempt_equation_1 env resume_text job retry_count w).
  destruct (Z_lt_dec retry_count max_retries); [|contradiction].
  now rewrite H.
Qed.

(** What [rate_limited] says of the request. *)
Lemma rate_limited_some (w w2 : World) :
  rate_limited env resume_text job w = Some w2 ->
  exists prompt w1 msg,
    prepare_prompt env resume_text job w = (Ok prompt, w1) /\
    messages_create env (api_calls w1) prompt = Raise (RateLimitError msg) /\
    w2 = snd (client_messages_create env prompt w1).
Proof.
  unfold rate_limited.
  destruct (prepare_prompt env resume_text job w) as [[prompt|e] w1]; [|discriminate].
  unfold client_messages_create.
  destruct (messages_create env (api_calls w1) prompt) as [content|e] eqn:Hc;
    [discriminate|].
  destruct e; try discriminate. intros [= <-]. now exists prompt, w1, msg.
Qed.

Lemma rate_limited_none (w w1 : World) (prompt msg : string) :
  prepare_prompt env resume_text job w = (Ok prompt, w1) ->
  messages_create env (api_calls w1) prompt = Raise (RateLimitError msg) ->
  rate_limited env resume_text job w <> None.
Proof.
  intros Hp Hc. unfold rate_limited. rewrite Hp. unfold client_messages_create.
  now rewrite Hc.
Qed.

(** The call returns what its last attempt returns; that attempt is not
    retried, and its counter is the counter of the call plus the number
    of recursive calls. *)
Lemma final_attempt_decides (retry_count : Z) (w : World) :
  let last := final_attempt env resume_text job retry_count w in
  analyze_job_match env resume_text job retry_count w
  = analyze_job_match env resume_text job (fst last) (snd last) /\
  fst last
  = (retry_count + Z.of_nat (recursion_depth env resume_text job retry_count w))%Z /\
  (rate_limited env resume_text job (snd last) = None \/
   ~ (fst last < max_retries)%Z).
Proof.
  revert retry_count w.
  apply (retry_induction
           (fun retry_count w =>
              let last := final_attempt env resume_text job retry_count w in
              analyze_job_match env resume_text job retry_count w
              = analyze_job_match env resume_text job (fst last) (snd last) /\
              fst last
              = (retry_count
                 + Z.of_nat (recursion_depth env resume_text job retry_count w))%Z /\
              (rate_limited env resume_text job (snd last) = None \/
               ~ (fst last < max_retries)%Z))).
  intros retry_count w IH. cbv zeta.
  destruct (Z_lt_dec retry_count max_retries) as [Hlt|Hge].
  - destruct (rate_limited env resume_text job w) as [w2|] eqn:Hr.
    + rewrite (final_attempt_retry _ _ _ Hr Hlt), (recursion_depth_retry _ _ _ _ _ _ Hr Hlt).
      destruct (IH (snd (wait_with_backoff env (retry_count + 1) w2)) Hlt)
        as (Hrun & Hcount & Hlast).
      destruct (rate_limited_some _ _ Hr) as (prompt & w1 & msg & Hp & Hc & ->).
      split; [|split; [|exact Hlast]].
      * rewrite <- Hrun. exact (analyze_job_match_retries _ _ _ _ _ _ _ Hp _ Hc Hlt).
      * rewrite Hcount. lia.
    + rewrite final_attempt_stop by now left.
      rewrite recursion_depth_stop by now left.
      cbn [fst snd]. split; [reflexivity|]. split; [lia|now left].
  - rewrite final_attempt_stop by now right.
    rewrite recursion_depth_stop by now right.
    cbn [fst snd]. split; [reflexivity|]. split; [lia|now right].
Qed.

(** The request for a well-formed posting can always be prepared. *)
Lemma prepare_prompt_well_formed (w : World) :
  well_formed job ->
  exists prompt,
    prepare_prompt env resume_text job w = (Ok prompt, throttled env w).
Proof.
  intros ((title & Ht) & (company & Hc) & _ & (description & Hd) & _).
  unfold prepare_prompt, throttled, getitem, uniform, random_random, sleep.
  rewrite Ht, Hc, Hd. run_monad.
  match goal with |- context [(?n >? 200)%Z] => destruct (n >? 200)%Z end;
    eexists; reflexivity.
Qed.

(** One request per attempt before the last. *)
Lemma final_attempt_api_calls (retry_count : Z) (w : World) :
  api_calls (snd (final_attempt env resume_text job retry_count w))
  = (api_calls w + recursion_depth env resume_text job retry_count w)%nat.
Proof.
  revert retry_count w. apply retry_induction. intros retry_count w IH.
  destruct (Z_lt_dec retry_count max_retries) as [Hlt|Hge].
  - destruct (rate_limited env resume_text job w) as [w2|] eqn:Hr.
    + rewrite (final_attempt_retry _ _ _ Hr Hlt), (recursion_depth_retry _ _ _ _ _ _ Hr Hlt).
      rewrite (IH _ Hlt).
      destruct (rate_limited_some _ _ Hr) as (prompt & w1 & msg & Hp & Hc & ->).
      pose proof (prepare_prompt_api_calls env resume_text job w) as Hprep.
      rewrite Hp in Hprep. cbn in Hprep |- *. lia.
    + rewrite final_attempt_stop by now left.
      rewrite recursion_depth_stop by now left. cbn [snd]. lia.
  - rewrite final_attempt_stop by now right.
    rewrite recursion_depth_stop by now right. cbn [snd]. lia.
Qed.

End LastAttempt.

(** An API that is rate limited for its first [n] requests: when the
    six requests of a call fall among them, the last attempt of the call
    is rate limited too, whatever the later requests would bring. *)
Lemma limited_until_last_attempt (n : nat) (resume_text : string) (job : Job)
    (w : World) :
  well_formed job ->
  (api_calls w + 6 <= n)%nat ->
  let last := final_attempt (env_limited_until n) resume_text job 0 w in
  exists prompt w1,
    prepare_prompt (env_limited_until n) resume_text job (snd last) = (Ok prompt, w1) /\
    messages_create (env_limited_until n) (api_calls w1) prompt
    = Raise (RateLimitError "429").
Proof.
  intros Hwf Hn. cbv zeta.
  pose proof (final_attempt_api_calls (env_limited_until n) resume_text job 0 w)
    as Hcalls.
  pose proof (recursion_depth_bound (env_limited_until n) resume_text job 0 w)
    as Hdepth.
  change (Z.to_nat (max_retries - 0)) with 5%nat in Hdepth.
  set (last := snd (final_attempt (env_limited_until n) resume_text job 0 w)) in *.
  clearbody last.
  destruct (prepare_prompt_well_formed (env_limited_until n) resume_text job last Hwf)
    as (prompt & Hp).
  exists prompt, (throttled (env_limited_until n) last). split; [exact Hp|].
  change (api_calls (throttled (env_limited_until n) last)) with (api_calls last).
  unfold env_limited_until. cbn [messages_create].
  replace (api_calls last <? n)%nat with true; [reflexivity|].
  symmetry. apply Nat.ltb_lt. lia.
Qed.

(** C2, amended: a parse rejection, and any exception of the scoring,
    makes [analyze_job_match] return (never raise) the posting with
    [match_score] 0 and an error text: the fixed "Error parsing analysis
    results" for a rejected response, and "Error during analysis: "
    followed by the text of the exception otherwise, which for the
    exhausted retries is "Rate limit exceeded after 5 retries".  This is
    stated of the attempt that decides the call, the last of its chain of
    retries, whatever the API answered before and would answer after:
    the call returns what that attempt returns; the attempt is the call
    itself unless the call is rate limited below the maximum, and then
    the last attempt of the retry; its counter is the counter of the call
    plus the number of retries; a rate limit at the last attempt means
    the counter has reached the maximum.  The loop over a batch goes on
    to the remaining postings. *)
Theorem C2_degraded_posting (env : Env) (resume_text : string) (job : Job)
    (retry_count : Z) (w : World) :
  let run := analyze_job_match env resume_text job retry_count w in
  let last := final_attempt env resume_text job retry_count w in
  (exists out w', run = (Ok out, w')) /\
  run = analyze_job_match env resume_text job (fst last) (snd last) /\
  fst last
  = (retry_count + Z.of_nat (recursion_depth env resume_text job retry_count w))%Z /\
  (rate_limited env resume_text job w = None \/ ~ (retry_count < max_retries)%Z ->
   last = (retry_count, w)) /\
  (forall w2,
      rate_limited env resume_text job w = Some w2 ->
      (retry_count < max_retries)%Z ->
      last = final_attempt env resume_text job (retry_count + 1)
               (snd (wait_with_backoff env (retry_count + 1) w2))) /\
  (forall e w1,
      prepare_prompt env resume_text job (snd last) = (Raise e, w1) ->
      fst run = Ok (with_match job 0 ("Error during analysis: " +:+ str_exn e))) /\
  (forall prompt w1,
      prepare_prompt env resume_text job (snd last) = (Ok prompt, w1) ->
      (forall content response_text e,
          messages_create env (api_calls w1) prompt = Ok content ->
          response_text_of content = Ok response_text ->
          parse_response response_text = Raise e ->
          fst run = Ok (with_match job 0 "Error parsing analysis results")) /\
      (forall content e,
          messages_create env (api_calls w1) prompt = Ok content ->
          response_text_of content = Raise e ->
          fst run = Ok (with_match job 0 ("Error during analysis: " +:+ str_exn e))) /\
      (forall e,
          messages_create env (api_calls w1) prompt = Raise e ->
          is_rate_limit e = false ->
          fst run = Ok (with_match job 0 ("Error during analysis: " +:+ str_exn e))) /\
      (forall msg,
          messages_create env (api_calls w1) prompt = Raise (RateLimitError msg) ->
          (max_retries <= fst last)%Z /\
          fst run
          = Ok (with_match job 0
                  "Error during analysis: Rate limit exceeded after 5 retries"))) /\
  (forall jobs,
      exists outs w',
        score_each env resume_text None jobs w = (Ok outs, w') /\
        Forall2 extends jobs outs).
Proof.
  cbv zeta.
  destruct (final_attempt_decides env resume_text job retry_count w)
    as (Hrun & Hcount & Hlast).
  split; [apply analyze_job_match_returns|].
  split; [exact Hrun|]. split; [exact Hcount|].
  split; [apply final_attempt_stop|].
  split; [intros w2 Hr Hlt; now apply final_attempt_retry|].
  rewrite Hrun. split; [|split].
  - intros e w1 Hp. now rewrite (analyze_job_match_unprepared _ _ _ _ _ _ _ Hp).
  - intros prompt w1 Hp. repeat split.
    + intros content t e Hc Ht Hparse.
      rewrite (analyze_job_match_answered _ _ _ _ _ _ _ Hp _ Hc), Ht, Hparse.
      reflexivity.
    + intros content e Hc Ht.
      rewrite (analyze_job_match_answered _ _ _ _ _ _ _ Hp _ Hc), Ht. reflexivity.
    + intros e Hc He.
      now rewrite (analyze_job_match_failed _ _ _ _ _ _ _ Hp _ Hc He).
    + destruct Hlast as [Hnone|Hge]; [|lia].
      now destruct (rate_limited_none env resume_text job _ _ _ _ Hp H).
    + assert (Hge : ~ (fst (final_attempt env resume_text job retry_count w)
                       < max_retries)%Z).
      { destruct Hlast as [Hnone|Hge]; [|exact Hge].
        now destruct (rate_limited_none env resume_text job _ _ _ _ Hp H). }
      now rewrite (analyze_job_match_exhausted _ _ _ _ _ _ _ Hp _ H Hge).
  - intros jobs. destruct (score_each_completes env resume_text jobs w)
      as (outs & w' & Hloop).
    exists outs, w'. split; [assumption|]. eapply score_each_extends. exact Hloop.
Qed.

Lemma C2_degraded_posting_witness :
  fst (analyze_job_match (env_limited_until 6) "resume" (posting "Engineer") 0 world0)
  = Ok (with_match (posting "Engineer") 0
          "Error during analysis: Rate limit exceeded after 5 retries").
Proof.
  destruct (C2_degraded_posting (env_limited_until 6) "resume" (posting "Engineer") 0
              world0) as (_ & _ & _ & _ & _ & _ & H & _).
  destruct (limited_until_last_attempt 6 "resume" (posting "Engineer") world0
              (posting_well_formed "Engineer") (le_n 6))
    as (prompt & w1 & Hp & Hc).
  destruct (H prompt w1 Hp) as (_ & _ & _ & Hlimited).
  exact (proj2 (Hlimited "429" Hc)).
Defined.

(** C2 as stated fails: the text of the failure posting follows the
    exception, so no fixed text serves two requests that fail with
    different messages. *)
Lemma C2_counterexample :
  (exists out,
      fst (analyze_job_match (env_failing "timed out") "resume" (posting "Engineer")
             0 world0) = Ok out /\
      out !! "match_reasoning" = Some (VStr "Error during analysis: timed out")) /\
  (exists out,
      fst (analyze_job_match (env_failing "overloaded") "resume" (posting "Engineer")
             0 world0) = Ok out /\
      out !! "match_reasoning" = Some (VStr "Error during analysis: overloaded")) /\
  ~ exists reasoning, fixed_failure_reasoning reasoning.
Proof.
  assert (H1 : exists out,
      fst (analyze_job_match (env_failing "timed out") "resume" (posting "Engineer")
             0 world0) = Ok out /\
      out !! "match_reasoning" = Some (VStr "Error during analysis: timed out")).
  { exists (with_match (posting "Engineer") 0 "Error during analysis: timed out").
    split; [|apply with_match_reasoning].
    destruct (prepare_prompt (env_failing "timed out") "resume" (posting "Engineer")
                world0) as [[prompt|e] w1] eqn:Hp;
      [|vm_compute in Hp; discriminate].
    now rewrite (analyze_job_match_failed _ _ _ _ _ _ _ Hp
                   (Exception "timed out") eq_refl eq_refl). }
  assert (H2 : exists out,
      fst (analyze_job_match (env_failing "overloaded") "resume" (posting "Engineer")
             0 world0) = Ok out /\
      out !! "match_reasoning" = Some (VStr "Error during analysis: overloaded")).
  { exists (with_match (posting "Engineer") 0 "Error during analysis: overloaded").
    split; [|apply with_match_reasoning].
    destruct (prepare_prompt (env_failing "overloaded") "resume" (posting "Engineer")
                world0) as [[prompt|e] w1] eqn:Hp;
      [|vm_compute in Hp; discriminate].
    now rewrite (analyze_job_match_failed _ _ _ _ _ _ _ Hp
                   (Exception "overloaded") eq_refl eq_refl). }
  split; [exact H1|]. split; [exact H2|].
  intros [reasoning Hfixed].
  destruct H1 as (out1 & Hrun1 & Hout1), H2 as (out2 & Hrun2 & Hout2).
  destruct (prepare_prompt (env_failing "timed out") "resume" (posting "Engineer")
              world0) as [[prompt1|e1] w1] eqn:Hp1;
    [|vm_compute in Hp1; discriminate].
  destruct (prepare_prompt (env_failing "overloaded") "resume" (posting "Engineer")
              world0) as [[prompt2|e2] w2] eqn:Hp2;
    [|vm_compute in Hp2; discriminate].
  destruct (Hfixed _ _ _ _ _ _ _ Hp1 eq_refl eq_refl) as (o1 & Ho1 & Hr1).
  destruct (Hfixed _ _ _ _ _ _ _ Hp2 eq_refl eq_refl) as (o2 & Ho2 & Hr2).
  rewrite Hrun1 in Ho1. rewrite Hrun2 in Ho2.
  injection Ho1 as <-. injection Ho2 as <-.
  rewrite Hout1 in Hr1. rewrite Hout2 in Hr2.
  injection Hr1 as <-. discriminate.
Qed.


(** C10: the retry recursion of [analyze_job_match] ends for every
    input: the call returns a posting; it calls itself only while
    [retry_count] is below 5 and then with [retry_count + 1]; the nesting
    of the recursive calls is at most [5 - retry_count], hence at most 5
    for a counter that starts, as it does, at 0 or above, and the API is
    asked at most once per call. *)
Theorem C10_retries_terminate (env : Env) (resume_text : string) (job : Job)
    (retry_count : Z) (w : World) :
  let run := analyze_job_match env resume_text job retry_count w in
  let depth := recursion_depth env resume_text job retry_count w in
  (exists out w', run = (Ok out, w')) /\
  (depth <= Z.to_nat (max_retries - retry_count))%nat /\
  ((0 <= retry_count)%Z -> (depth <= 5)%nat) /\
  (api_calls (snd run) <= api_calls w + S depth)%nat /\
  (depth = O \/
   ((retry_count < max_retries)%Z /\
    exists w3,
      depth = S (recursion_depth env resume_text job (retry_count + 1) w3) /\
      run = analyze_job_match env resume_text job (retry_count + 1) w3)).
Proof.
  cbv zeta. pose proof (recursion_depth_bound env resume_text job retry_count w) as Hb.
  split; [apply analyze_job_match_returns|]. split; [exact Hb|].
  split; [unfold max_retries in Hb; lia|]. split; [apply api_calls_bound|].
  destruct (Z_lt_dec retry_count max_retries) as [Hlt|Hge];
    [|left; apply recursion_depth_stop; now right].
  destruct (rate_limited env resume_text job w) as [w2|] eqn:Hr;
    [|left; apply recursion_depth_stop; now left].
  right. split; [assumption|].
  exists (snd (wait_with_backoff env (retry_count + 1) w2)).
  split; [now apply recursion_depth_retry|].
  revert Hr. unfold rate_limited.
  destruct (prepare_prompt env resume_text job w) as [[prompt|e] w1] eqn:Hp;
    [|discriminate].
  unfold client_messages_create at 1.
  destruct (messages_create env (api_calls w1) prompt) as [c|[]] eqn:Hc;
    try discriminate.
  intros [= <-]. eapply analyze_job_match_retries; eassumption.
Qed.

Lemma C10_retries_terminate_witness :
  (recursion_depth env_limited "resume" (posting "Engineer") 0 world0 <= 5)%nat.
Proof.
  destruct (C10_retries_terminate env_limited "resume" (posting "Engineer") 0 world0)
    as (_ & _ & H & _).
  apply H. discriminate.
Defined.

(** The bound of C10 is reached when the API keeps signalling the rate
    limit: five nested calls, six requests.  A caller that passes a
    counter below zero gets the retries it is short of in addition. *)
Lemma recursion_depth_reached :
  recursion_depth env_limited "resume" (posting "Engineer") 0 world0 = 5%nat /\
  api_calls (snd (analyze_job_match env_limited "resume" (posting "Engineer") 0 world0))
  = 6%nat /\
  recursion_depth env_limited "resume" (posting "Engineer") (-1) world0 = 6%nat.
Proof. repeat split; vm_compute; reflexivity. Qed.

(** C3, amended: [wait_with_backoff retry_count] sleeps
    [min(20 * 2^retry_count, 120)] seconds times a jitter factor of
    [0.5, 1.5]: 10 to 30 seconds for [retry_count = 0], and 60 to 180
    seconds, the delay before jitter being capped at 120, from
    [retry_count = 3] on.  [analyze_job_match] increments [retry_count]
    before it waits: the wait before the retry of a call made with
    [retry_count] is the one of [retry_count + 1], so the first retry
    waits 20 to 60 seconds. *)
Theorem C3_backoff_delay (env : Env) (retry_count : Z) (w : World) :
  let u := random env (random_draws w) in
  let jitter := ((1 # 2) + ((3 # 2) - (1 # 2)) * u)%Q in
  let delay := Qmin (20 * 2 ^ retry_count) 120 in
  let final_delay := (delay * jitter)%Q in
  slept (snd (wait_with_backoff env retry_count w)) = (slept w ++ [final_delay])%list /\
  ((0 <= retry_count)%Z ->
   (delay == inject_Z (Z.min (20 * 2 ^ retry_count) 120))%Q) /\
  ((0 <= u)%Q /\ (u <= 1)%Q ->
   ((1 # 2 <= jitter)%Q /\ (jitter <= 3 # 2)%Q) /\
   (retry_count = 0%Z -> (10 <= final_delay)%Q /\ (final_delay <= 30)%Q) /\
   (retry_count = 1%Z -> (20 <= final_delay)%Q /\ (final_delay <= 60)%Q) /\
   ((3 <= retry_count)%Z ->
    (delay == 120)%Q /\ (60 <= final_delay)%Q /\ (final_delay <= 180)%Q)) /\
  (forall resume_text job prompt w1 msg,
      prepare_prompt env resume_text job w = (Ok prompt, w1) ->
      messages_create env (api_calls w1) prompt = Raise (RateLimitError msg) ->
      (retry_count < max_retries)%Z ->
      analyze_job_match env resume_text job retry_count w
      = analyze_job_match env resume_text job (retry_count + 1)
          (snd (wait_with_backoff env (retry_count + 1)
                  (snd (client_messages_create env prompt w1))))).
Proof.
  cbv zeta. split; [reflexivity|]. split; [apply backoff_delay_integer|]. split.
  - intros [Hu0 Hu1].
    set (u := random env (random_draws w)) in *.
    assert (Hj : (1 # 2 <= (1 # 2) + ((3 # 2) - (1 # 2)) * u)%Q
                 /\ ((1 # 2) + ((3 # 2) - (1 # 2)) * u <= 3 # 2)%Q) by (split; lra).
    split; [exact Hj|]. destruct Hj as [Hj0 Hj1].
    set (jitter := ((1 # 2) + ((3 # 2) - (1 # 2)) * u)%Q) in *.
    split; [|split].
    + intros ->. change (Qmin (20 * 2 ^ 0) 120) with (20 * 1)%Q. split; lra.
    + intros ->. change (Qmin (20 * 2 ^ 1) 120) with (20 * 2)%Q. split; lra.
    + intros H3. pose proof (backoff_delay_capped retry_count H3) as Hcap.
      unfold backoff_delay in Hcap. cbv zeta in Hcap.
      split; [exact Hcap|]. rewrite Hcap. split; lra.
  - intros resume_text job prompt w1 msg Hp Hc Hlt.
    eapply analyze_job_match_retries; eassumption.
Qed.

Lemma C3_backoff_delay_witness :
  (10 <= Qmin (20 * 2 ^ 0) 120
         * ((1 # 2) + ((3 # 2) - (1 # 2)) * random env_limited (random_draws world0)))%Q
  /\ (Qmin (20 * 2 ^ 0) 120
      * ((1 # 2) + ((3 # 2) - (1 # 2)) * random env_limited (random_draws world0))
      <= 30)%Q.
Proof.
  destruct (C3_backoff_delay env_limited 0 world0) as (_ & _ & H & _).
  destruct H as (_ & H0 & _).
  - split; vm_compute; discriminate.
  - apply H0. reflexivity.
Defined.

(** C3 as stated fails in its last sentence: in a run whose requests are
    all rate limited and whose jitter factor is 1, the first sleep is the
    throttle before the request and the second, the wait before the first
    retry, lasts 40 seconds: the delay of [retry_count = 1], outside the
    10 to 30 seconds of [retry_count = 0]. *)
Lemma C3_counterexample :
  let run := analyze_job_match env_limited "resume" (posting "Engineer") 0 world0 in
  let jitter := ((1 # 2) + ((3 # 2) - (1 # 2)) * random env_limited 1)%Q in
  exists throttle first_wait later,
    slept (snd run) = throttle :: first_wait :: later /\
    (jitter == 1)%Q /\
    (first_wait == backoff_delay 1 * jitter)%Q /\
    (first_wait == 40)%Q /\
    ~ (first_wait == backoff_delay 0 * jitter)%Q /\
    ~ (first_wait <= 30)%Q.
Proof.
  cbv zeta.
  destruct (slept (snd (analyze_job_match env_limited "resume" (posting "Engineer")
                          0 world0))) as [|throttle [|first_wait later]] eqn:Hlog;
    try (vm_compute in Hlog; discriminate).
  exists throttle, first_wait, later. split; [reflexivity|].
  vm_compute in Hlog. injection Hlog as _ <- _.
  repeat split; try reflexivity; intros H; vm_compute in H; discriminate || (now apply H).
Qed.

(** ** Company filters *)


Section FilterFacts.
Import PyStr.

Lemma prefix_occurs (s t : string) :
  String.prefix s t = true <-> exists after, t = s +:+ after.
Proof.
  revert t. induction s as [|c s IH]; intros t.
  - split; [intros _; now exists t|intros _; now destruct t].
  - destruct t as [|d t]; simpl;
      [split; [discriminate|intros [after H]; discriminate]|].
    destruct (ascii_dec c d) as [->|Hne].
    + rewrite IH. split; intros [after H]; exists after; [now rewrite H|now injection H].
    + split; [discriminate|]. intros [after H]. injection H as H _. congruence.
Qed.

Lemma contains_occurs (needle hay : string) :
  contains needle hay = true <-> occurs_in needle hay.
Proof.
  induction hay as [|c hay IH].
  - cbn [contains]. rewrite orb_false_r, prefix_occurs. split.
    + intros [after H]. now exists EmptyString, after.
    + intros ([|d before] & after & H); [now exists after|discriminate].
  - cbn [contains]. rewrite orb_true_iff, IH, prefix_occurs. split.
    + intros [[after H]|(before & after & H)].
      * now exists EmptyString, after.
      * exists (String c before), after. simpl. now rewrite H.
    + intros ([|d before] & after & H).
      * left. now exists after.
      * right. injection H as _ H. now exists before, after.
Qed.

Lemma lower_char_idempotent (c : ascii) : lower_char (lower_char c) = lower_char c.
Proof. destruct c as [[] [] [] [] [] [] [] []]; reflexivity. Qed.

Lemma lower_idempotent (s : string) : lower (lower s) = lower s.
Proof.
  induction s as [|c s IH]; simpl; [reflexivity|].
  now rewrite lower_char_idempotent, IH.
Qed.

(** Every filter set read from free text satisfies the invariant. *)
Lemma parse_company_list_lowercase (companies_text : string) :
  lowercase_entries (parse_company_list companies_text).
Proof.
  intros entry. unfold parse_company_list.
  destruct companies_text; [set_solver|].
  rewrite elem_of_list_to_set, list_elem_of_In, in_map_iff.
  intros (company & <- & _). apply lower_idempotent.
Qed.

Lemma existsb_elements (p : string -> bool) (companies : gset string) :
  existsb p (elements companies) = true <-> exists entry, entry ∈ companies /\ p entry = true.
Proof.
  rewrite existsb_exists. split; intros (entry & Hin & Hp); exists entry;
    (split; [|assumption]).
  - now apply elem_of_elements, list_elem_of_In.
  - now apply list_elem_of_In, elem_of_elements.
Qed.

End FilterFacts.

(** An entry of the excluded set that occurs in the lowered company name
    rejects the company. *)
Lemma excluded_entry_rejects (company : string) (included excluded : gset string)
    (s : string) :
  s ∈ excluded ->
  occurs_in s (PyStr.lower company) ->
  should_include_company company included excluded = false.
Proof.
  intros Hs Hocc. unfold should_include_company. cbv zeta.
  replace (existsb (fun e => PyStr.contains e (PyStr.lower company)) (elements excluded))
    with true; [reflexivity|].
  symmetry. apply existsb_elements. exists s. split; [assumption|].
  now apply contains_occurs.
Qed.

(** C6: a company whose name contains, letter case aside, an entry of
    the excluded set is rejected, whatever the included set holds.  The
    entries of a filter set are lowercase; the company name is lowered
    before the comparison. *)
Theorem C6_exclusion_first (company : string) (included excluded : gset string)
    (s : string) :
  lowercase_entries excluded ->
  s ∈ excluded ->
  occurs_in (PyStr.lower s) (PyStr.lower company) ->
  excluded <> ∅ /\ should_include_company company included excluded = false.
Proof.
  intros Hlower Hs Hocc. split; [set_solver|].
  apply (excluded_entry_rejects company included excluded s Hs).
  now rewrite <- (Hlower s Hs).
Qed.

Lemma C6_exclusion_first_witness :
  {["acme"]} <> (∅ : gset string) /\
  should_include_company "ACME Robotics Inc" {["acme"; "globex"]} {["acme"]} = false.
Proof.
  apply (C6_exclusion_first "ACME Robotics Inc" {["acme"; "globex"]} {["acme"]} "acme").
  - intros entry Hentry. apply elem_of_singleton in Hentry. now subst.
  - now apply elem_of_singleton.
  - exists EmptyString, " robotics inc". reflexivity.
Defined.

(** The entries themselves are compared as they are: the program relies
    on [parse_company_list] for their case. *)
Lemma uppercase_entry_never_matches :
  should_include_company "ACME Robotics Inc" ∅ {["ACME"]} = true.
Proof. vm_compute. reflexivity. Qed.

(** Filter sets read from text: exclusion wins for any two texts. *)
Lemma exclusion_first_parsed (company included_text excluded_text s : string) :
  s ∈ parse_company_list excluded_text ->
  occurs_in s (PyStr.lower company) ->
  should_include_company company (parse_company_list included_text)
    (parse_company_list excluded_text) = false.
Proof. apply excluded_entry_rejects. Qed.

(** C7: with both sets empty every company is accepted. *)
Theorem C7_no_filters (company : string) :
  should_include_company company ∅ ∅ = true.
Proof.
  unfold should_include_company. cbv zeta. rewrite elements_empty. reflexivity.
Qed.

(** ** The detail fetcher *)

Section DetailFacts.

(** The text the two loops of [get_job_description] stop at: the
    trimmed text of what the first candidate that has a hit finds. *)
Lemma first_text_some {A} (probe : A -> option node) (candidates : list A)
    (description : string) :
  first_text probe candidates = Some description ->
  exists before candidate after elem,
    candidates = (before ++ candidate :: after)%list /\
    Forall (fun c => probe c = None) before /\
    probe candidate = Some elem /\
    description = PyStr.strip (text elem).
Proof.
  unfold first_text. induction candidates as [|c rest IH]; [discriminate|].
  simpl. destruct (probe c) as [elem|] eqn:Hc; simpl.
  - intros [= <-]. exists [], c, rest, elem. repeat split; auto.
  - intros H. destruct (IH H) as (before & candidate & after & elem & -> & Hb & Hp & Hd).
    exists (c :: before), candidate, after, elem. repeat split; auto.
Qed.

Lemma first_text_none {A} (probe : A -> option node) (candidates : list A) :
  first_text probe candidates = None ->
  Forall (fun c => probe c = None) candidates.
Proof.
  unfold first_text. induction candidates as [|c rest IH]; [constructor|].
  simpl. destruct (probe c) as [elem|] eqn:Hc; simpl; [discriminate|].
  intros H. constructor; auto.
Qed.

End DetailFacts.


(** C9: [get_job_description] never raises; it returns the sentinel or
    text extracted by the ordered selectors or the keyword fallback, and
    the sentinel whenever the page cannot be fetched or parsed. *)
Theorem C9_description_or_sentinel (env : Env) (url : string) (w : World) :
  (exists description w',
      get_job_description env url w = (Ok description, w') /\
      (description = "Detailed description not available" \/
       exists soup,
         detail_get env (http_gets w) url = Ok soup /\
         extracted_from soup description)) /\
  (forall e,
      detail_get env (http_gets w) url = Raise e ->
      fst (get_job_description env url w) = Ok "Detailed description not available").
Proof.
  unfold get_job_description, try_except, bind, get_detail_page.
  destruct (detail_get env (http_gets w) url) as [soup|e] eqn:Hpage.
  - split; [|discriminate].
    destruct (first_text (fun selector => select_one_div selector soup)
                description_selectors) as [d|] eqn:Hsel.
    + eexists _, _. split; [reflexivity|]. right. exists soup.
      split; [reflexivity|]. left. now apply first_text_some.
    + destruct (first_text
                  (fun keyword =>
                     head (List.filter (mentions keyword) (flat_map elements_of soup)))
                  description_keywords) as [d|] eqn:Hkey.
      * eexists _, _. split; [reflexivity|]. right. exists soup.
        split; [reflexivity|]. right.
        split; [now apply first_text_none|]. now apply first_text_some.
      * eexists _, _. split; [reflexivity|]. now left.
  - split; [|intros e' _; reflexivity].
    eexists _, _. split; [reflexivity|]. now left.
Qed.

Lemma C9_description_or_sentinel_witness :
  fst (get_job_description env_limited "https://example.org/job/1" world0)
  = Ok "Detailed description not available".
Proof.
  apply (proj2 (C9_description_or_sentinel env_limited "https://example.org/job/1"
                  world0) (RequestException "timeout")).
  reflexivity.
Defined.

(** ** The listing fetcher *)

Section FetcherFacts.
Context (env : Env).

Lemma sample_job_title (location title company description : string) (w : World) :
  exists job w',
    sample_job env location title company description w = (Ok job, w') /\
    job !! "title" = Some (VStr title).
Proof.
  eexists _, _. split; [reflexivity|]. apply lookup_insert_eq.
Qed.

Lemma sample_loop_titles (location : string) (rows : list (string * string * string))
    (w : World) :
  exists samples w',
    sample_loop env location rows w = (Ok samples, w') /\
    length samples = length rows /\
    titles_of samples = map (fun row => Some (VStr (fst (fst row)))) rows.
Proof.
  revert w. induction rows as [|[[title company] description] rows IH]; intros w.
  - now exists [], w.
  - cbn [sample_loop]. unfold bind at 1.
    destruct (sample_job_title location title company description w)
      as (job & w1 & -> & Htitle).
    unfold bind at 1. destruct (IH w1) as (samples & w2 & -> & Hlen & Htitles).
    exists (job :: samples), w2. split; [reflexivity|].
    split; [simpl; now rewrite Hlen|].
    unfold titles_of in *. cbn [map fst]. now rewrite Htitle, Htitles.
Qed.

Lemma get_sample_jobs_five (role location : string) (w : World) :
  exists samples w',
    get_sample_jobs env role location w = (Ok samples, w') /\
    length samples = 5%nat /\
    titles_of samples = map (fun t => Some (VStr t)) (job_titles role).
Proof.
  unfold get_sample_jobs.
  destruct (sample_loop_titles location
              (combine (combine (job_titles role) companies) (descriptions role)) w)
    as (samples & w' & Hrun & Hlen & Htitles).
  exists samples, w'. split; [exact Hrun|]. split.
  - rewrite Hlen. unfold job_titles, companies, descriptions.
    cbn [combine length]. reflexivity.
  - rewrite Htitles. unfold job_titles, companies, descriptions.
    cbn [combine map fst]. reflexivity.
Qed.

Lemma length_append (s t : string) :
  String.length (s +:+ t) = (String.length s + String.length t)%nat.
Proof. induction s as [|c s IH]; simpl; [reflexivity|now rewrite IH]. Qed.

(** The five titles differ for every role (their lengths do). *)
Lemma job_titles_distinct (role : string) : NoDup (job_titles role).
Proof.
  apply (NoDup_fmap_1 String.length). unfold job_titles.
  cbn [fmap list_fmap]. rewrite !length_append. simpl.
  set (n := String.length role).
  repeat (apply NoDup_cons; split;
          [rewrite ?elem_of_cons, elem_of_nil; lia|]).
  apply NoDup_nil_2.
Qed.

Section Search.
Context (location : string) (distance : Z) (role : string) (days : option Z)
        (progress_callback : option (Z -> M unit))
        (included excluded : gset string).

Let scrape := scrape_linkedin_jobs env location distance role days
                progress_callback true included excluded.
Let first_request := request_of location distance role days locals0.

Lemma search_loop_crash (stream_jobs : bool) (turns : nat) (w : World) (e : exn) :
  search_get env (http_gets w) first_request = Raise e ->
  is_request_exception e = false ->
  search_loop env location distance role days progress_callback stream_jobs
    included excluded (S turns) locals0 w
  = (Ok (Crashed e, locals0), count_http w).
Proof.
  intros Hget He. subst first_request. cbn [search_loop].
  change (total_jobs_found locals0 <? max_jobs)%Z with true. cbn [negb].
  unfold get_search_page. rewrite Hget.
  destruct e; try discriminate; reflexivity.
Qed.

(** An exception of the first page request that is not a transport
    error reaches the outer handler, which yields the samples; the
    code after the handler then yields a second set, as nothing had
    been accepted. *)
Lemma crash_yields_samples_twice (turns : nat) (w : World) (e : exn) :
  search_get env (http_gets w) first_request = Raise e ->
  is_request_exception e = false ->
  exists samples samples' w',
    scrape (S turns) w
    = (Ok (Some {| produced := (samples ++ samples')%list; returned := None |}), w') /\
    length samples = 5%nat /\ length samples' = 5%nat /\
    titles_of samples = map (fun t => Some (VStr t)) (job_titles role) /\
    titles_of samples' = map (fun t => Some (VStr t)) (job_titles role).
Proof.
  intros Hget He. subst scrape.
  unfold scrape_linkedin_jobs. unfold bind at 1.
  rewrite (search_loop_crash true turns w e Hget He). cbn [fst snd].
  destruct (get_sample_jobs_five role location (count_http w))
    as (samples & w1 & Hs & Hlen & Ht).
  destruct (get_sample_jobs_five role location w1)
    as (samples' & w2 & Hs' & Hlen' & Ht').
  exists samples, samples', w2.
  split; [|repeat split; assumption].
  unfold bind at 1. rewrite Hs.
  cbn [yield_from filtered_count locals0]. change (0 =? 0)%Z with true. cbv iota.
  unfold bind at 1. rewrite Hs'. reflexivity.
Qed.

(** A first page without cards ends the search; the samples are
    yielded once. *)
Lemma empty_page_yields_samples_once (turns : nat) (w : World) (soup : list node) :
  search_get env (http_gets w) first_request = Ok soup ->
  find_all ["div"] ["base-card"; "job-search-card"] soup = [] ->
  exists samples w',
    scrape (S turns) w
    = (Ok (Some {| produced := samples; returned := None |}), w') /\
    length samples = 5%nat /\
    titles_of samples = map (fun t => Some (VStr t)) (job_titles role).
Proof.
  intros Hget Hcards. subst scrape first_request.
  unfold scrape_linkedin_jobs. unfold bind at 1. cbn [search_loop].
  change (total_jobs_found locals0 <? max_jobs)%Z with true. cbn [negb].
  unfold get_search_page. rewrite Hget, Hcards.
  destruct (get_sample_jobs_five role location (count_http w))
    as (samples & w1 & Hs & Hlen & Ht).
  exists samples, w1. split; [|split; assumption].
  cbn [fst snd filtered_count locals0]. change (0 =? 0)%Z with true. cbv iota.
  unfold bind at 1. rewrite Hs. reflexivity.
Qed.

End Search.
End FetcherFacts.

(** ** What the search loop keeps true when streaming *)

Section StreamInvariant.
Context (env : Env) (location : string) (distance : Z) (role : string)
        (days : option Z) (progress_callback : option (Z -> M unit))
        (included excluded : gset string).


Lemma get_job_description_returns (url : string) (w : World) :
  exists description w', get_job_description env url w = (Ok description, w').
Proof.
  unfold get_job_description, try_except.
  match goal with |- context [match ?b w with _ => _ end] =>
    destruct (b w) as [[d|e] w'] end; eauto.
Qed.

Lemma process_card_counted (st : Locals) (card : node) (w : World) :
  counted st ->
  exists r w',
    process_card env location progress_callback true included excluded st card w
    = (Ok r, w') /\ counted (fst r).
Proof.
  intros [H0 Hy]. unfold process_card.
  assert (Hsame : forall b w', exists r w'' ,
             (ret (st, b) : M (Locals * bool)) w' = (Ok r, w'') /\ counted (fst r))
    by (intros b w'; eexists _, _; split; [reflexivity|split; assumption]).
  assert (Hfound : forall w', exists r w'' ,
             (ret (count_found st, false) : M (Locals * bool)) w' = (Ok r, w'')
             /\ counted (fst r))
    by (intros w'; eexists _, _; split; [reflexivity|split; assumption]).
  destruct (find ["h3"; "h4"] _ card) as [title_elem|]; [|apply Hfound].
  destruct (find ["h4"; "h5"] _ card) as [company_elem|]; [|apply Hfound].
  destruct (negb (should_include_company _ included excluded)); [apply Hsame|].
  unfold try_except at 1. unfold bind at 1.
  match goal with |- context [match ?d w with _ => _ end] =>
    assert (Hd : exists description w1, d w = (Ok description, w1)) end.
  { destruct (find ["a"] _ card) as [link|]; [|eexists _, _; reflexivity].
    destruct (get_attr "href" link) as [[|c url]|];
      try (eexists _, _; reflexivity).
    apply get_job_description_returns. }
  destruct Hd as (description & w1 & ->).
  unfold bind at 1. unfold posted_date_of at 1, datetime_now, randint, random_random.
  run_monad.
  match goal with |- context [match ?cb with Some _ => _ | None => _ end ?w2] =>
    destruct cb as [callback|] end.
  - match goal with |- context [callback ?n ?w2] =>
      destruct (callback n w2) as [[[]|e] w3] end.
    + match goal with |- context [(?a >=? max_jobs)%Z] => destruct (a >=? max_jobs)%Z end;
        eexists _, _; (split; [reflexivity|]); unfold counted; simpl; split; intros; lia.
    + eexists _, _. split; [reflexivity|]. unfold counted. simpl. split; intros; [lia|].
      specialize (Hy H). lia.
  - match goal with |- context [(?a >=? max_jobs)%Z] => destruct (a >=? max_jobs)%Z end;
      eexists _, _; (split; [reflexivity|]); unfold counted; simpl; split; intros; lia.
Qed.

Lemma process_cards_counted (cards : list node) (st : Locals) (w : World) :
  counted st ->
  exists st' w',
    process_cards env location progress_callback true included excluded st cards w
    = (Ok st', w') /\ counted st'.
Proof.
  revert st w. induction cards as [|card rest IH]; intros st w Hst.
  - now exists st, w.
  - cbn [process_cards]. unfold bind at 1.
    destruct (process_card_counted st card w Hst) as ([st1 stop] & w1 & -> & H1).
    cbn [fst snd] in *. destruct stop; [now exists st1, w1|]. now apply IH.
Qed.

Lemma search_loop_counted (turns : nat) (st : Locals) (w : World) :
  counted st ->
  exists how st' w',
    search_loop env location distance role days progress_callback true
      included excluded turns st w = (Ok (how, st'), w') /\
    counted st'.
Proof.
  revert st w. induction turns as [|turns IH]; intros st w Hst; cbn [search_loop].
  - destruct (total_jobs_found st <? max_jobs)%Z; eexists _, _, _; split;
      try reflexivity; assumption.
  - destruct (negb (total_jobs_found st <? max_jobs)%Z);
      [eexists _, _, _; split; [reflexivity|assumption]|].
    unfold get_search_page.
    destruct (search_get env (http_gets w) _) as [soup|e].
    + destruct (find_all ["div"] _ soup) as [|card cards] eqn:Hcards;
        [eexists _, _, _; split; [reflexivity|assumption]|].
      unfold bind at 1.
      destruct (process_cards_counted (card :: cards) st (count_http w) Hst)
        as (st1 & w1 & -> & H1).
      destruct (filtered_count st1 >=? max_jobs)%Z;
        [eexists _, _, _; split; [reflexivity|assumption]|].
      unfold uniform, random_random, sleep. run_monad.
      apply IH. destruct H1 as [Ha Hb]. split; simpl; assumption.
    + destruct e; try (eexists _, _, _; split; [reflexivity|assumption]).
      unfold uniform, random_random, sleep. run_monad. now apply IH.
Qed.

(** When the search ends with nothing accepted, the consumer gets the
    five samples once after a regular end of the loop, and twice after
    an exception. *)
Lemma scrape_nothing_accepted (turns : nat) (w w1 : World) (how : loop_end)
    (st : Locals) :
  search_loop env location distance role days progress_callback true
    included excluded turns locals0 w = (Ok (how, st), w1) ->
  filtered_count st = 0%Z ->
  exists samples samples' w',
    length samples = 5%nat /\ length samples' = 5%nat /\
    scrape_linkedin_jobs env location distance role days progress_callback true
      included excluded turns w
    = (Ok match how with
          | Running => None
          | Finished => Some {| produced := samples; returned := None |}
          | Crashed _ =>
              Some {| produced := (samples ++ samples')%list; returned := None |}
          end, w').
Proof.
  intros Hloop Hzero.
  destruct (search_loop_counted turns locals0 w) as (how' & st' & w1' & Hloop' & Hc).
  { split; simpl; [lia|congruence]. }
  rewrite Hloop in Hloop'. injection Hloop' as <- <- <-.
  assert (Hy : yielded st = []).
  { destruct Hc as [_ Hc]. destruct (yielded st); [reflexivity|].
    exfalso. assert (0 < filtered_count st)%Z by (apply Hc; discriminate). lia. }
  unfold scrape_linkedin_jobs. unfold bind at 1. rewrite Hloop. cbn [fst snd].
  destruct (get_sample_jobs_five env role location w1)
    as (samples & w2 & Hs & Hlen & _).
  destruct (get_sample_jobs_five env role location w2)
    as (samples' & w3 & Hs' & Hlen' & _).
  destruct how as [|e|].
  - exists samples, samples', w2. split; [assumption|]. split; [assumption|].
    rewrite Hzero. change (0 =? 0)%Z with true. cbv iota.
    unfold bind at 1. rewrite Hs. unfold ret, yield_from. cbn [yielded].
    now rewrite Hy.
  - exists samples, samples', w3. split; [assumption|]. split; [assumption|].
    unfold bind at 1. rewrite Hs. cbn [yield_from filtered_count].
    rewrite Hzero. change (0 =? 0)%Z with true. cbv iota.
    unfold bind at 1. rewrite Hs'. unfold ret, yield_from. cbn [yielded].
    now rewrite Hy.
  - exists samples, samples', w1. split; [assumption|]. split; [assumption|].
    reflexivity.
Qed.

End StreamInvariant.

(** The sibling path: without streaming the handler returns, so the
    samples are delivered once when nothing had been collected. *)
Lemma crash_returns_samples_once (env : Env) (location : string) (distance : Z)
    (role : string) (days : option Z) (progress_callback : option (Z -> M unit))
    (included excluded : gset string) (turns : nat) (w : World) (e : exn) :
  search_get env (http_gets w) (request_of location distance role days locals0)
  = Raise e ->
  is_request_exception e = false ->
  exists samples w',
    scrape_linkedin_jobs env location distance role days progress_callback false
      included excluded (S turns) w
    = (Ok (Some {| produced := []; returned := Some samples |}), w') /\
    length samples = 5%nat.
Proof.
  intros Hget He.
  unfold scrape_linkedin_jobs. unfold bind at 1.
  rewrite (search_loop_crash env location distance role days progress_callback
             included excluded false turns w e Hget He).
  cbn [fst snd jobs locals0].
  destruct (get_sample_jobs_five env role location (count_http w))
    as (samples & w1 & Hs & Hlen & _).
  exists samples, w1. split; [|assumption].
  unfold bind at 1. rewrite Hs. reflexivity.
Qed.

(** C4, where the code departs from it: when the first page request
    raises an exception that is not a transport error, nothing has been
    accepted and the streaming generator yields ten postings, the five
    samples twice, instead of five. *)
Theorem C4_crash_yields_ten (env : Env) (location : string) (distance : Z)
    (role : string) (days : option Z) (progress_callback : option (Z -> M unit))
    (included excluded : gset string) (turns : nat) (w : World) (e : exn) :
  search_get env (http_gets w) (request_of location distance role days locals0)
  = Raise e ->
  is_request_exception e = false ->
  exists generated w',
    scrape_linkedin_jobs env location distance role days progress_callback true
      included excluded (S turns) w = (Ok (Some generated), w') /\
    length (produced generated) = 10%nat /\
    titles_of (produced generated)
    = map (fun t => Some (VStr t)) (job_titles role ++ job_titles role).
Proof.
  intros Hget He.
  destruct (crash_yields_samples_twice env location distance role days
              progress_callback included excluded turns w e Hget He)
    as (samples & samples' & w' & Hrun & Hlen & Hlen' & Ht & Ht').
  eexists _, w'. split; [exact Hrun|]. cbn [produced]. split.
  - rewrite length_app. lia.
  - unfold titles_of in *. now rewrite !map_app, Ht, Ht'.
Qed.

Lemma C4_crash_yields_ten_witness :
  exists generated w',
    scrape_linkedin_jobs env_limited "Remote" 25 "Engineer" None None true ∅ ∅ 1 world0
    = (Ok (Some generated), w') /\
    length (produced generated) = 10%nat /\
    titles_of (produced generated)
    = map (fun t => Some (VStr t))
        (job_titles "Engineer" ++ job_titles "Engineer").
Proof.
  apply (C4_crash_yields_ten env_limited "Remote" 25 "Engineer" None None ∅ ∅ 0 world0
           (Exception "parser failure")); reflexivity.
Defined.

Lemma C5_top_matches_witness :
  exists st,
    handle_all init [with_match (posting "A") 40 "fair"; with_match (posting "B") 90 "good"]
    = (Ok tt, st) /\
    analyzed_jobs st
    = [with_match (posting "A") 40 "fair"; with_match (posting "B") 90 "good"] /\
    length (top_matches st) = 2%nat.
Proof.
  destruct (proj1 (C5_top_matches
                     [with_match (posting "A") 40 "fair";
                      with_match (posting "B") 90 "good"]
                     ltac:(constructor; [|constructor; [|constructor]];
                           apply with_match_scored_posting, posting_well_formed)))
    as (st & Hrun & Hjobs & _ & Hlen & _).
  exists st. split; [exact Hrun|]. split; [exact Hjobs|exact Hlen].
Defined.

(** ** The model on a small site *)

Example parse_superscript_rejected :
  exists msg,
    parse_response ("5" +:+ String (ascii_of_nat 178) "|squared") = Raise (ValueError msg).
Proof. eexists. vm_compute. reflexivity. Qed.

Example detail_page_text :
  fst (get_job_description env_site "https://example.org/job/1" world0)
  = Ok "Build things.".
Proof. vm_compute. reflexivity. Qed.

Example search_yields_accepted_card :
  yielded_titles
    (scrape_linkedin_jobs env_site "Austin" 25 "Engineer" (Some 7) None true ∅ ∅ 3 world0)
  = [Some (VStr "Engineer")].
Proof. vm_compute. reflexivity. Qed.

Example search_with_all_excluded :
  yielded_titles
    (scrape_linkedin_jobs env_site "Austin" 25 "Engineer" (Some 7) None true ∅
       {["initech"]} 3 world0)
  = map (fun t => Some (VStr t)) (job_titles "Engineer").
Proof. vm_compute. reflexivity. Qed.

Example scoring_an_answer :
  fst (analyze_job_match env_site "resume" (posting "Engineer") 0 world0)
  = Ok (with_match (posting "Engineer") 85 "Strong fit, leadership").
Proof.
  destruct (prepare_prompt env_site "resume" (posting "Engineer") world0)
    as [[prompt|e] w1] eqn:Hp; [|vm_compute in Hp; discriminate].
  now rewrite (analyze_job_match_answered _ _ _ _ _ _ _ Hp
                 ["85|Strong fit, leadership"] eq_refl).
Qed.

(* ===================================================================== *)
(** * Further properties of the company filters *)
(* ===================================================================== *)

Section StripFacts.
Import PyStr.

Lemma lstrip_head (s : string) (c : ascii) (r : string) :
  lstrip s = String c r -> isspace c = false.
Proof.
  induction s as [|d s IH]; simpl; [discriminate|].
  destruct (isspace d) eqn:Hd; [exact IH|]. intros [= <- _]. exact Hd.
Qed.

Lemma lstrip_fixed (s : string) :
  match s with
  | EmptyString => True
  | String c _ => isspace c = false
  end ->
  lstrip s = s.
Proof. destruct s as [|c s]; simpl; [reflexivity|]. now intros ->. Qed.

Lemma lstrip_idempotent (s : string) : lstrip (lstrip s) = lstrip s.
Proof.
  apply lstrip_fixed. destruct (lstrip s) as [|c r] eqn:H; [exact I|].
  exact (lstrip_head _ _ _ H).
Qed.

Lemma rstrip_head (c : ascii) (s : string) :
  isspace c = false -> exists r, rstrip (String c s) = String c r.
Proof.
  intros Hc. simpl. destruct (rstrip s) as [|d r].
  - rewrite Hc. now exists EmptyString.
  - now exists (String d r).
Qed.

Lemma rstrip_idempotent (s : string) : rstrip (rstrip s) = rstrip s.
Proof.
  induction s as [|c s IH]; simpl; [reflexivity|].
  destruct (rstrip s) as [|d r] eqn:Hr.
  - destruct (isspace c) eqn:Hc; simpl; [reflexivity|]. now rewrite Hc.
  - change (rstrip (String c (String d r)))
      with (match rstrip (String d r) with
            | EmptyString => if isspace c then EmptyString else String c EmptyString
            | String a b => String c (String a b)
            end).
    now rewrite IH.
Qed.

(** [strip] leaves a trimmed text as it is. *)
Lemma strip_idempotent (s : string) : strip (strip s) = strip s.
Proof.
  unfold strip.
  assert (H : lstrip (rstrip (lstrip s)) = rstrip (lstrip s)).
  { apply lstrip_fixed. destruct (lstrip s) as [|c r] eqn:Hl; [exact I|].
    pose proof (lstrip_head _ _ _ Hl) as Hc.
    destruct (rstrip_head c r Hc) as (r' & ->). exact Hc. }
  rewrite H. apply rstrip_idempotent.
Qed.

Lemma isspace_lower_char (c : ascii) : isspace (lower_char c) = isspace c.
Proof. destruct c as [[] [] [] [] [] [] [] []]; reflexivity. Qed.

Lemma lstrip_lower (s : string) : lstrip (lower s) = lower (lstrip s).
Proof.
  induction s as [|c s IH]; simpl; [reflexivity|].
  rewrite isspace_lower_char. now destruct (isspace c).
Qed.

Lemma rstrip_lower (s : string) : rstrip (lower s) = lower (rstrip s).
Proof.
  induction s as [|c s IH]; simpl; [reflexivity|].
  rewrite IH, isspace_lower_char.
  destruct (rstrip s) as [|d r]; simpl; [now destruct (isspace c)|reflexivity].
Qed.

Lemma strip_lower (s : string) : strip (lower s) = lower (strip s).
Proof. unfold strip. now rewrite lstrip_lower, rstrip_lower. Qed.

Lemma lower_empty (s : string) : lower s = EmptyString -> s = EmptyString.
Proof. now destruct s. Qed.

End StripFacts.

(** X1: [should_include_company] accepts a company exactly when no entry
    of the excluded set occurs in its lowered name and the included set
    is empty or has an entry that occurs in it. *)
Theorem X1_should_include_company_iff (company : string)
    (included excluded : gset string) :
  should_include_company company included excluded = true <->
  (forall entry, entry ∈ excluded -> ~ occurs_in entry (PyStr.lower company)) /\
  (included = ∅ \/
   exists entry, entry ∈ included /\ occurs_in entry (PyStr.lower company)).
Proof.
  unfold should_include_company. cbv zeta.
  destruct (existsb (fun e => PyStr.contains e (PyStr.lower company))
              (elements excluded)) eqn:Hex.
  - apply existsb_elements in Hex. destruct Hex as (entry & Hin & Hc).
    apply contains_occurs in Hc.
    split; [discriminate|]. intros [Hnone _]. now destruct (Hnone entry Hin).
  - assert (Hnone : forall entry, entry ∈ excluded ->
                                  ~ occurs_in entry (PyStr.lower company)).
    { intros entry Hin Hocc. apply contains_occurs in Hocc.
      assert (existsb (fun e => PyStr.contains e (PyStr.lower company))
                (elements excluded) = true)
        by (apply existsb_elements; eauto).
      congruence. }
    destruct (bool_decide (included = ∅)) eqn:Hinc.
    + apply bool_decide_eq_true in Hinc. split; [|reflexivity].
      intros _. split; [exact Hnone|now left].
    + apply bool_decide_eq_false in Hinc. rewrite existsb_elements. split.
      * intros (entry & Hin & Hc). split; [exact Hnone|]. right.
        exists entry. split; [assumption|]. now apply contains_occurs.
      * intros [_ [Hempty|(entry & Hin & Hocc)]]; [contradiction|].
        exists entry. split; [assumption|]. now apply contains_occurs.
Qed.

(** X2: the entries [parse_company_list] reads from a text are never
    empty, and are lowercase and trimmed. *)
Theorem X2_parse_company_list_entries (companies_text entry : string) :
  entry ∈ parse_company_list companies_text ->
  entry <> EmptyString /\ PyStr.lower entry = entry /\ PyStr.strip entry = entry.
Proof.
  unfold parse_company_list. destruct companies_text as [|c text]; [set_solver|].
  rewrite elem_of_list_to_set, list_elem_of_In, in_map_iff.
  intros (company & <- & Hin). apply filter_In in Hin. destruct Hin as [_ Hne].
  split; [|split].
  - intros H. apply lower_empty in H. now rewrite H in Hne.
  - apply lower_idempotent.
  - rewrite strip_lower. now rewrite strip_idempotent.
Qed.

Lemma X2_parse_company_list_entries_witness :
  "acme corp" <> EmptyString /\ PyStr.lower "acme corp" = "acme corp"
  /\ PyStr.strip "acme corp" = "acme corp".
Proof.
  apply (X2_parse_company_list_entries ("  Acme Corp " +:+ PyStr.nl +:+ "Globex")).
  vm_compute. reflexivity.
Defined.

(** X3: an excluded set that holds the empty string rejects every
    company, since the empty string occurs in every name. *)
Theorem X3_empty_entry_rejects_all (company : string) (included excluded : gset string) :
  EmptyString ∈ excluded ->
  should_include_company company included excluded = false.
Proof.
  intros Hin. apply (excluded_entry_rejects company included excluded EmptyString Hin).
  now exists EmptyString, (PyStr.lower company).
Qed.

Lemma X3_empty_entry_rejects_all_witness :
  should_include_company "Initech" {["initech"]} {[EmptyString]} = false.
Proof.
  apply X3_empty_entry_rejects_all. now apply elem_of_singleton.
Defined.

(* ===================================================================== *)
(** * Further properties of the match scorer *)
(* ===================================================================== *)

Section ScorerMore.
Context (env : Env) (resume_text : string) (job : Job).

(** Before the request: a missing title or company ends the call at
    once, otherwise the pause is taken whatever follows. *)
Lemma prepare_prompt_world (w : World) :
  match job !! "title", job !! "company" with
  | None, _ => prepare_prompt env resume_text job w = (Raise (KeyError "title"), w)
  | Some _, None =>
      prepare_prompt env resume_text job w = (Raise (KeyError "company"), w)
  | Some _, Some _ =>
      exists r, prepare_prompt env resume_text job w = (r, throttled env w)
                /\ (job !! "description" = None -> r = Raise (KeyError "description"))
  end.
Proof.
  unfold prepare_prompt, throttled, getitem, uniform, random_random, sleep. run_monad.
  destruct (job !! "title"); [|reflexivity].
  destruct (job !! "company"); [|reflexivity]. simpl.
  destruct (job !! "description") as [d|]; [|eexists; split; [reflexivity|reflexivity]].
  destruct (len d); [|eexists; split; [reflexivity|discriminate]].
  match goal with |- context [(?n >? 200)%Z] => destruct (n >? 200)%Z end;
    [destruct (slice200 d)|]; eexists; (split; [reflexivity|discriminate]).
Qed.

Lemma api_calls_throttled (w : World) : api_calls (throttled env w) = api_calls w.
Proof. reflexivity. Qed.

Lemma slept_throttled (w : World) :
  slept (throttled env w)
  = (slept w ++ [(5 + (10 - 5) * random env (random_draws w))%Q])%list.
Proof. reflexivity. Qed.

(** Every result carries a score of 0..100 and a reasoning. *)
Lemma analyze_job_match_well_scored (retry_count : Z) (w : World) :
  exists out w',
    analyze_job_match env resume_text job retry_count w = (Ok out, w') /\
    well_scored job out.
Proof.
  revert retry_count w. apply retry_induction. intros retry_count w IH.
  assert (Herr : forall e, well_scored job (error_posting job e)).
  { intros e. eexists 0%Z, _. split; [reflexivity|]. split; [lia|discriminate]. }
  destruct (analyze_job_match_step env resume_text job retry_count w)
    as [e w1 _ Hr|prompt w1 content _ _ (out & Hr & Hout)|prompt w1 e _ _ _ Hr
        |prompt w1 msg _ _ _ Hr|prompt w1 msg _ _ Hlt Hr];
    rewrite Hr; eauto.
  eexists _, _. split; [reflexivity|].
  destruct (response_text_of content) as [t|e]; [|subst; apply Herr].
  destruct (parse_response t) as [[score reasoning]|e] eqn:Hparse; subst.
  - apply parse_response_sound in Hparse.
    destruct Hparse as (l & r & _ & _ & _ & _ & Hrange & _ & Hne).
    now exists score, reasoning.
  - eexists 0%Z, _. split; [reflexivity|]. split; [lia|discriminate].
Qed.

End ScorerMore.

(** X4: whatever the API does, [analyze_job_match] returns the posting
    with an integer [match_score] of 0..100 and a text [match_reasoning]
    that is not empty, and leaves every other field of the posting as it
    was. *)
Theorem X4_scored_posting_invariant (env : Env) (resume_text : string) (job : Job)
    (retry_count : Z) (w : World) :
  exists out w' score reasoning,
    analyze_job_match env resume_text job retry_count w = (Ok out, w') /\
    out !! "match_score" = Some (VInt score) /\ (0 <= score <= 100)%Z /\
    out !! "match_reasoning" = Some (VStr reasoning) /\ reasoning <> EmptyString /\
    forall key, key <> "match_score" -> key <> "match_reasoning" ->
                out !! key = job !! key.
Proof.
  destruct (analyze_job_match_well_scored env resume_text job retry_count w)
    as (out & w' & Hrun & score & reasoning & -> & Hrange & Hne).
  exists (with_match job score reasoning), w', score, reasoning.
  split; [exact Hrun|]. split; [apply with_match_score|]. split; [exact Hrange|].
  split; [apply with_match_reasoning|]. split; [exact Hne|].
  intros key H1 H2. now apply with_match_other.
Qed.

(** X5: a posting without a title, or with a title and without a
    company, is returned at once, with no pause and no request, the
    reasoning naming the missing key; when only the description is
    missing the pause before the request is still taken, and no request
    is made. *)
Theorem X5_missing_field (env : Env) (resume_text : string) (job : Job)
    (retry_count : Z) (w : World) :
  let run := analyze_job_match env resume_text job retry_count w in
  (job !! "title" = None ->
   run = (Ok (with_match job 0 "Error during analysis: 'title'"), w)) /\
  (job !! "title" <> None -> job !! "company" = None ->
   run = (Ok (with_match job 0 "Error during analysis: 'company'"), w)) /\
  (job !! "title" <> None -> job !! "company" <> None ->
   job !! "description" = None ->
   run = (Ok (with_match job 0 "Error during analysis: 'description'"),
          throttled env w)
   /\ api_calls (snd run) = api_calls w).
Proof.
  cbv zeta. pose proof (prepare_prompt_world env resume_text job w) as Hp.
  destruct (job !! "title") as [t|]; destruct (job !! "company") as [c|];
    repeat split; try congruence; intros.
  - destruct Hp as (r & Hp & Hd). rewrite (Hd H1) in Hp.
    now rewrite (analyze_job_match_unprepared _ _ _ _ _ _ _ Hp).
  - destruct Hp as (r & Hp & Hd). rewrite (Hd H1) in Hp.
    now rewrite (analyze_job_match_unprepared _ _ _ _ _ _ _ Hp).
  - now rewrite (analyze_job_match_unprepared _ _ _ _ _ _ _ Hp).
  - now rewrite (analyze_job_match_unprepared _ _ _ _ _ _ _ Hp).
  - now rewrite (analyze_job_match_unprepared _ _ _ _ _ _ _ Hp).
Qed.

Lemma X5_missing_field_witness :
  analyze_job_match env_limited "resume" (delete "title" (posting "Engineer")) 0 world0
  = (Ok (with_match (delete "title" (posting "Engineer")) 0
           "Error during analysis: 'title'"), world0).
Proof.
  apply (proj1 (X5_missing_field env_limited "resume"
                  (delete "title" (posting "Engineer")) 0 world0)).
  apply lookup_delete_eq.
Defined.

Section BatchMore.
Context (env : Env) (resume_text : string).

(** The two ways [analyze_matches] ends: the loop and the sort went
    through, or something raised and every posting gets the fallback. *)
Lemma analyze_matches_cases (jobs : list Job)
    (progress_callback : option (Job -> M unit)) (w : World) :
  (exists matched_jobs outs w',
      score_each env resume_text progress_callback jobs w = (Ok matched_jobs, w') /\
      sorted_reverse match_score_key matched_jobs = Ok outs /\
      analyze_matches env resume_text jobs progress_callback w = (Ok outs, w')) \/
  (exists w',
      analyze_matches env resume_text jobs progress_callback w
      = (Ok (map analysis_failed jobs), w')).
Proof.
  unfold analyze_matches, try_except.
  match goal with |- context [match ?body w with _ => _ end] =>
    destruct (body w) as [[outs|e] w1] eqn:Hbody end;
    [|right; eexists; reflexivity].
  left. revert Hbody. unfold bind at 1.
  destruct (getenv env "ANTHROPIC_API_KEY") as [[|c key]|];
    try (unfold raise; discriminate).
  unfold ret at 1. unfold bind at 1. unfold lift at 1.
  destruct (new_client env (String c key)) as [[]|e]; [|discriminate].
  unfold bind at 1.
  destruct (score_each env resume_text progress_callback jobs w)
    as [[matched|e] w2] eqn:Hloop; [|discriminate].
  unfold lift. intros [= Hsort <-].
  exists matched, outs, w2. repeat split; assumption.
Qed.

Lemma score_each_well_scored (callback : option (Job -> M unit)) (jobs : list Job)
    (w w' : World) (outs : list Job) :
  score_each env resume_text callback jobs w = (Ok outs, w') ->
  Forall2 well_scored jobs outs.
Proof.
  revert w w' outs. induction jobs as [|job rest IH]; intros w w' outs.
  - intros [= <- _]. constructor.
  - cbn [score_each]. unfold bind at 1.
    destruct (analyze_job_match_well_scored env resume_text job 0 w)
      as (out & w1 & -> & Hout).
    unfold bind at 1.
    match goal with |- context [match ?c w1 with _ => _ end] =>
      destruct (c w1) as [[[]|e] w2] end; [|discriminate].
    unfold uniform, random_random, sleep. run_monad.
    match goal with |- context [score_each env resume_text callback rest ?w3] =>
      destruct (score_each env resume_text callback rest w3)
        as [[outs'|e] w4] eqn:Hrest end; [|discriminate].
    intros [= <- _]. constructor; [exact Hout|]. eapply IH. exact Hrest.
Qed.

(** Six requests per posting at most, when no callback interferes. *)
Lemma score_each_api_calls (jobs : list Job) (w : World) :
  (api_calls (snd (score_each env resume_text None jobs w))
   <= api_calls w + 6 * length jobs)%nat.
Proof.
  revert w. induction jobs as [|job rest IH]; intros w; [simpl; lia|].
  cbn [score_each]. unfold bind at 1.
  pose proof (api_calls_bound env resume_text job 0 w) as Hcalls.
  pose proof (recursion_depth_bound env resume_text job 0 w) as Hdepth.
  change (Z.to_nat (max_retries - 0)) with 5%nat in Hdepth.
  destruct (analyze_job_match env resume_text job 0 w) as [[out|e] w1];
    cbn [snd] in *; [|simpl; lia].
  unfold uniform, random_random, sleep. run_monad.
  match goal with |- context [score_each env resume_text None rest ?w3] =>
    specialize (IH w3);
    destruct (score_each env resume_text None rest w3) as [[outs|e] w4] end;
    simpl in *; lia.
Qed.

End BatchMore.

(** X6: without an API key in the environment (unset or empty)
    [analyze_matches] scores nothing: it returns every input posting, in
    input order, with [match_score] 0 and the reasoning "Analysis
    failed", makes no request and takes no pause. *)
Theorem X6_no_api_key (env : Env) (resume_text : string) (jobs : list Job)
    (progress_callback : option (Job -> M unit)) (w : World) :
  getenv env "ANTHROPIC_API_KEY" = None
  \/ getenv env "ANTHROPIC_API_KEY" = Some EmptyString ->
  analyze_matches env resume_text jobs progress_callback w
  = (Ok (map (fun job => with_match job 0 "Analysis failed") jobs), w).
Proof.
  intros [H|H]; unfold analyze_matches, try_except; unfold bind at 1; rewrite H;
    reflexivity.
Qed.

Lemma X6_no_api_key_witness :
  analyze_matches
    {| messages_create := fun _ _ => Ok ["90|fine"];
       random := fun _ => 0%Q;
       getenv := fun _ => None;
       new_client := fun _ => Ok tt;
       search_get := fun _ _ => Ok [];
       detail_get := fun _ _ => Ok [];
       now := fun _ => 0%Z;
       strftime := fun _ => EmptyString;
       fromisoformat := fun _ => None |}
    "resume" [posting "Engineer"] None world0
  = (Ok [with_match (posting "Engineer") 0 "Analysis failed"], world0).
Proof.
  apply (X6_no_api_key _ "resume" [posting "Engineer"] None world0).
  left. reflexivity.
Defined.



(** X8: every posting [analyze_matches] returns has an integer
    [match_score] of 0..100 and a text reasoning, on the regular path and
    on the fallback path. *)
Theorem X8_batch_scores_in_range (env : Env) (resume_text : string) (jobs : list Job)
    (progress_callback : option (Job -> M unit)) (w : World) :
  exists outs w',
    analyze_matches env resume_text jobs progress_callback w = (Ok outs, w') /\
    Forall (fun out : Job =>
              exists score reasoning,
                out !! "match_score" = Some (VInt score) /\ (0 <= score <= 100)%Z /\
                out !! "match_reasoning" = Some (VStr reasoning) /\
                reasoning <> EmptyString) outs.
Proof.
  destruct (analyze_matches_cases env resume_text jobs progress_callback w)
    as [(matched & outs & w' & Hloop & Hsort & ->)|(w' & ->)].
  - exists outs, w'. split; [reflexivity|].
    pose proof (score_each_well_scored _ _ _ _ _ _ _ Hloop) as Hws.
    assert (Hm : Forall (fun out : Job =>
              exists score reasoning,
                out !! "match_score" = Some (VInt score) /\ (0 <= score <= 100)%Z /\
                out !! "match_reasoning" = Some (VStr reasoning) /\
                reasoning <> EmptyString) matched).
    { clear -Hws. induction Hws as [|job out ? ? (s & r & -> & Hr & Hne) _ IH];
        constructor; [|exact IH].
      exists s, r. split; [apply with_match_score|]. split; [exact Hr|].
      split; [apply with_match_reasoning|exact Hne]. }
    assert (Hsc : Forall scored matched).
    { clear -Hws. induction Hws as [|job out ? ? (s & r & -> & _) _ IH];
        constructor; [apply with_match_scored|exact IH]. }
    destruct (sorted_reverse_spec match_score_key matched Hsc)
      as (outs' & Hsort' & Hperm & _).
    rewrite Hsort in Hsort'. injection Hsort' as <-.
    now apply (Permutation_Forall Hperm).
  - eexists _, w'. split; [reflexivity|].
    apply List.Forall_forall. intros out Hout. apply in_map_iff in Hout.
    destruct Hout as (job & <- & _). exists 0%Z, "Analysis failed".
    split; [apply with_match_score|]. split; [lia|].
    split; [apply with_match_reasoning|discriminate].
Qed.

(** X9: without a progress callback [analyze_matches] sends at most six
    requests per posting to the API: the first attempt and five retries. *)
Theorem X9_batch_request_bound (env : Env) (resume_text : string) (jobs : list Job)
    (w : World) :
  (api_calls (snd (analyze_matches env resume_text jobs None w))
   <= api_calls w + 6 * length jobs)%nat.
Proof.
  pose proof (score_each_api_calls env resume_text jobs w) as Hloop.
  unfold analyze_matches, try_except. unfold bind at 1.
  destruct (getenv env "ANTHROPIC_API_KEY") as [[|c key]|];
    try (simpl; lia).
  unfold ret at 1. unfold bind at 1. unfold lift at 1.
  destruct (new_client env (String c key)) as [[]|e]; [|simpl; lia].
  unfold bind at 1.
  destruct (score_each env resume_text None jobs w) as [[matched|e] w2];
    cbn [snd] in Hloop; [|simpl; lia].
  unfold lift. destruct (sorted_reverse match_score_key matched); simpl; lia.
Qed.

Section Pauses.
Context (env : Env) (resume_text : string) (job : Job).
Hypothesis Hdraws : unit_draws env.

Lemma throttle_at_least_5 (n : nat) : (5 <= 5 + (10 - 5) * random env n)%Q.
Proof. destruct (Hdraws n) as [H0 H1]. lra. Qed.

Lemma backoff_at_least_20 (retry_count : Z) (n : nat) :
  (1 <= retry_count)%Z ->
  (20 <= backoff_delay retry_count * ((1 # 2) + ((3 # 2) - (1 # 2)) * random env n))%Q.
Proof.
  intros Hrc. destruct (Hdraws n) as [H0 H1].
  assert (Hd : (40 <= backoff_delay retry_count)%Q).
  { unfold backoff_delay. cbv zeta. apply Q.min_glb; [|discriminate].
    assert (H2 : (2 ^ 1 <= 2 ^ retry_count)%Q)
      by (apply Qpower_le_compat_l; [assumption|discriminate]).
    change (2 ^ 1)%Q with 2%Q in H2. lra. }
  set (d := backoff_delay retry_count) in *.
  set (u := random env n) in *.
  nra.
Qed.

(** The pauses of one call: the log only grows, every pause lasts 5
    seconds or more, and there are at least as many pauses as requests. *)
Lemma analyze_job_match_pauses (retry_count : Z) (w : World) :
  (0 <= retry_count)%Z ->
  exists pauses,
    slept (snd (analyze_job_match env resume_text job retry_count w))
    = (slept w ++ pauses)%list /\
    Forall (fun d => (5 <= d)%Q) pauses /\
    (api_calls (snd (analyze_job_match env resume_text job retry_count w))
     <= api_calls w + length pauses)%nat.
Proof.
  revert retry_count w.
  apply (retry_induction
           (fun retry_count w =>
              (0 <= retry_count)%Z ->
              exists pauses,
                slept (snd (analyze_job_match env resume_text job retry_count w))
                = (slept w ++ pauses)%list /\
                Forall (fun d => (5 <= d)%Q) pauses /\
                (api_calls (snd (analyze_job_match env resume_text job retry_count w))
                 <= api_calls w + length pauses)%nat)).
  intros retry_count w IH Hrc.
  pose proof (prepare_prompt_world env resume_text job w) as Hworld.
  assert (Hprepared : forall prompt w1,
             prepare_prompt env resume_text job w = (Ok prompt, w1) ->
             w1 = throttled env w).
  { intros prompt w1 Hp. rewrite Hp in Hworld.
    destruct (job !! "title"); [|discriminate].
    destruct (job !! "company"); [|discriminate].
    destruct Hworld as (r & [= _ ->] & _). reflexivity. }
  pose proof (throttle_at_least_5 (random_draws w)) as Hthrottle.
  destruct (analyze_job_match_step env resume_text job retry_count w)
    as [e w1 Hp Hr|prompt w1 content Hp Hc (out & Hr & _)|prompt w1 e Hp Hc He Hr
        |prompt w1 msg Hp Hc Hlt Hr|prompt w1 msg Hp Hc Hlt Hr].
  - rewrite Hr. cbn [snd]. rewrite Hp in Hworld.
    destruct (job !! "title");
      [|injection Hworld as _ <-; exists []; rewrite app_nil_r;
        repeat split; [constructor|simpl; lia]].
    destruct (job !! "company");
      [|injection Hworld as _ <-; exists []; rewrite app_nil_r;
        repeat split; [constructor|simpl; lia]].
    destruct Hworld as (r & [= _ ->] & _).
    eexists. split; [apply slept_throttled|].
    split; [repeat constructor; exact Hthrottle|simpl; lia].
  - rewrite Hr. rewrite (Hprepared _ _ Hp). cbn [snd].
    exists [(5 + (10 - 5) * random env (random_draws w))%Q; 5%Q].
    split; [simpl; now rewrite <- app_assoc|].
    split; [repeat constructor; [exact Hthrottle|discriminate]|simpl; lia].
  - rewrite Hr. rewrite (Hprepared _ _ Hp). cbn [snd].
    exists [(5 + (10 - 5) * random env (random_draws w))%Q].
    split; [reflexivity|].
    split; [repeat constructor; exact Hthrottle|simpl; lia].
  - rewrite Hr. rewrite (Hprepared _ _ Hp). cbn [snd].
    exists [(5 + (10 - 5) * random env (random_draws w))%Q].
    split; [reflexivity|].
    split; [repeat constructor; exact Hthrottle|simpl; lia].
  - rewrite Hr. rewrite (Hprepared _ _ Hp).
    match goal with |- context [analyze_job_match _ _ _ _ ?w3] =>
      destruct (IH w3 Hlt) as (pauses & Hlog & Hfloor & Hcalls); [lia|];
      set (w3' := w3) in * end.
    exists ((5 + (10 - 5) * random env (random_draws w))%Q
            :: (backoff_delay (retry_count + 1)
                * ((1 # 2) + ((3 # 2) - (1 # 2))
                             * random env (S (random_draws w))))%Q
            :: pauses).
    split; [|split].
    + rewrite Hlog. subst w3'. simpl. rewrite <- !app_assoc. reflexivity.
    + constructor; [exact Hthrottle|]. constructor; [|exact Hfloor].
      apply Qle_trans with 20%Q; [discriminate|].
      apply backoff_at_least_20. lia.
    + subst w3'. simpl in Hcalls |- *. lia.
Qed.

End Pauses.

(** X10: one call of [analyze_job_match] (retries included) only adds to
    the sleep log, every pause it takes lasts at least 5 seconds, and it
    takes at least one pause per request it sends.  The random draws are
    taken from [0, 1] and the retry counter is not negative. *)
Theorem X10_pauses_before_requests (env : Env) (resume_text : string) (job : Job)
    (retry_count : Z) (w : World) :
  unit_draws env ->
  (0 <= retry_count)%Z ->
  let w' := snd (analyze_job_match env resume_text job retry_count w) in
  exists pauses,
    slept w' = (slept w ++ pauses)%list /\
    Forall (fun d => (5 <= d)%Q) pauses /\
    (api_calls w' - api_calls w <= length pauses)%nat.
Proof.
  intros Hdraws Hrc. cbv zeta.
  destruct (analyze_job_match_pauses env resume_text job Hdraws retry_count w Hrc)
    as (pauses & Hlog & Hfloor & Hcalls).
  exists pauses. repeat split; [assumption|assumption|lia].
Qed.

Lemma X10_pauses_before_requests_witness :
  exists pauses,
    slept (snd (analyze_job_match env_limited "resume" (posting "Engineer") 0 world0))
    = (slept world0 ++ pauses)%list /\
    Forall (fun d => (5 <= d)%Q) pauses /\
    (api_calls (snd (analyze_job_match env_limited "resume" (posting "Engineer") 0
                       world0)) - api_calls world0 <= length pauses)%nat.
Proof.
  apply (X10_pauses_before_requests env_limited "resume" (posting "Engineer") 0 world0).
  - intros n. split; discriminate.
  - discriminate.
Defined.

(** X11: only the digits of the text before the bar count: two
    responses whose score parts hold the same digits in the same order
    are read alike, so a sign, a label or a percent sign around the
    number is dropped. *)
Theorem X11_score_part_digits_only (left left' right : string) :
  PyStr.has_char "|" left = false ->
  PyStr.has_char "|" left' = false ->
  PyStr.filter_chars PyStr.isdigit left = PyStr.filter_chars PyStr.isdigit left' ->
  parse_response (left +:+ String "|" right)
  = parse_response (left' +:+ String "|" right).
Proof.
  intros Hl Hl' Hdigits. unfold parse_response.
  rewrite !has_char_app_first. cbn [negb].
  rewrite (split1_app _ _ _ Hl), (split1_app _ _ _ Hl'). now rewrite Hdigits.
Qed.

Lemma X11_score_part_digits_only_witness :
  parse_response ("-5" +:+ String "|" " weak match")
  = parse_response ("Score: 5%" +:+ String "|" " weak match").
Proof.
  apply X11_score_part_digits_only; reflexivity.
Defined.

(** The sign is dropped: a response that scores -5 is accepted with 5. *)
Example negative_score_accepted :
  parse_response "-5| weak match" = Ok (5%Z, "weak match").
Proof. reflexivity. Qed.

(* ===================================================================== *)
(** * Further properties of the search *)
(* ===================================================================== *)

Section DetailEffects.
Context (env : Env).


End DetailEffects.


Section ScrapeMore.
Context (env : Env) (location : string) (distance : Z) (role : string)
        (days : option Z) (progress_callback : option (Z -> M unit))
        (stream_jobs : bool) (included excluded : gset string).

Lemma posted_date_of_returns (time_elem : option node) (w : World) :
  exists posted_date w', posted_date_of env time_elem w = (Ok posted_date, w').
Proof. eexists _, _. reflexivity. Qed.

Lemma filtered_count_emit (job_data : Job) (st : Locals) :
  filtered_count (emit stream_jobs job_data st) = filtered_count st.
Proof. unfold emit. now destruct stream_jobs. Qed.

(** The postings [process_card] builds. *)
Lemma job_data_well_formed (title company job_location description posted_date : string)
    (job_url : option string) :
  well_formed
    (<["title" := VStr title]>
     (<["company" := VStr company]>
      (<["location" := VStr job_location]>
       (<["description" := VStr description]>
        (<["posted_date" := VStr posted_date]>
         (<["url" := match job_url with
                     | Some url => VStr url
                     | None => VNone
                     end]> (∅ : Job))))))) /\
  (<["title" := VStr title]>
     (<["company" := VStr company]>
      (<["location" := VStr job_location]>
       (<["description" := VStr description]>
        (<["posted_date" := VStr posted_date]>
         (<["url" := match job_url with
                     | Some url => VStr url
                     | None => VNone
                     end]> (∅ : Job))))))) !! "company" = Some (VStr company).
Proof.
  unfold well_formed, is_text.
  repeat (rewrite ?lookup_insert_eq; rewrite ?lookup_insert_ne by discriminate).
  repeat split; eauto.
  destruct job_url; eauto.
Qed.

Lemma process_card_cases (st : Locals) (card : node) (w : World) :
  exists r w',
    process_card env location progress_callback stream_jobs included excluded st card w
    = (Ok r, w') /\
    (r = (st, false) \/ r = (count_found st, false) \/
     (progress_callback <> None /\ r = (count_filtered st, false)) \/
     exists job_data,
       well_formed job_data /\ passes included excluded job_data /\
       r = if (filtered_count st + 1 >=? max_jobs)%Z
           then (emit stream_jobs job_data (count_filtered st), true)
           else (count_found (emit stream_jobs job_data (count_filtered st)), false)).
Proof.
  unfold process_card.
  destruct (find ["h3"; "h4"] _ card) as [title_elem|];
    [|eexists _, _; split; [reflexivity|tauto]].
  destruct (find ["h4"; "h5"] _ card) as [company_elem|];
    [|eexists _, _; split; [reflexivity|tauto]].
  destruct (negb (should_include_company _ included excluded)) eqn:Hfilter;
    [eexists _, _; split; [reflexivity|tauto]|].
  apply negb_false_iff in Hfilter.
  unfold try_except at 1. unfold bind at 1.
  match goal with |- context [match ?d w with _ => _ end] =>
    assert (Hd : exists description w1, d w = (Ok description, w1)) end.
  { destruct (find ["a"] _ card) as [link|]; [|eexists _, _; reflexivity].
    destruct (get_attr "href" link) as [[|c url]|];
      try (eexists _, _; reflexivity).
    apply get_job_description_returns. }
  destruct Hd as (description & w1 & ->).
  unfold bind at 1.
  match goal with |- context [posted_date_of env ?te w1] =>
    destruct (posted_date_of_returns te w1) as (posted_date & w2 & ->) end.
  match goal with |- context [emit stream_jobs ?jd _] =>
    assert (Hjd : well_formed jd /\ passes included excluded jd);
      [|set (job_data := jd) in *] end.
  { match goal with |- well_formed ?jd /\ _ =>
      destruct (job_data_well_formed (PyStr.strip (text title_elem))
                  (PyStr.strip (text company_elem))
                  match find ["span"] ["job-search-card__location";
                                       "job-result-card__location"] card with
                  | Some elem => PyStr.strip (text elem)
                  | None => location
                  end
                  description (strftime env posted_date)
                  match find ["a"] ["base-card__full-link";
                                    "job-card-container__link"] card with
                  | Some elem => get_attr "href" elem
                  | None => None
                  end) as [Hwf Hcompany] end.
    split; [exact Hwf|]. eexists. split; [exact Hcompany|exact Hfilter]. }
  rewrite filtered_count_emit.
  change (filtered_count (count_filtered st)) with (filtered_count st + 1)%Z.
  unfold try_except at 1. unfold bind at 1.
  assert (Hemit : forall w3,
             exists r w',
               (let (r0, w'0) :=
                  let (r1, w'1) :=
                    (if (filtered_count st + 1 >=? max_jobs)%Z
                     then ret (emit stream_jobs job_data (count_filtered st), true)
                     else ret (count_found (emit stream_jobs job_data
                                              (count_filtered st)), false)) w3 in
                  match r1 with
                  | Ok a => (Ok a, w'1)
                  | Raise _ => ret (count_filtered st, false) w'1
                  end in
                match r0 with
                | Ok a => (Ok a, w'0)
                | Raise _ => ret (st, false) w'0
                end) = (Ok r, w') /\
               (r = (st, false) \/ r = (count_found st, false) \/
                (progress_callback <> None /\ r = (count_filtered st, false)) \/
                exists job_data,
                  well_formed job_data /\ passes included excluded job_data /\
                  r = if (filtered_count st + 1 >=? max_jobs)%Z
                      then (emit stream_jobs job_data (count_filtered st), true)
                      else (count_found (emit stream_jobs job_data
                                           (count_filtered st)), false))).
  { intros w3. destruct (filtered_count st + 1 >=? max_jobs)%Z;
      (eexists _, _; split; [reflexivity|]; right; right; right; exists job_data;
       split; [apply Hjd|]; split; [apply Hjd|reflexivity]). }
  destruct progress_callback as [callback|].
  - destruct (callback (filtered_count st + 1)%Z w2) as [[[]|e] w3].
    + apply Hemit.
    + eexists _, _. split; [reflexivity|]. right. right. left.
      split; [discriminate|reflexivity].
  - apply Hemit.
Qed.

Lemma process_card_going (st : Locals) (card : node) (w : World) :
  search_going progress_callback stream_jobs included excluded st ->
  exists r w',
    process_card env location progress_callback stream_jobs included excluded st card w
    = (Ok r, w') /\
    if snd r
    then search_result progress_callback stream_jobs included excluded (fst r) /\
         (max_jobs <= filtered_count (fst r))%Z
    else search_going progress_callback stream_jobs included excluded (fst r).
Proof.
  intros Hgoing.
  destruct (process_card_cases st card w)
    as (r & w' & Hrun & [->|[->|[[Hcb ->]|(job_data & Hwf & Hpass & ->)]]]);
    exists r, w' || eexists _, w'; (split; [exact Hrun|]); cbn [fst snd].
  - exact Hgoing.
  - exact Hgoing.
  - destruct Hgoing as [(Hy & Hj & Hcount & Hmax & Hmode & Hnone) Hlt].
    split; [|exact Hlt]. unfold search_result, collected in *. cbn.
    repeat split; try assumption; [lia|congruence].
  - destruct Hgoing as [(Hy & Hj & Hcount & Hmax & Hmode & Hnone) Hlt].
    unfold search_going, search_result, collected, emit in *.
    destruct (filtered_count st + 1 >=? max_jobs)%Z eqn:Hlimit; cbn [fst snd];
      [apply Z.geb_le in Hlimit|rewrite Z.geb_leb in Hlimit; apply Z.leb_gt in Hlimit];
      destruct stream_jobs; cbn;
      rewrite ?Forall_app, ?length_app; cbn;
      repeat split; try assumption; try (constructor; [now split|constructor]);
      try lia; intros Hcbn; specialize (Hnone Hcbn); lia.
Qed.

Lemma process_cards_going (job_cards : list node) (st : Locals) (w : World) :
  search_going progress_callback stream_jobs included excluded st ->
  exists st' w',
    process_cards env location progress_callback stream_jobs included excluded
      st job_cards w = (Ok st', w') /\
    search_result progress_callback stream_jobs included excluded st' /\
    ((filtered_count st' < max_jobs)%Z ->
     search_going progress_callback stream_jobs included excluded st').
Proof.
  revert st w. induction job_cards as [|card rest IH]; intros st w Hst.
  - exists st, w. split; [reflexivity|]. split; [apply Hst|]. intros _. exact Hst.
  - cbn [process_cards]. unfold bind at 1.
    destruct (process_card_going st card w Hst) as ([st1 stop] & w1 & -> & H1).
    cbn [fst snd] in *. destruct stop.
    + exists st1, w1. split; [reflexivity|]. split; [apply H1|]. intros Hlt.
      destruct H1 as [_ Hge]. lia.
    + now apply IH.
Qed.

Lemma advance_going (n : Z) (st : Locals) :
  search_going progress_callback stream_jobs included excluded st ->
  search_going progress_callback stream_jobs included excluded (advance n st).
Proof. intros H. exact H. Qed.

(** The search loop never raises, and leaves locals that satisfy
    [search_result]. *)
Lemma search_loop_result (turns : nat) (st : Locals) (w : World) :
  search_going progress_callback stream_jobs included excluded st ->
  exists how st' w',
    search_loop env location distance role days progress_callback stream_jobs
      included excluded turns st w = (Ok (how, st'), w') /\
    search_result progress_callback stream_jobs included excluded st'.
Proof.
  revert st w. induction turns as [|turns IH]; intros st w Hst; cbn [search_loop].
  - destruct (total_jobs_found st <? max_jobs)%Z; eexists _, _, _; split;
      try reflexivity; apply Hst.
  - destruct (negb (total_jobs_found st <? max_jobs)%Z);
      [eexists _, _, _; split; [reflexivity|apply Hst]|].
    unfold get_search_page.
    destruct (search_get env (http_gets w) _) as [soup|e].
    + destruct (find_all ["div"] _ soup) as [|card cards] eqn:Hcards;
        [eexists _, _, _; split; [reflexivity|apply Hst]|].
      unfold bind at 1.
      destruct (process_cards_going (card :: cards) st (count_http w) Hst)
        as (st1 & w1 & -> & H1 & Hcontinue).
      destruct (filtered_count st1 >=? max_jobs)%Z eqn:Hlimit;
        [eexists _, _, _; split; [reflexivity|assumption]|].
      rewrite Z.geb_leb in Hlimit. apply Z.leb_gt in Hlimit.
      unfold uniform, random_random, sleep. run_monad.
      apply IH. apply advance_going. now apply Hcontinue.
    + destruct e; try (eexists _, _, _; split; [reflexivity|apply Hst]).
      unfold uniform, random_random, sleep. run_monad. now apply IH.
Qed.

Lemma locals0_going :
  search_going progress_callback stream_jobs included excluded locals0.
Proof.
  unfold search_going, search_result, collected, locals0, max_jobs. cbn.
  repeat split; try constructor; try lia; now destruct stream_jobs.
Qed.

Lemma sample_job_spec (title company description : string) (w : World) :
  exists job w',
    sample_job env location title company description w = (Ok job, w') /\
    job !! "title" = Some (VStr title) /\
    job !! "company" = Some (VStr company) /\
    well_formed job.
Proof.
  eexists _, _. split; [reflexivity|]. split; [apply lookup_insert_eq|].
  match goal with |- context [strftime env ?t] =>
    destruct (job_data_well_formed title company location description
                (strftime env t) None) as [Hwf Hcompany] end.
  split; [exact Hcompany|exact Hwf].
Qed.

Lemma sample_loop_spec (rows : list (string * string * string)) (w : World) :
  exists samples w',
    sample_loop env location rows w = (Ok samples, w') /\
    titles_of samples = map (fun row => Some (VStr (fst (fst row)))) rows /\
    map (fun job : Job => job !! "company") samples
    = map (fun row => Some (VStr (snd (fst row)))) rows /\
    Forall well_formed samples.
Proof.
  revert w. induction rows as [|[[title company] description] rows IH]; intros w.
  - exists [], w. repeat split; constructor.
  - cbn [sample_loop]. unfold bind at 1.
    destruct (sample_job_spec title company description w)
      as (job & w1 & -> & Htitle & Hcompany & Hwf).
    unfold bind at 1.
    destruct (IH w1) as (samples & w2 & -> & Htitles & Hcompanies & Hall).
    exists (job :: samples), w2. split; [reflexivity|].
    unfold titles_of in *. cbn [map fst snd].
    rewrite Htitle, Htitles, Hcompany, Hcompanies.
    repeat split. now constructor.
Qed.

Lemma get_sample_jobs_set (w : World) :
  exists samples w',
    get_sample_jobs env role location w = (Ok samples, w') /\
    sample_set role samples.
Proof.
  unfold get_sample_jobs.
  destruct (sample_loop_spec
              (combine (combine (job_titles role) companies) (descriptions role)) w)
    as (samples & w' & Hrun & Htitles & Hcompanies & Hwf).
  exists samples, w'. split; [exact Hrun|]. unfold sample_set.
  rewrite Htitles, Hcompanies. unfold job_titles, companies, descriptions.
  cbn [combine map fst snd]. repeat split. exact Hwf.
Qed.

Lemma sample_set_length (samples : list Job) :
  sample_set role samples -> length samples = 5%nat.
Proof.
  intros (Htitles & _). apply (f_equal (@length _)) in Htitles.
  unfold titles_of in Htitles. rewrite !length_map in Htitles. exact Htitles.
Qed.

End ScrapeMore.

Section ScrapeRuns.
Context (env : Env) (location : string) (distance : Z) (role : string)
        (days : option Z) (progress_callback : option (Z -> M unit))
        (included excluded : gset string).

(** The runs of the streaming generator, by the way the loop ended. *)
Lemma scrape_stream_cases (turns : nat) (w : World) :
  exists how st w1,
    search_loop env location distance role days progress_callback true
      included excluded turns locals0 w = (Ok (how, st), w1) /\
    search_result progress_callback true included excluded st /\
    exists samples samples' w2 w3,
      sample_set role samples /\ sample_set role samples' /\
      scrape_linkedin_jobs env location distance role days progress_callback true
        included excluded turns w
      = match how with
        | Running => (Ok None, w1)
        | Finished =>
            if (filtered_count st =? 0)%Z
            then (Ok (Some {| produced := (yielded st ++ samples)%list;
                              returned := None |}), w2)
            else (Ok (Some {| produced := yielded st; returned := None |}), w1)
        | Crashed _ =>
            if (filtered_count st =? 0)%Z
            then (Ok (Some {| produced := ((yielded st ++ samples) ++ samples')%list;
                              returned := None |}), w3)
            else (Ok (Some {| produced := (yielded st ++ samples)%list;
                              returned := None |}), w2)
        end.
Proof.
  destruct (search_loop_result env location distance role days progress_callback
              true included excluded turns locals0 w)
    as (how & st & w1 & Hloop & Hresult); [apply locals0_going|].
  exists how, st, w1. split; [exact Hloop|]. split; [exact Hresult|].
  destruct (get_sample_jobs_set env location role w1) as (samples & w2 & Hs & Hset).
  destruct (get_sample_jobs_set env location role w2) as (samples' & w3 & Hs' & Hset').
  exists samples, samples', w2, w3. split; [exact Hset|]. split; [exact Hset'|].
  unfold scrape_linkedin_jobs. unfold bind at 1. rewrite Hloop. cbn [fst snd].
  destruct how as [|e|]; [| |reflexivity].
  - destruct (filtered_count st =? 0)%Z; [|reflexivity].
    unfold bind at 1. now rewrite Hs.
  - unfold bind at 1. rewrite Hs. cbn [yield_from filtered_count yielded].
    destruct (filtered_count st =? 0)%Z; [|reflexivity].
    unfold bind at 1. now rewrite Hs'.
Qed.

(** The runs of the collecting variant. *)
Lemma scrape_batch_cases (turns : nat) (w : World) :
  exists how st w1,
    search_loop env location distance role days progress_callback false
      included excluded turns locals0 w = (Ok (how, st), w1) /\
    search_result progress_callback false included excluded st /\
    exists samples w2,
      sample_set role samples /\
      scrape_linkedin_jobs env location distance role days progress_callback false
        included excluded turns w
      = match how with
        | Running => (Ok None, w1)
        | _ =>
            match jobs st with
            | [] => (Ok (Some {| produced := yielded st; returned := Some samples |}), w2)
            | _ => (Ok (Some {| produced := yielded st; returned := Some (jobs st) |}),
                    w1)
            end
        end.
Proof.
  destruct (search_loop_result env location distance role days progress_callback
              false included excluded turns locals0 w)
    as (how & st & w1 & Hloop & Hresult); [apply locals0_going|].
  exists how, st, w1. split; [exact Hloop|]. split; [exact Hresult|].
  destruct (get_sample_jobs_set env location role w1) as (samples & w2 & Hs & Hset).
  exists samples, w2. split; [exact Hset|].
  unfold scrape_linkedin_jobs. unfold bind at 1. rewrite Hloop. cbn [fst snd].
  destruct how as [|e|]; [| |reflexivity];
    (destruct (jobs st); [unfold bind at 1; now rewrite Hs|reflexivity]).
Qed.

End ScrapeRuns.

(** X13: with [stream_jobs=False] the search never raises and never
    yields; once it ends it returns a list that is not empty, holds at
    most 3000 postings, all with the six fields of a posting, and
    consists either of scraped postings of accepted companies or of the
    five samples. *)
Theorem X13_collected_search_result (env : Env) (location : string) (distance : Z)
    (role : string) (days : option Z) (progress_callback : option (Z -> M unit))
    (included excluded : gset string) (turns : nat) (w : World) :
  exists r w',
    scrape_linkedin_jobs env location distance role days progress_callback false
      included excluded turns w = (Ok r, w') /\
    match r with
    | None => True
    | Some generated =>
        produced generated = [] /\
        exists found,
          returned generated = Some found /\ found <> [] /\
          (length found <= 3000)%nat /\ Forall well_formed found /\
          (Forall (passes included excluded) found \/ sample_set role found)
    end.
Proof.
  destruct (scrape_batch_cases env location distance role days progress_callback
              included excluded turns w)
    as (how & st & w1 & _ & (_ & Hj & _ & Hmax & Hmode & _) & samples & w2 & Hset & ->).
  unfold collected, max_jobs in Hmax. rewrite Hmode in *. cbn [length] in Hmax.
  assert (Hdone :
            exists r w',
              match jobs st with
              | [] => (Ok (Some {| produced := []; returned := Some samples |}), w2)
              | _ => (Ok (Some {| produced := []; returned := Some (jobs st) |}), w1)
              end = (Ok r, w') /\
              match r with
              | None => True
              | Some generated =>
                  produced generated = [] /\
                  exists found,
                    returned generated = Some found /\ found <> [] /\
                    (length found <= 3000)%nat /\ Forall well_formed found /\
                    (Forall (passes included excluded) found \/ sample_set role found)
              end).
  { destruct (jobs st) as [|job rest] eqn:Hjobs.
    - eexists _, _. split; [reflexivity|]. split; [reflexivity|].
      exists samples. split; [reflexivity|].
      pose proof (sample_set_length role samples Hset) as Hlen.
      split; [destruct samples; [discriminate|discriminate]|].
      split; [lia|]. split; [apply Hset|now right].
    - eexists _, _. split; [reflexivity|]. split; [reflexivity|].
      exists (job :: rest). split; [reflexivity|]. split; [discriminate|].
      split; [lia|].
      split; [eapply Forall_impl; [exact Hj|]; now intros ? []|].
      left. eapply Forall_impl; [exact Hj|]. now intros ? []. }
  destruct how as [|e|]; [exact Hdone|exact Hdone|].
  now exists None, w1.
Qed.

(** X14: with [stream_jobs=True] the search never raises and has no
    return value; what it yields up to its end is a run of at most 3000
    scraped postings, each of a company the filters accept, followed by
    nothing, by the five samples, or by the five samples twice; every
    posting yielded has the six fields of a posting. *)
Theorem X14_streamed_search_result (env : Env) (location : string) (distance : Z)
    (role : string) (days : option Z) (progress_callback : option (Z -> M unit))
    (included excluded : gset string) (turns : nat) (w : World) :
  exists r w',
    scrape_linkedin_jobs env location distance role days progress_callback true
      included excluded turns w = (Ok r, w') /\
    match r with
    | None => True
    | Some generated =>
        returned generated = None /\
        exists scraped fallback,
          produced generated = (scraped ++ fallback)%list /\
          (length scraped <= 3000)%nat /\
          Forall (passes included excluded) scraped /\
          Forall well_formed (produced generated) /\
          (fallback = [] \/ sample_set role fallback \/
           exists first second,
             fallback = (first ++ second)%list /\
             sample_set role first /\ sample_set role second)
    end.
Proof.
  destruct (scrape_stream_cases env location distance role days progress_callback
              included excluded turns w)
    as (how & st & w1 & _ & (Hy & _ & _ & Hmax & Hmode & _)
        & samples & samples' & w2 & w3 & Hset & Hset' & ->).
  unfold collected, max_jobs in Hmax. rewrite Hmode in Hmax. cbn [length] in Hmax.
  assert (Hwf : Forall well_formed (yielded st))
    by (eapply Forall_impl; [exact Hy|]; now intros ? []).
  assert (Hpass : Forall (passes included excluded) (yielded st))
    by (eapply Forall_impl; [exact Hy|]; now intros ? []).
  assert (Hs : Forall well_formed samples) by apply Hset.
  assert (Hs' : Forall well_formed samples') by apply Hset'.
  destruct how as [|e|]; [| |now exists None, w1];
    destruct (filtered_count st =? 0)%Z; eexists _, _;
    (split; [reflexivity|]); (split; [reflexivity|]); cbn [produced].
  - exists (yielded st), samples. split; [reflexivity|]. split; [lia|].
    split; [exact Hpass|]. split; [now apply Forall_app|]. right. now left.
  - exists (yielded st), []. split; [now rewrite app_nil_r|]. split; [lia|].
    split; [exact Hpass|]. split; [exact Hwf|]. now left.
  - exists (yielded st), (samples ++ samples')%list.
    split; [now rewrite app_assoc|]. split; [lia|].
    split; [exact Hpass|].
    split; [rewrite !Forall_app; repeat split; assumption|].
    right. right. now exists samples, samples'.
  - exists (yielded st), samples. split; [reflexivity|]. split; [lia|].
    split; [exact Hpass|]. split; [now apply Forall_app|]. right. now left.
Qed.

(** X15: called as [process_jobs] calls it, streaming and without a
    progress callback, the search never ends empty-handed: a run that
    ends has yielded at least one posting. *)
Theorem X15_stream_never_empty (env : Env) (location : string) (distance : Z)
    (role : string) (days : option Z) (included excluded : gset string)
    (turns : nat) (w : World) :
  match fst (scrape_linkedin_jobs env location distance role days None true
               included excluded turns w) with
  | Ok (Some generated) => produced generated <> []
  | Ok None => True
  | Raise _ => False
  end.
Proof.
  destruct (scrape_stream_cases env location distance role days None
              included excluded turns w)
    as (how & st & w1 & _ & (_ & _ & _ & _ & Hmode & Hnone)
        & samples & samples' & w2 & w3 & Hset & Hset' & ->).
  specialize (Hnone eq_refl). unfold collected in Hnone. rewrite Hmode in Hnone.
  cbn [length] in Hnone.
  pose proof (sample_set_length role samples Hset) as Hlen.
  assert (Hsome : forall l : list Job, (l ++ samples)%list <> []).
  { intros l Hnil. apply (f_equal (@length _)) in Hnil.
    rewrite length_app in Hnil. simpl in Hnil. lia. }
  destruct how as [|e|]; [| |exact I];
    destruct (filtered_count st =? 0)%Z eqn:Hzero; cbn [fst produced].
  - apply Hsome.
  - apply Z.eqb_neq in Hzero. destruct (yielded st); [simpl in Hnone; lia|discriminate].
  - intros Hnil. apply app_eq_nil in Hnil. destruct Hnil as [Hnil _].
    now apply Hsome in Hnil.
  - apply Hsome.
Qed.

Section Unreachable.
Context (env : Env) (location : string) (distance : Z) (role : string)
        (days : option Z) (progress_callback : option (Z -> M unit))
        (stream_jobs : bool) (included excluded : gset string).
Hypothesis Hsite : unreachable_site env.

(** A transport error is answered by a pause and the same request
    again, without a limit. *)
Lemma search_loop_unreachable (turns : nat) (st : Locals) (w : World) :
  (total_jobs_found st < max_jobs)%Z ->
  exists w',
    search_loop env location distance role days progress_callback stream_jobs
      included excluded turns st w = (Ok (Running, st), w') /\
    http_gets w' = (http_gets w + turns)%nat /\
    exists pauses,
      slept w' = (slept w ++ pauses)%list /\ length pauses = turns.
Proof.
  intros Hlt. apply Z.ltb_lt in Hlt.
  revert w. induction turns as [|turns IH]; intros w; cbn [search_loop];
    rewrite Hlt; cbn [negb].
  - exists w. split; [reflexivity|]. split; [lia|]. exists []. now rewrite app_nil_r.
  - unfold get_search_page.
    destruct (Hsite (http_gets w) (request_of location distance role days st))
      as [msg ->].
    unfold uniform, random_random, sleep. run_monad.
    match goal with |- context [search_loop _ _ _ _ _ _ _ _ _ turns st ?w1] =>
      destruct (IH w1) as (w' & -> & Hgets & pauses & Hlog & Hlen) end.
    exists w'. split; [reflexivity|]. simpl in Hgets, Hlog.
    split; [lia|]. eexists (_ :: pauses). rewrite Hlog, <- app_assoc.
    split; [reflexivity|]. simpl. now rewrite Hlen.
Qed.

End Unreachable.

(** X16: the search has no limit on transport errors.  While every
    search request fails with a [RequestException] the generator neither
    yields nor ends: after any number of iterations it is still in its
    loop, with its locals as at the start (nothing yielded, nothing
    collected), having sent one request and taken one pause per
    iteration. *)
Theorem X16_unreachable_site_never_ends (env : Env) (location : string)
    (distance : Z) (role : string) (days : option Z)
    (progress_callback : option (Z -> M unit)) (stream_jobs : bool)
    (included excluded : gset string) (turns : nat) (w : World) :
  unreachable_site env ->
  exists w',
    scrape_linkedin_jobs env location distance role days progress_callback
      stream_jobs included excluded turns w = (Ok None, w') /\
    search_loop env location distance role days progress_callback stream_jobs
      included excluded turns locals0 w = (Ok (Running, locals0), w') /\
    yielded locals0 = [] /\ jobs locals0 = [] /\
    http_gets w' = (http_gets w + turns)%nat /\
    exists pauses, slept w' = (slept w ++ pauses)%list /\ length pauses = turns.
Proof.
  intros Hsite.
  destruct (search_loop_unreachable env location distance role days progress_callback
              stream_jobs included excluded Hsite turns locals0 w)
    as (w' & Hloop & Hgets & Hpauses); [reflexivity|].
  exists w'. split; [|split; [exact Hloop|repeat split; assumption]].
  unfold scrape_linkedin_jobs. unfold bind at 1. now rewrite Hloop.
Qed.

Lemma X16_unreachable_site_never_ends_witness :
  exists w',
    scrape_linkedin_jobs (env_searching (Raise (RequestException "connection refused")))
      "Remote" 25 "Engineer" None None true ∅ ∅ 7 world0 = (Ok None, w') /\
    http_gets w' = (http_gets world0 + 7)%nat /\
    exists pauses, slept w' = (slept world0 ++ pauses)%list /\ length pauses = 7%nat.
Proof.
  destruct (X16_unreachable_site_never_ends
              (env_searching (Raise (RequestException "connection refused")))
              "Remote" 25 "Engineer" None None true ∅ ∅ 7 world0)
    as (w' & Hrun & _ & _ & _ & Hgets & Hpauses).
  - intros n req. now exists "connection refused".
  - exists w'. split; [exact Hrun|]. split; [exact Hgets|exact Hpauses].
Defined.

(** X17: the fallback is not filtered.  When the first page of results
    holds no card the generator yields the samples, among them the
    posting of "Tech Corp Inc", also when an excluded entry occurs in
    that name. *)
Theorem X17_samples_ignore_filters (env : Env) (location : string) (distance : Z)
    (role : string) (days : option Z) (progress_callback : option (Z -> M unit))
    (included excluded : gset string) (turns : nat) (w : World)
    (soup : list node) (entry : string) :
  search_get env (http_gets w) (request_of location distance role days locals0)
  = Ok soup ->
  find_all ["div"] ["base-card"; "job-search-card"] soup = [] ->
  entry ∈ excluded ->
  occurs_in entry "tech corp inc" ->
  exists generated w' job,
    scrape_linkedin_jobs env location distance role days progress_callback true
      included excluded (S turns) w = (Ok (Some generated), w') /\
    In job (produced generated) /\
    job !! "company" = Some (VStr "Tech Corp Inc") /\
    should_include_company "Tech Corp Inc" included excluded = false.
Proof.
  intros Hget Hcards Hentry Hocc.
  destruct (get_sample_jobs_set env location role (count_http w))
    as (samples & w1 & Hs & _ & Hcompanies & _).
  destruct samples as [|job rest]; [discriminate|].
  injection Hcompanies as Hcompany _.
  exists {| produced := job :: rest; returned := None |}, w1, job.
  split; [|split; [now left|split; [exact Hcompany|]]].
  - unfold scrape_linkedin_jobs. unfold bind at 1. cbn [search_loop].
    change (total_jobs_found locals0 <? max_jobs)%Z with true. cbn [negb].
    unfold get_search_page. rewrite Hget, Hcards.
    cbn [fst snd filtered_count locals0]. change (0 =? 0)%Z with true. cbv iota.
    unfold bind at 1. rewrite Hs. reflexivity.
  - now apply (excluded_entry_rejects "Tech Corp Inc" included excluded entry).
Qed.

Lemma X17_samples_ignore_filters_witness :
  exists generated w' job,
    scrape_linkedin_jobs (env_searching (Ok [])) "Remote" 25 "Engineer" None None true
      ∅ {["tech"]} 1 world0 = (Ok (Some generated), w') /\
    In job (produced generated) /\
    job !! "company" = Some (VStr "Tech Corp Inc") /\
    should_include_company "Tech Corp Inc" ∅ {["tech"]} = false.
Proof.
  apply (X17_samples_ignore_filters (env_searching (Ok [])) "Remote" 25 "Engineer"
           None None ∅ {["tech"]} 0 world0 [] "tech").
  - reflexivity.
  - reflexivity.
  - now apply elem_of_singleton_2.
  - now exists EmptyString, " corp inc".
Defined.

(* ===================================================================== *)
(** * From the search to the scorer *)
(* ===================================================================== *)

Section Handover.
Context (env : Env) (resume_text : string) (job : Job).

(** The request counter never goes back. *)
Lemma api_calls_monotone (retry_count : Z) (w : World) :
  (api_calls w
   <= api_calls (snd (analyze_job_match env resume_text job retry_count w)))%nat.
Proof.
  revert retry_count w. apply retry_induction. intros retry_count w IH.
  pose proof (prepare_prompt_api_calls env resume_text job w) as Hprep.
  destruct (analyze_job_match_step env resume_text job retry_count w)
    as [e w1 Hp Hr|prompt w1 content Hp Hc (out & Hr & _)|prompt w1 e Hp Hc He Hr
        |prompt w1 msg Hp Hc Hlt Hr|prompt w1 msg Hp Hc Hlt Hr];
    rewrite Hr; rewrite Hp in Hprep; simpl in Hprep; simpl; try lia.
  match goal with |- context [analyze_job_match _ _ _ _ ?w3] =>
    specialize (IH w3 Hlt) end.
  simpl in IH. lia.
Qed.

Lemma well_formed_requested (retry_count : Z) (w : World) :
  well_formed job ->
  (api_calls w
   < api_calls (snd (analyze_job_match env resume_text job retry_count w)))%nat.
Proof.
  intros Hwf.
  destruct (prepare_prompt_well_formed env resume_text job w Hwf)
    as (prompt' & Hprepared).
  pose proof (prepare_prompt_api_calls env resume_text job w) as Hprep.
  destruct (analyze_job_match_step env resume_text job retry_count w)
    as [e w1 Hp Hr|prompt w1 content Hp Hc (out & Hr & _)|prompt w1 e Hp Hc He Hr
        |prompt w1 msg Hp Hc Hlt Hr|prompt w1 msg Hp Hc Hlt Hr];
    [congruence|..];
    rewrite Hr; rewrite Hp in Hprep; simpl in Hprep; simpl; try lia.
  match goal with |- context [analyze_job_match _ _ _ _ ?w3] =>
    pose proof (api_calls_monotone (retry_count + 1) w3) as Hmono end.
  simpl in Hmono. lia.
Qed.

End Handover.

(** X18: a posting with the fields the search gives it is always put to
    the model: the request is prepared after the pause of 5 to 10
    seconds, and [analyze_job_match] sends at least one API request for
    it (it never stops at a missing field). *)
Theorem X18_well_formed_posting_requested (env : Env) (resume_text : string)
    (job : Job) (retry_count : Z) (w : World) :
  well_formed job ->
  (exists prompt,
      prepare_prompt env resume_text job w = (Ok prompt, throttled env w)) /\
  (api_calls w
   < api_calls (snd (analyze_job_match env resume_text job retry_count w)))%nat.
Proof.
  intros Hwf. split.
  - now apply prepare_prompt_well_formed.
  - now apply well_formed_requested.
Qed.

Lemma X18_well_formed_posting_requested_witness :
  (api_calls world0
   < api_calls (snd (analyze_job_match env_limited "resume" (posting "Engineer") 0
                       world0)))%nat.
Proof.
  apply (X18_well_formed_posting_requested env_limited "resume" (posting "Engineer") 0
           world0).
  apply posting_well_formed.
Defined.

(* ===================================================================== *)
(** * The loop of [process_jobs] *)
(* ===================================================================== *)

Section ProcessLoop.
Context (env : Env) (resume_text : string).

(** A posting of the search with its score. *)
Let ranked (out : Job) : Prop := exists job, well_formed job /\ well_scored job out.

Lemma ranked_scored_posting (out : Job) : ranked out -> scored_posting out.
Proof.
  intros (job & Hwf & s & r & -> & _). now apply with_match_scored_posting.
Qed.

(** A batch of one comes back as one posting, scored. *)
Lemma analyze_matches_single (job : Job) (w : World) :
  exists out w',
    analyze_matches env resume_text [job] None w = (Ok [out], w') /\
    well_scored job out.
Proof.
  destruct (analyze_matches_cases env resume_text [job] None w)
    as [(matched & outs & w' & Hloop & Hsort & ->)|(w' & ->)].
  - pose proof (score_each_well_scored _ _ _ _ _ _ _ Hloop) as Hws.
    inversion Hws as [|? out ? rest Hout Hrest]; subst.
    inversion Hrest; subst. cbn in Hsort. injection Hsort as <-.
    now exists out, w'.
  - exists (analysis_failed job), w'. split; [reflexivity|].
    exists 0%Z, "Analysis failed". split; [reflexivity|]. split; [lia|discriminate].
Qed.

(** One round of the loop from a state whose postings are ranked. *)
Lemma process_job_ranked (st : State) (job : Job) (w : World) :
  Forall ranked (analyzed_jobs st) -> well_formed job ->
  exists out sorted_jobs w',
    well_scored job out /\
    stable_sort_of match_score_key (analyzed_jobs st ++ [out])%list sorted_jobs /\
    process_job env resume_text st job w
    = (Ok tt,
       {| analyzed_jobs := (analyzed_jobs st ++ [out])%list;
          search_count := search_count st + 1;
          analysis_count := analysis_count st + 1;
          top_matches := firstn 5 sorted_jobs |}, w').
Proof.
  intros Hst Hwf.
  assert (Hne : job <> ∅).
  { destruct Hwf as ((title & Ht) & _). intros ->. now rewrite lookup_empty in Ht. }
  destruct (analyze_matches_single job w) as (out & w' & Hrun & Hout).
  assert (Hranked : ranked out) by now exists job.
  destruct (handle_analyzed_job_scored (count_search st) out)
    as (sorted_jobs & _ & Hsort & Hhandle).
  { eapply Forall_impl; [exact Hst|]. exact ranked_scored_posting. }
  { now apply ranked_scored_posting. }
  cbn [count_search analyzed_jobs search_count analysis_count] in Hsort, Hhandle.
  exists out, sorted_jobs, w'. split; [exact Hout|]. split; [exact Hsort|].
  unfold process_job. rewrite bool_decide_eq_false_2 by exact Hne.
  cbv zeta. rewrite Hrun. cbn [first_item]. now rewrite Hhandle.
Qed.

(** What every state of a search satisfies. *)
Lemma reachable_ranked (st : State) :
  reachable env resume_text st ->
  Forall ranked (analyzed_jobs st) /\
  search_count st = Z.of_nat (length (analyzed_jobs st)) /\
  analysis_count st = Z.of_nat (length (analyzed_jobs st)) /\
  exists sorted_jobs,
    stable_sort_of match_score_key (analyzed_jobs st) sorted_jobs /\
    top_matches st = firstn 5 sorted_jobs.
Proof.
  induction 1 as [|st job w _ (Hranked & Hsearch & Hcount & _) Hwf].
  - repeat split; try constructor. exists []. repeat split; constructor.
  - destruct (process_job_ranked st job w Hranked Hwf)
      as (out & sorted_jobs & w' & Hout & Hsort & ->).
    cbn [fst snd analyzed_jobs search_count analysis_count top_matches].
    split; [|split; [|split]].
    + apply Forall_app. split; [exact Hranked|]. constructor; [|constructor].
      now exists job.
    + rewrite length_app. cbn [length]. lia.
    + rewrite length_app. cbn [length]. lia.
    + now exists sorted_jobs.
Qed.

End ProcessLoop.

(** X19: during a search, fed with postings of the shape the generator
    yields, the loop of [process_jobs] keeps its books: both counters
    equal the number of analyzed postings, every analyzed posting has an
    integer score of 0..100, and the live buffer is the first five of the
    stable descending sort of all of them.  The next round never raises
    (so the handler that returns the empty list is not reached from the
    scoring, the ranking or the subscripts of the display) and adds the
    posting it was given, scored, at the end of the list. *)
Theorem X19_process_jobs_loop (env : Env) (resume_text : string) (st : State) :
  reachable env resume_text st ->
  (search_count st = Z.of_nat (length (analyzed_jobs st)) /\
   analysis_count st = Z.of_nat (length (analyzed_jobs st)) /\
   Forall (fun out : Job =>
             exists score, out !! "match_score" = Some (VInt score) /\
                           (0 <= score <= 100)%Z) (analyzed_jobs st) /\
   exists sorted_jobs,
     stable_sort_of match_score_key (analyzed_jobs st) sorted_jobs /\
     top_matches st = firstn 5 sorted_jobs) /\
  (forall job w,
      well_formed job ->
      exists out st' w',
        process_job env resume_text st job w = (Ok tt, st', w') /\
        well_scored job out /\
        analyzed_jobs st' = (analyzed_jobs st ++ [out])%list).
Proof.
  intros Hreach.
  destruct (reachable_ranked env resume_text st Hreach)
    as (Hranked & Hsearch & Hcount & Htop).
  split; [split; [exact Hsearch|split; [exact Hcount|split; [|exact Htop]]]|].
  - eapply Forall_impl; [exact Hranked|].
    intros out (job & _ & s & r & -> & Hrange & _).
    exists s. split; [apply with_match_score|exact Hrange].
  - intros job w Hwf.
    destruct (process_job_ranked env resume_text st job w Hranked Hwf)
      as (out & sorted_jobs & w' & Hout & _ & ->).
    eexists out, _, w'. split; [reflexivity|]. split; [exact Hout|reflexivity].
Qed.

Lemma X19_process_jobs_loop_witness :
  exists out st' w',
    process_job env_limited "resume" init (posting "Engineer") world0 = (Ok tt, st', w') /\
    well_scored (posting "Engineer") out /\
    analyzed_jobs st' = (analyzed_jobs init ++ [out])%list.
Proof.
  apply (proj2 (X19_process_jobs_loop env_limited "resume" init
                  (reachable_init env_limited "resume"))).
  apply posting_well_formed.
Defined.

(* ===================================================================== *)
(** * The time a batch takes *)
(* ===================================================================== *)

Section BatchTime.
Context (env : Env) (resume_text : string).
Hypothesis Hdraws : unit_draws env.

Lemma total_app (a b : list Q) : (total (a ++ b) == total a + total b)%Q.
Proof.
  induction a as [|x a IH]; simpl; [ring|]. rewrite IH. ring.
Qed.

Lemma total_floor (pauses : list Q) :
  Forall (fun d => (5 <= d)%Q) pauses -> pauses <> [] -> (5 <= total pauses)%Q.
Proof.
  intros Hall. induction Hall as [|d rest Hd _ IH]; [congruence|]. intros _.
  simpl. destruct rest as [|d' rest'].
  - simpl. lra.
  - assert (5 <= total (d' :: rest'))%Q by (apply IH; discriminate). lra.
Qed.

(** Scoring one well-formed posting pauses for 5 seconds or more. *)
Lemma analyze_job_match_time (job : Job) (w : World) :
  well_formed job ->
  exists out w' pauses,
    analyze_job_match env resume_text job 0 w = (Ok out, w') /\
    slept w' = (slept w ++ pauses)%list /\ (5 <= total pauses)%Q.
Proof.
  intros Hwf.
  destruct (analyze_job_match_returns env resume_text job 0 w) as (out & w' & Hrun).
  destruct (analyze_job_match_pauses env resume_text job Hdraws 0 w)
    as (pauses & Hlog & Hfloor & Hcalls); [lia|].
  pose proof (well_formed_requested env resume_text job 0 w Hwf) as Hsent.
  rewrite Hrun in Hlog, Hcalls, Hsent. cbn [snd] in Hlog, Hcalls, Hsent.
  exists out, w', pauses. split; [exact Hrun|]. split; [exact Hlog|].
  apply total_floor; [exact Hfloor|]. destruct pauses; [simpl in Hcalls; lia|discriminate].
Qed.

Lemma score_each_time (jobs : list Job) (w : World) :
  Forall well_formed jobs ->
  exists outs w' pauses,
    score_each env resume_text None jobs w = (Ok outs, w') /\
    slept w' = (slept w ++ pauses)%list /\
    (15 * inject_Z (Z.of_nat (length jobs)) <= total pauses)%Q.
Proof.
  intros Hall. revert w. induction Hall as [|job rest Hwf _ IH]; intros w.
  - exists [], w, []. split; [reflexivity|]. split; [now rewrite app_nil_r|].
    vm_compute. discriminate.
  - cbn [score_each]. unfold bind at 1.
    destruct (analyze_job_match_time job w Hwf) as (out & w1 & pauses & -> & Hlog & Hfloor).
    unfold uniform, random_random, sleep. run_monad.
    match goal with |- context [score_each env resume_text None rest ?w3] =>
      destruct (IH w3) as (outs & w' & pauses' & -> & Hlog' & Hfloor') end.
    simpl in Hlog'.
    exists (out :: outs), w',
      (pauses ++ (10 + (15 - 10) * random env (random_draws w1))%Q :: pauses')%list.
    split; [reflexivity|]. split.
    + rewrite Hlog', Hlog, <- !app_assoc. reflexivity.
    + pose proof (total_app pauses
                    ((10 + (15 - 10) * random env (random_draws w1))%Q :: pauses'))
        as Hsum.
      simpl in Hsum. destruct (Hdraws (random_draws w1)) as [H0 H1].
      rewrite Nat2Z.inj_succ, <- Z.add_1_r, inject_Z_plus.
      change (inject_Z 1) with 1%Q. 
      set (n := inject_Z (Z.of_nat (length rest))) in *.
      set (u := random env (random_draws w1)) in *.
      rewrite Hsum. lra.
Qed.

End BatchTime.

(** X20: with an API key and a client, no callback, and random draws
    in [0, 1], scoring a batch of postings that have the fields of a
    posting sleeps for at least 15 seconds per posting, whatever the API
    answers: at least 5 before the request and 10 after the posting. *)
Theorem X20_batch_time_floor (env : Env) (resume_text : string) (jobs : list Job)
    (c : ascii) (key : string) (w : World) :
  getenv env "ANTHROPIC_API_KEY" = Some (String c key) ->
  new_client env (String c key) = Ok tt ->
  unit_draws env ->
  Forall well_formed jobs ->
  exists pauses,
    slept (snd (analyze_matches env resume_text jobs None w))
    = (slept w ++ pauses)%list /\
    (15 * inject_Z (Z.of_nat (length jobs)) <= total pauses)%Q.
Proof.
  intros Hkey Hclient Hdraws Hall.
  destruct (score_each_time env resume_text Hdraws jobs w Hall)
    as (outs & w' & pauses & Hloop & Hlog & Hfloor).
  exists pauses. split; [|exact Hfloor].
  unfold analyze_matches, try_except. unfold bind at 1. rewrite Hkey.
  unfold ret at 1. unfold bind at 1. unfold lift at 1. rewrite Hclient.
  unfold bind at 1. rewrite Hloop. unfold lift.
  destruct (sorted_reverse match_score_key outs); exact Hlog.
Qed.

Lemma X20_batch_time_floor_witness :
  exists pauses,
    slept (snd (analyze_matches env_limited "resume" [posting "Engineer"] None world0))
    = (slept world0 ++ pauses)%list /\
    (15 * inject_Z (Z.of_nat (length [posting "Engineer"])) <= total pauses)%Q.
Proof.
  apply (X20_batch_time_floor env_limited "resume" [posting "Engineer"] "s" "ecret"
           world0).
  - reflexivity.
  - reflexivity.
  - intros n. split; discriminate.
  - constructor; [apply posting_well_formed|constructor].
Defined.

(* ===================================================================== *)
(** * The filters do not see case *)
(* ===================================================================== *)

Section CaseFacts.

Lemma newline_lower_char (c : ascii) :
  Ascii.eqb (PyStr.lower_char c) PyStr.newline = Ascii.eqb c PyStr.newline.
Proof. destruct c as [[] [] [] [] [] [] [] []]; reflexivity. Qed.

Lemma split_lower (s : string) :
  PyStr.split PyStr.newline (PyStr.lower s)
  = map PyStr.lower (PyStr.split PyStr.newline s).
Proof.
  induction s as [|c s IH]; [reflexivity|].
  cbn [PyStr.lower PyStr.split]. rewrite newline_lower_char, IH.
  destruct (Ascii.eqb c PyStr.newline); [reflexivity|].
  destruct (PyStr.split PyStr.newline s) as [|l rest]; reflexivity.
Qed.

Lemma parse_company_list_lower (companies_text : string) :
  parse_company_list (PyStr.lower companies_text) = parse_company_list companies_text.
Proof.
  unfold parse_company_list.
  destruct companies_text as [|c s]; [reflexivity|].
  change (PyStr.lower (String c s)) with (String (PyStr.lower_char c) (PyStr.lower s)).
  change (String (PyStr.lower_char c) (PyStr.lower s)) with (PyStr.lower (String c s)).
  rewrite split_lower. f_equal.
  induction (PyStr.split PyStr.newline (String c s)) as [|line lines IH];
    [reflexivity|].
  cbn [map List.filter]. rewrite strip_lower.
  destruct (PyStr.strip line) as [|d r] eqn:Hline; cbn [PyStr.lower]; [exact IH|].
  cbn [map]. rewrite IH. f_equal.
  rewrite strip_lower, Hline. apply lower_idempotent.
Qed.

End CaseFacts.

(** X21: the company filters do not see case: the verdict on a company
    is the same when its name and the two filter texts are put in lower
    case. *)
Theorem X21_filters_ignore_case (company included_text excluded_text : string) :
  should_include_company company (parse_company_list included_text)
    (parse_company_list excluded_text)
  = should_include_company (PyStr.lower company)
      (parse_company_list (PyStr.lower included_text))
      (parse_company_list (PyStr.lower excluded_text)).
Proof.
  rewrite !parse_company_list_lower. unfold should_include_company. cbv zeta.
  now rewrite lower_idempotent.
Qed.

(* ===================================================================== *)
(** * The resume text *)
(* ===================================================================== *)

Section ResumeFacts.

Lemma visible_app (s t : string) : visible (s +:+ t) = visible s +:+ visible t.
Proof.
  unfold visible. induction s as [|c s IH]; [reflexivity|]. simpl.
  destruct (negb (PyStr.isspace c)); simpl; now rewrite IH.
Qed.

Lemma append_associative (s t u : string) : (s +:+ t) +:+ u = s +:+ (t +:+ u).
Proof.
  induction s as [|c s IH]; [reflexivity|].
  change (String c ((s +:+ t) +:+ u) = String c (s +:+ (t +:+ u))). now rewrite IH.
Qed.

Lemma append_empty (s : string) : s +:+ EmptyString = s.
Proof.
  induction s as [|c s IH]; [reflexivity|].
  change (String c (s +:+ EmptyString) = String c s). now rewrite IH.
Qed.

Lemma visible_replace_blank_lines (s : string) :
  visible (replace_blank_lines s) = visible s.
Proof.
  enough (H : visible (replace_blank_lines s) = visible s /\
              forall c, visible (replace_blank_lines (String c s))
                        = visible (String c s)) by apply H.
  induction s as [|d s [IH1 IH2]].
  - split; [reflexivity|]. intros c. reflexivity.
  - split; [apply IH2|]. intros c.
    change (replace_blank_lines (String c (String d s)))
      with (if Ascii.eqb c PyStr.newline && Ascii.eqb d PyStr.newline
            then String PyStr.newline (replace_blank_lines s)
            else String c (replace_blank_lines (String d s))).
    destruct (Ascii.eqb c PyStr.newline) eqn:Hc, (Ascii.eqb d PyStr.newline) eqn:Hd;
      cbn [andb].
    + apply Ascii.eqb_eq in Hc, Hd. subst c d. unfold visible in *. simpl.
      exact IH1.
    + unfold visible in *. cbn [PyStr.filter_chars]. now rewrite (IH2 d).
    + unfold visible in *. cbn [PyStr.filter_chars]. now rewrite (IH2 d).
    + unfold visible in *. cbn [PyStr.filter_chars]. now rewrite (IH2 d).
Qed.

Lemma visible_lstrip (s : string) : visible (PyStr.lstrip s) = visible s.
Proof.
  unfold visible. induction s as [|c s IH]; [reflexivity|]. simpl.
  destruct (PyStr.isspace c) eqn:Hc; [exact IH|]. simpl. now rewrite Hc.
Qed.

Lemma visible_rstrip (s : string) : visible (PyStr.rstrip s) = visible s.
Proof.
  unfold visible. induction s as [|c s IH]; [reflexivity|].
  cbn [PyStr.rstrip PyStr.filter_chars]. rewrite <- IH.
  destruct (PyStr.rstrip s) as [|d r];
    destruct (PyStr.isspace c) eqn:Hc; simpl; rewrite ?Hc; reflexivity.
Qed.

Lemma visible_strip (s : string) : visible (PyStr.strip s) = visible s.
Proof. unfold PyStr.strip. now rewrite visible_rstrip, visible_lstrip. Qed.

Lemma read_pages_ok (pages : list (Result string)) (text out : string) :
  read_pages text pages = Ok out ->
  exists texts,
    pages = map Ok texts /\ visible out = visible text +:+ visible (join texts).
Proof.
  revert text. induction pages as [|[page_text|e] rest IH]; intros text;
    cbn [read_pages bindR]; [| |discriminate].
  - intros [= <-]. exists []. split; [reflexivity|]. simpl. now rewrite append_empty.
  - intros Hrest. destruct (IH _ Hrest) as (texts & -> & Hvisible).
    exists (page_text :: texts). split; [reflexivity|].
    rewrite Hvisible. cbn [join fold_right]. fold (join texts).
    rewrite !visible_app. change (visible PyStr.nl) with EmptyString.
    now rewrite append_empty, append_associative.
Qed.

Lemma read_pages_raise (pages : list (Result string)) (text : string) (e : exn) :
  read_pages text pages = Raise e -> In (Raise e) pages.
Proof.
  revert text. induction pages as [|[page_text|e'] rest IH]; intros text;
    cbn [read_pages bindR]; [discriminate| |].
  - intros Hrest. right. now apply (IH _ Hrest).
  - intros [= ->]. now left.
Qed.

End ResumeFacts.

(** X22: [extract_resume_text] loses no visible character: the text it
    returns carries no whitespace at either end and its characters other
    than whitespace are those of the pages, in order.  It raises only
    when the reader or a page does, and then an [Exception] whose message
    is "Error processing resume: " followed by the text of the cause. *)
Theorem X22_resume_text (uploaded_file : Pdf) :
  match extract_resume_text uploaded_file with
  | Ok text =>
      PyStr.strip text = text /\
      exists texts,
        uploaded_file = Ok (map Ok texts) /\ visible text = visible (join texts)
  | Raise e =>
      exists cause,
        e = Exception ("Error processing resume: " +:+ str_exn cause) /\
        (uploaded_file = Raise cause \/
         exists pages, uploaded_file = Ok pages /\ In (Raise cause) pages)
  end.
Proof.
  unfold extract_resume_text.
  destruct uploaded_file as [pages|cause]; cbn [bindR];
    [|exists cause; split; [reflexivity|now left]].
  destruct (read_pages EmptyString pages) as [text|cause] eqn:Hread; cbn [bindR].
  - split; [apply strip_idempotent|].
    destruct (read_pages_ok pages EmptyString text Hread) as (texts & -> & Hvisible).
    exists texts. split; [reflexivity|].
    now rewrite visible_strip, visible_replace_blank_lines, Hvisible.
  - exists cause. split; [reflexivity|]. right. exists pages.
    split; [reflexivity|]. now apply (read_pages_raise pages EmptyString).
Qed.
